(** * yt: a shallow embedding of the download service

  The repository holds several variants of one Express server that drives
  the [yt-dlp] command line tool:

  - the full variant ([normalizeUrl], [sanitizeShellInput],
    [executeYtDlp], [cleanupOldFiles], POST [/download],
    GET [/stream/:filename], GET [/file/:filename]);
  - the simplified variant [server.js] (same helpers, a POST [/download]
    that builds the command line itself, a 30 minute sweep);
  - the minimal variant (timestamp job ids, output located by prefix);
  - the variant on the [yt-dlp-exec] library (argument vector, hourly sweep).

  The handlers of POST [/download] are given twice: as [download], on a
  body whose fields are strings, and as [post_download], on a body whose
  fields hold any JSON value, where JavaScript's dynamic typing decides
  which calls throw; the two agree on bodies of strings.

  JavaScript strings are modelled by [string], holding their UTF-8 bytes;
  every character the handlers test lies in the ASCII range, and the bytes
  of a non-ASCII character never coincide with one of them (white space,
  which [parseInt] skips, is listed with its encodings).  Times are whole
  milliseconds in [Z].
  The file system is an association list from absolute paths to files, in
  directory listing order.  The external tool is a parameter: a function
  from the invocation and the file system to an exit status and a new file
  system. *)

From Stdlib Require Import String Ascii List ZArith Lia Bool DecimalString.
From Stdlib Require DecimalPos.
Import ListNotations.
Open Scope string_scope.

(** ** JavaScript string primitives *)

Module JS.

(** Truthiness of a string value: the empty string is falsy. *)
Definition truthy (s : string) : bool :=
  match s with
  | EmptyString => false
  | String _ _ => true
  end.

(** [s.startsWith(p)], returning what follows the prefix. *)
Fixpoint strip_prefix (p s : string) : option string :=
  match p, s with
  | EmptyString, _ => Some s
  | String a p', String b s' => if Ascii.eqb a b then strip_prefix p' s' else None
  | String _ _, EmptyString => None
  end.

Definition startsWith (s p : string) : bool :=
  match strip_prefix p s with
  | Some _ => true
  | None => false
  end.

(** [s.includes(p)]. *)
Fixpoint includes (s p : string) : bool :=
  startsWith s p ||
  match s with
  | EmptyString => false
  | String _ s' => includes s' p
  end.

(** [parts.join(sep)]. *)
Fixpoint join (sep : string) (parts : list string) : string :=
  match parts with
  | [] => ""
  | [x] => x
  | x :: rest => x ++ sep ++ join sep rest
  end.

(** [s.slice(0, n)]. *)
Fixpoint slice0 (n : nat) (s : string) : string :=
  match n, s with
  | S n', String c s' => String c (slice0 n' s')
  | _, _ => ""
  end.

(** The characters of a string, in order. *)
Definition chars (s : string) : list ascii := list_ascii_of_string s.

(** Decimal rendering of an integer, as template literals do for the
    result of [Date.now()]. *)
Definition of_Z (z : Z) : string := NilZero.string_of_int (Z.to_int z).

(** The string of the given bytes. *)
Definition of_bytes (bytes : list nat) : string :=
  string_of_list_ascii (map ascii_of_nat bytes).

(** The white space and line terminator characters of the language
    (U+0009 to U+000D, U+0020, U+00A0, U+1680, U+2000 to U+200A, U+2028,
    U+2029, U+202F, U+205F, U+3000, U+FEFF), each in UTF-8. *)
Definition white_space : list string :=
  map of_bytes
    [[9]; [10]; [11]; [12]; [13]; [32]; [194; 160]; [225; 154; 128];
     [226; 128; 128]; [226; 128; 129]; [226; 128; 130]; [226; 128; 131];
     [226; 128; 132]; [226; 128; 133]; [226; 128; 134]; [226; 128; 135];
     [226; 128; 136]; [226; 128; 137]; [226; 128; 138]; [226; 128; 168];
     [226; 128; 169]; [226; 128; 175]; [226; 129; 159]; [227; 128; 128];
     [239; 187; 191]].

(** What follows one white space character at the head of [s]. *)
Definition strip_white_space (s : string) : option string :=
  fold_right
    (fun w found =>
       match strip_prefix w s with
       | Some rest => Some rest
       | None => found
       end)
    None white_space.

Fixpoint trimStart_fuel (fuel : nat) (s : string) : string :=
  match fuel with
  | O => s
  | S fuel' =>
      match strip_white_space s with
      | Some rest => trimStart_fuel fuel' rest
      | None => s
      end
  end.

(** [s.trimStart()]; every step consumes a character, so the length of
    [s] is fuel enough. *)
Definition trimStart (s : string) : string :=
  trimStart_fuel (String.length s) s.

(** The value of [c] as a digit of the radix, if it is one. *)
Definition digit_value (radix : Z) (c : ascii) : option Z :=
  let n := Z.of_nat (nat_of_ascii c) in
  let v :=
    if ((48 <=? n) && (n <=? 57))%Z then Some (n - 48)%Z
    else if ((97 <=? n) && (n <=? 122))%Z then Some (n - 87)%Z
    else if ((65 <=? n) && (n <=? 90))%Z then Some (n - 55)%Z
    else None in
  match v with
  | Some d => if (d <? radix)%Z then Some d else None
  | None => None
  end.

(** The value of the longest run of digits at the head of [s]; [acc] is the
    value read so far, [None] before the first digit. *)
Fixpoint digits (radix : Z) (acc : option Z) (s : string) : option Z :=
  match s with
  | String c s' =>
      match digit_value radix c with
      | Some d =>
          digits radix
            (Some (match acc with
                   | Some a => a * radix + d
                   | None => d
                   end)%Z) s'
      | None => acc
      end
  | EmptyString => acc
  end.

(** What may follow a numeral without being read as part of it: nothing,
    or a character that is a digit in no radix (a dot, a space). *)
Definition numeral_ends (rest : string) : Prop :=
  match rest with
  | EmptyString => True
  | String c _ => digit_value 36 c = None
  end.

(** [parseInt(s)] with no radix; [None] is [NaN].  Leading white space is
    skipped, a sign and the prefix [0x] or [0X] are read, then the longest
    run of digits; what follows is ignored.  The code's number is a double:
    the integer here is that number for every numeral below 2^53. *)
Definition parseInt (s : string) : option Z :=
  let s := trimStart s in
  let '(sign, s) :=
    match strip_prefix "-" s with
    | Some rest => ((-1)%Z, rest)
    | None =>
        match strip_prefix "+" s with
        | Some rest => (1%Z, rest)
        | None => (1%Z, s)
        end
    end in
  let '(radix, s) :=
    match strip_prefix "0x" s with
    | Some rest => (16%Z, rest)
    | None =>
        match strip_prefix "0X" s with
        | Some rest => (16%Z, rest)
        | None => (10%Z, s)
        end
    end in
  match digits radix None s with
  | Some m => Some (sign * m)%Z
  | None => None
  end.

(** [x.toString()] of a number that is an integer or [NaN]. *)
Definition number_toString (x : option Z) : string :=
  match x with
  | Some z => of_Z z
  | None => "NaN"
  end.

Fixpoint repeat_char (c : ascii) (n : nat) : string :=
  match n with
  | O => ""
  | S n' => String c (repeat_char c n')
  end.

(** [s.padStart(n, c)] for a one character filler. *)
Definition padStart (n : nat) (c : ascii) (s : string) : string :=
  repeat_char c (n - String.length s) ++ s.

End JS.

(** ** Regular expressions of the helpers

  Every pattern of the source is a literal followed by a run of one
  character class, with one capture group around the run.  [String.match]
  without the [g] flag returns the leftmost match; since the literal has no
  alternative, there is at most one candidate per start position. *)

Module Regex.

Definition in_range (lo hi c : ascii) : bool :=
  (nat_of_ascii lo <=? nat_of_ascii c)%nat && (nat_of_ascii c <=? nat_of_ascii hi)%nat.

(** The class [[a-zA-Z0-9_-]]. *)
Definition id_char (c : ascii) : bool :=
  in_range "a" "z" c || in_range "A" "Z" c || in_range "0" "9" c
  || Ascii.eqb c "_" || Ascii.eqb c "-".

(** The characters of the class [[`$\\|;&><]]. *)
Definition shell_meta_chars : list ascii :=
  ["`"; "$"; "\"; "|"; ";"; "&"; ">"; "<"]%char.

Definition shell_meta (c : ascii) : bool :=
  existsb (Ascii.eqb c) shell_meta_chars.

(** [cls{n}] at the head of [s]: the [n] characters consumed. *)
Fixpoint exactly (cls : ascii -> bool) (n : nat) (s : string) : option string :=
  match n with
  | O => Some ""
  | S n' =>
      match s with
      | String c s' =>
          if cls c
          then match exactly cls n' s' with
               | Some g => Some (String c g)
               | None => None
               end
          else None
      | EmptyString => None
      end
  end.

(** [cls+] at the head of [s], greedy: the longest run, which must not be
    empty. *)
Fixpoint run (cls : ascii -> bool) (s : string) : string :=
  match s with
  | String c s' => if cls c then String c (run cls s') else ""
  | EmptyString => ""
  end.

Definition at_least_one (cls : ascii -> bool) (s : string) : option string :=
  match run cls s with
  | EmptyString => None
  | g => Some g
  end.

(** A match of [lit(group)] anchored at the head of [s]. *)
Definition match_here (lit : string) (group : string -> option string)
           (s : string) : option string :=
  match JS.strip_prefix lit s with
  | Some rest => group rest
  | None => None
  end.

(** [s.match(/lit(group)/)]: capture group 1 of the leftmost match, or
    [None] for [null]. *)
Fixpoint search (lit : string) (group : string -> option string)
         (s : string) : option string :=
  match match_here lit group s with
  | Some g => Some g
  | None =>
      match s with
      | EmptyString => None
      | String _ s' => search lit group s'
      end
  end.

(** [s.replace(/[cls]/g, repl)]: every character of the class is replaced,
    the others are copied. *)
Fixpoint replace_all (cls : ascii -> bool) (repl : string) (s : string) : string :=
  match s with
  | EmptyString => ""
  | String c s' =>
      if cls c then repl ++ replace_all cls repl s'
      else String c (replace_all cls repl s')
  end.

End Regex.

(** ** Paths

    [path.join] of Node on a POSIX host, as its documentation describes it:
    the non-empty arguments are joined by [/] and the result is normalized
    (empty and [.] segments dropped, a [..] segment cancels the segment
    before it, a trailing [/] kept). *)

Module Path.

Definition is_sep (c : ascii) : bool := Ascii.eqb c "/".

(** The segments between the separators. *)
Fixpoint split (s : string) : list string :=
  match s with
  | EmptyString => [""]
  | String c s' =>
      if is_sep c then "" :: split s'
      else match split s' with
           | seg :: rest => String c seg :: rest
           | [] => [String c ""]
           end
  end.

Fixpoint ends_with_sep (s : string) : bool :=
  match s with
  | EmptyString => false
  | String c EmptyString => is_sep c
  | String _ s' => ends_with_sep s'
  end.

(** [normalizeString]: [stack] holds the segments kept so far, the last one
    first. *)
Fixpoint resolve_segments (allowAboveRoot : bool) (stack : list string)
         (segs : list string) : list string :=
  match segs with
  | [] => rev stack
  | seg :: rest =>
      if (seg =? "") || (seg =? ".") then resolve_segments allowAboveRoot stack rest
      else if seg =? ".." then
        match stack with
        | top :: below =>
            if top =? ".."
            then resolve_segments allowAboveRoot
                   (if allowAboveRoot then ".." :: stack else stack) rest
            else resolve_segments allowAboveRoot below rest
        | [] =>
            resolve_segments allowAboveRoot
              (if allowAboveRoot then [".."] else []) rest
        end
      else resolve_segments allowAboveRoot (seg :: stack) rest
  end.

Definition normalize (path : string) : string :=
  if negb (JS.truthy path) then "."
  else
    let isAbsolute := JS.startsWith path "/" in
    let trailingSeparator := ends_with_sep path in
    let p := JS.join "/" (resolve_segments (negb isAbsolute) [] (split path)) in
    if negb (JS.truthy p) then
      if isAbsolute then "/" else if trailingSeparator then "./" else "."
    else
      let p := if trailingSeparator then p ++ "/" else p in
      if isAbsolute then "/" ++ p else p.

Definition join (parts : list string) : string :=
  match filter JS.truthy parts with
  | [] => "."
  | nonempty => normalize (JS.join "/" nonempty)
  end.

(** A segment that normalization keeps as it is: not empty, without a
    separator, and neither [.] nor [..]. *)
Definition plain (seg : string) : bool :=
  JS.truthy seg && negb (JS.includes seg "/")
  && negb (seg =? ".") && negb (seg =? "..").

End Path.

(** ** File system

    A file carries what [fs.statSync] reports and whether [fs.unlinkSync]
    succeeds on it (it throws on a directory and on a file the process may
    not remove).  The association list is kept in the order in which
    [fs.readdirSync] lists the entries. *)

Record file := mkFile { size : Z; mtimeMs : Z; removable : bool }.

Definition FS := list (string * file).

Module Fs.

Fixpoint lookup (p : string) (fs : FS) : option file :=
  match fs with
  | [] => None
  | (q, f) :: rest => if q =? p then Some f else lookup p rest
  end.

Definition remove (p : string) (fs : FS) : FS :=
  filter (fun e => negb (fst e =? p)) fs.

(** The name of [p] when [p] is an entry of the directory [dir]. *)
Definition child_name (dir p : string) : option string :=
  match JS.strip_prefix (dir ++ "/") p with
  | Some name =>
      if JS.truthy name && negb (JS.includes name "/") then Some name else None
  | None => None
  end.

Fixpoint children (dir : string) (fs : FS) : list string :=
  match fs with
  | [] => []
  | (p, _) :: rest =>
      match child_name dir p with
      | Some name => name :: children dir rest
      | None => children dir rest
      end
  end.

End Fs.

(** ** Effects: a state and exception monad over the file system *)

Inductive outcome (A : Type) : Type :=
| Returned (a : A)
| Thrown (message : string).

Arguments Returned {A} a.
Arguments Thrown {A} message.

Definition Eff (A : Type) : Type := FS -> outcome A * FS.

Definition ret {A : Type} (a : A) : Eff A := fun fs => (Returned a, fs).

Definition throw {A : Type} (message : string) : Eff A :=
  fun fs => (Thrown message, fs).

Definition bind {A B : Type} (m : Eff A) (k : A -> Eff B) : Eff B :=
  fun fs =>
    match m fs with
    | (Returned a, fs') => k a fs'
    | (Thrown e, fs') => (Thrown e, fs')
    end.

(** [try { body } catch (e) { handler(e) }]. *)
Definition try_catch {A : Type} (body : Eff A) (handler : string -> Eff A) : Eff A :=
  fun fs =>
    match body fs with
    | (Returned a, fs') => (Returned a, fs')
    | (Thrown e, fs') => handler e fs'
    end.

Notation "x <- m ;; k" := (bind m (fun x => k))
  (at level 61, m at next level, right associativity).
Notation "m ;;; k" := (bind m (fun _ => k))
  (at level 61, right associativity).

(** [list.forEach(f)]. *)
Fixpoint forEach {A : Type} (l : list A) (f : A -> Eff unit) : Eff unit :=
  match l with
  | [] => ret tt
  | x :: rest => f x ;;; forEach rest f
  end.

Definition existsSync (p : string) : Eff bool :=
  fun fs => (Returned (match Fs.lookup p fs with Some _ => true | None => false end), fs).

Definition statSync (p : string) : Eff file :=
  fun fs =>
    match Fs.lookup p fs with
    | Some f => (Returned f, fs)
    | None => (Thrown "ENOENT: no such file or directory", fs)
    end.

Definition unlinkSync (p : string) : Eff unit :=
  fun fs =>
    match Fs.lookup p fs with
    | Some f =>
        if removable f then (Returned tt, Fs.remove p fs)
        else (Thrown "EPERM: operation not permitted", fs)
    | None => (Thrown "ENOENT: no such file or directory", fs)
    end.

Definition readdirSync (dir : string) : Eff (list string) :=
  fun fs => (Returned (Fs.children dir fs), fs).

(** [fs.readdirSync(dir)] where no [existsSync] guards the call: it throws
    when nothing is at [dir].  (The model does not tell a directory from a
    file: what exists is taken to be a directory that can be listed.) *)
Definition readdirSync_unguarded (dir : string) : Eff (list string) :=
  fun fs =>
    match Fs.lookup dir fs with
    | Some _ => (Returned (Fs.children dir fs), fs)
    | None =>
        (Thrown ("ENOENT: no such file or directory, scandir '" ++ dir ++ "'"), fs)
    end.

(** [list.forEach(f)] for a callback that reads the clock: [i] counts the
    entries handled so far. *)
Fixpoint forEach_indexed {A : Type} (i : nat) (l : list A)
         (f : nat -> A -> Eff unit) : Eff unit :=
  match l with
  | [] => ret tt
  | x :: rest => f i x ;;; forEach_indexed (S i) rest f
  end.

(** [list.map(f)] for a callback that may throw: the first error ends the
    loop. *)
Fixpoint map_eff {A B : Type} (f : A -> Eff B) (l : list A) : Eff (list B) :=
  match l with
  | [] => ret []
  | x :: rest => y <- f x ;; ys <- map_eff f rest ;; ret (y :: ys)
  end.

(** ** The external process

    [child_process.exec] takes one command line and runs it through the
    shell; [child_process.execFile] and [spawn] take the program and its
    arguments as separate elements and start no shell.  The tool itself is a
    black box: it may change the file system, and it ends with exit status
    zero ([None]) or with an error (non-zero exit, time out, failure to
    start), whose message it reports. *)

Inductive Invocation : Type :=
| Shell (command : string)
| Argv (program : string) (args : list string).

Definition Process : Type := Invocation -> FS -> option string * FS.

(** [await execPromise(command)]: the promise rejects with the error. *)
Definition execPromise (proc : Process) (command : string) : Eff unit :=
  fun fs =>
    match proc (Shell command) fs with
    | (None, fs') => (Returned tt, fs')
    | (Some message, fs') => (Thrown message, fs')
    end.

(** ** Requests and responses *)

Module Req.

(** The JSON body of POST [/download] when every field it holds is a
    string; [None] is an absent field.  The body with fields of any JSON
    type is [Json.body], further down. *)
Record body : Type := mkBody {
  url : option string;
  search : option string;
  type : option string;
  quality : option string;
  formatId : option string
}.

End Req.

(** A destructuring default: [{ type = "video" }]. *)
Definition default (d : string) (o : option string) : string :=
  match o with
  | Some v => v
  | None => d
  end.

Definition truthy_field (o : option string) : bool :=
  match o with
  | Some v => JS.truthy v
  | None => false
  end.

Definition dquote : string := String (ascii_of_nat 34) "".

(** ** Helpers shared by the full variant and [server.js] *)

Definition watch_prefix : string := "https://www.youtube.com/watch?v=".

(** [normalizeUrl(url)]; [None] is [null]. *)
Definition normalizeUrl (url : string) : option string :=
  if negb (JS.truthy url) then None
  else
    match Regex.search "youtube.com/shorts/" (Regex.exactly Regex.id_char 11) url with
    | Some id => Some (watch_prefix ++ id)
    | None =>
        match Regex.search "youtu.be/" (Regex.exactly Regex.id_char 11) url with
        | Some id => Some (watch_prefix ++ id)
        | None =>
            match Regex.search "youtube.com/watch?v="
                    (Regex.exactly Regex.id_char 11) url with
            | Some _ => Some url
            | None => None
            end
        end
    end.

(** [a || b] on a nullable string and a string: the left operand when it is
    neither [null] nor empty. *)
Definition or_else (a : option string) (b : string) : string :=
  match a with
  | Some s => if JS.truthy s then s else b
  | None => b
  end.

(** The source handed to the tool: [normalizeUrl(url) || url], as every
    caller of [normalizeUrl] in the full variant and in [server.js] writes. *)
Definition normalizedUrl (url : string) : string :=
  or_else (normalizeUrl url) url.

(** [sanitizeShellInput(input)]. *)
Definition sanitizeShellInput (input : string) : string :=
  Regex.replace_all Regex.shell_meta "" input.

(** The [command] of [executeYtDlp(args)]. *)
Definition ytDlpCommand (args : list string) : string :=
  let safeArgs := map (fun arg => dquote ++ sanitizeShellInput arg ++ dquote) args in
  "yt-dlp " ++ JS.join " " safeArgs.

(** What [executeYtDlp(args)] hands to [child_process]. *)
Definition executeYtDlp_invocation (args : list string) : Invocation :=
  Shell (ytDlpCommand args).

Definition executeYtDlp (proc : Process) (args : list string) : Eff unit :=
  try_catch
    (execPromise proc (ytDlpCommand args))
    (fun message => throw ("yt-dlp failed: " ++ message)).

(** The callback of [files.forEach] in [cleanupOldFiles]: an error of
    [statSync] or [unlinkSync] is caught and ignored. *)
Definition cleanup_entry (TEMP_DIR : string) (maxAge now : Z) (file : string)
  : Eff unit :=
  try_catch
    (let filepath := Path.join [TEMP_DIR; file] in
     stats <- statSync filepath ;;
     if (now - mtimeMs stats >? maxAge)%Z
     then unlinkSync filepath
     else ret tt)
    (fun _ => ret tt).

(** [cleanupOldFiles()], with the [maxAge] of the variant and the value of
    [Date.now()]; the count of removed files is only logged and is left
    out. *)
Definition cleanupOldFiles (TEMP_DIR : string) (maxAge now : Z) : Eff unit :=
  try_catch
    (present <- existsSync TEMP_DIR ;;
     if negb present then ret tt
     else
       files <- readdirSync TEMP_DIR ;;
       forEach files (cleanup_entry TEMP_DIR maxAge now))
    (fun _ => ret tt).

(** ** The body as it comes: JSON values

    [express.json()] and [bodyParser.json()] hand the parsed body to the
    handler as it came: a field may hold any JSON value.  The handlers
    [download] of the variants below are written for [Req.body], whose
    fields are strings; [post_download] of each variant is the same handler
    for any body, with the [TypeError] that JavaScript raises where a value
    that is not a string is used as one. *)

Module Json.

(** A JSON value.  Of a number the handlers see whether it is zero and how
    a template literal renders it: a number is kept as these two. *)
#[warnings="-register-all"]
Inductive value : Type :=
| Null
| Bool (b : bool)
| Number (zero : bool) (text : string)
| Str (s : string)
| Array (items : list value)
| Object (members : list (string * value)).

(** The fields that the handlers of POST [/download] read off the body;
    [None] is an absent field, which reads as [undefined].  (A body that is
    an array has none of them.) *)
Record body : Type := mkBody {
  url : option value;
  search : option value;
  type : option value;
  quality : option value;
  formatId : option value
}.

(** The body whose fields are strings, as a body of JSON values. *)
Definition of_strings (b : Req.body) : body :=
  {| url := option_map Str (Req.url b);
     search := option_map Str (Req.search b);
     type := option_map Str (Req.type b);
     quality := option_map Str (Req.quality b);
     formatId := option_map Str (Req.formatId b) |}.

(** A string literal. *)
Definition lit (s : string) : option value := Some (Str s).

(** [!!v]: [undefined], [null], [false], zero and the empty string are
    falsy; every array and every object is truthy. *)
Definition truthy (v : option value) : bool :=
  match v with
  | None => false
  | Some Null => false
  | Some (Bool b) => b
  | Some (Number zero _) => negb zero
  | Some (Str s) => JS.truthy s
  | Some (Array _) => true
  | Some (Object _) => true
  end.

(** The string that [v] is, if it is one. *)
Definition as_string (v : option value) : option string :=
  match v with
  | Some (Str s) => Some s
  | _ => None
  end.

(** [v === literal] for a string literal: only a string is equal to it. *)
Definition equals (v : option value) (literal : string) : bool :=
  match v with
  | Some (Str s) => s =? literal
  | _ => false
  end.

(** A destructuring default [{ v = d }]: it replaces [undefined] only. *)
Definition default (d : string) (v : option value) : option value :=
  match v with
  | None => lit d
  | Some _ => v
  end.

(** [name.method(...)] for a method that only strings have ([match],
    [replace]): the string the method is called on, or the [TypeError] of
    the call.  No JSON value other than a string has a function under
    these names. *)
Definition receiver (name method : string) (v : option value) : Eff string :=
  match v with
  | Some (Str s) => ret s
  | None =>
      throw ("Cannot read properties of undefined (reading '" ++ method ++ "')")
  | Some Null =>
      throw ("Cannot read properties of null (reading '" ++ method ++ "')")
  | Some _ => throw (name ++ "." ++ method ++ " is not a function")
  end.

Definition has_member (key : string) (members : list (string * value)) : bool :=
  existsb (fun member => fst member =? key) members.

(** [String(v)], the rendering of [v] inside a template literal.  An array
    renders its elements joined by commas, [null] as nothing; an object
    renders as [[object Object]], unless it has a member [toString], which
    hides the method of that name and leaves no way to a string. *)
Fixpoint toString (v : value) : outcome string :=
  match v with
  | Null => Returned "null"
  | Bool true => Returned "true"
  | Bool false => Returned "false"
  | Number _ text => Returned text
  | Str s => Returned s
  | Array items =>
      let fix elements (l : list value) : outcome (list string) :=
        match l with
        | [] => Returned []
        | x :: rest =>
            match (match x with
                   | Null => Returned ""
                   | _ => toString x
                   end) with
            | Thrown e => Thrown e
            | Returned part =>
                match elements rest with
                | Thrown e => Thrown e
                | Returned parts => Returned (part :: parts)
                end
            end
        end in
      match elements items with
      | Thrown e => Thrown e
      | Returned parts => Returned (JS.join "," parts)
      end
  | Object members =>
      if has_member "toString" members
      then Thrown "Cannot convert object to primitive value"
      else Returned "[object Object]"
  end.

(** The text of [v] inside a template literal, or the error of rendering
    it. *)
Definition rendering (v : option value) : outcome string :=
  match v with
  | None => Returned "undefined"
  | Some x => toString x
  end.

(** [`${v}`]. *)
Definition interpolate (v : option value) : Eff string :=
  fun fs => (rendering v, fs).

(** A whole number (exact below 2^53). *)
Definition of_Z (n : Z) : value := Number (n =? 0)%Z (JS.of_Z n).

(** [res.status(status).json(members)]. *)
Record reply : Type := mkReply {
  status : Z;
  members : list (string * value)
}.

(** An object literal as [res.json] sends it: a member whose value is
    [undefined] is not sent. *)
Fixpoint object (fields : list (string * option value)) : list (string * value) :=
  match fields with
  | [] => []
  | (key, Some v) :: rest => (key, v) :: object rest
  | (_, None) :: rest => object rest
  end.

(** What is sent for the outcome of a handler on strings. *)
Definition sent {A : Type} (reply_of : A -> reply) (run : outcome A * FS)
  : outcome reply * FS :=
  match run with
  | (Returned r, fs) => (Returned (reply_of r), fs)
  | (Thrown e, fs) => (Thrown e, fs)
  end.

(** [normalizeUrl(url)] of the full variant and of [server.js], for any
    [url]: after the test [!url] the function calls [url.match]. *)
Definition normalizeUrl (url : option value) : Eff (option string) :=
  if negb (truthy url) then ret None
  else s <- receiver "url" "match" url ;; ret (normalizeUrl s).

(** [a || b] with a nullable string on the left. *)
Definition or_else (a : option string) (b : option value) : option value :=
  match a with
  | Some s => if JS.truthy s then lit s else b
  | None => b
  end.

(** The callback of [args.map] in [executeYtDlp]:
    [`"${sanitizeShellInput(arg)}"`], where [sanitizeShellInput] calls
    [input.replace]. *)
Definition safe_arg (arg : option value) : Eff string :=
  input <- receiver "input" "replace" arg ;;
  ret (dquote ++ sanitizeShellInput input ++ dquote).

(** [executeYtDlp(args)] for elements of any type: the elements are
    rendered before the [try], so that an element that is not a string ends
    the call with its [TypeError], without the prefix [yt-dlp failed: ]. *)
Definition executeYtDlp (proc : Process) (args : list (option value)) : Eff unit :=
  safeArgs <- map_eff safe_arg args ;;
  let command := "yt-dlp " ++ JS.join " " safeArgs in
  try_catch
    (execPromise proc command)
    (fun message => throw ("yt-dlp failed: " ++ message)).

End Json.

(** ** The full variant *)

Module Full.

(** [maxAge] of [cleanupOldFiles]: two hours. *)
Definition maxAge : Z := 2 * 60 * 60 * 1000.

(** The fields of the success body; [fileSizeMB], [duration] and [message]
    are renderings of [fileSize] and are left out. *)
Record success : Type := mkSuccess {
  downloadId : string;
  filename : string;
  originalUrl : string;
  type : string;
  quality : string;
  fileSize : Z;
  isTooLarge : bool;
  maxAllowedMB : Z;
  downloadUrl : string;
  directUrl : string
}.

Inductive response : Type :=
| BadRequest (error : string)
| Success (s : success)
| ServerError (error message hint : string).

(** What a retrieval endpoint answers: 404, or the file at [filepath] sent
    under the name [name]. *)
Inductive retrieval : Type :=
| NotFound (error : string)
| Stream (filepath name : string)
| Download (filepath name : string).

Definition whatsappVideoLimit : Z := 64 * 1024 * 1024.
Definition whatsappAudioLimit : Z := 16 * 1024 * 1024.

(** The format part of [args]. *)
Definition format_args (type quality : string) (formatId : option string)
  : list string :=
  if truthy_field formatId then ["-f"; default "" formatId]
  else if type =? "audio"
  then ["-x"; "--audio-format"; "mp3"; "--audio-quality"; "192"]
  else if quality =? "low" then ["-f"; "best[height<=360]"]
  else if quality =? "medium" then ["-f"; "best[height<=720]"]
  else if quality =? "high" then ["-f"; "best[height<=1080]"]
  else if quality =? "best" then ["-f"; "best"]
  else ["-f"; "best[height<=720]"].

(** [`${downloadId}-${Date.now()}.${ext}`] with
    [downloadId = uuidv4().slice(0, 8)]. *)
Definition download_filename (uuid : string) (now : Z) (type : string) : string :=
  let downloadId := JS.slice0 8 uuid in
  let ext := if type =? "audio" then "mp3" else "mp4" in
  downloadId ++ "-" ++ JS.of_Z now ++ "." ++ ext.

(** [formatDuration(seconds)]; [None] is [undefined]. *)
Definition formatDuration (seconds : option string) : string :=
  if negb (truthy_field seconds) then "N/A"
  else
    let secs := JS.parseInt (default "" seconds) in
    let hours := option_map (fun x => x / 3600)%Z secs in
    let minutes := option_map (fun x => Z.rem x 3600 / 60)%Z secs in
    let remainingSeconds := option_map (fun x => Z.rem x 60) secs in
    if match hours with
       | Some h => (h >? 0)%Z
       | None => false
       end
    then JS.number_toString hours ++ ":"
         ++ JS.padStart 2 "0" (JS.number_toString minutes) ++ ":"
         ++ JS.padStart 2 "0" (JS.number_toString remainingSeconds)
    else JS.number_toString minutes ++ ":"
         ++ JS.padStart 2 "0" (JS.number_toString remainingSeconds).

(** [formatNumber(num)]; [toFixed1 n d] stands for [(n / d).toFixed(1)], a
    rendering of a double that is not modelled. *)
Definition formatNumber (toFixed1 : Z -> Z -> string) (num : option string)
  : string :=
  if negb (truthy_field num) then "0"
  else
    match JS.parseInt (default "" num) with
    | Some n =>
        if (n >=? 1000000)%Z then toFixed1 n 1000000%Z ++ "M"
        else if (n >=? 1000)%Z then toFixed1 n 1000%Z ++ "K"
        else JS.of_Z n
    | None => "NaN"
    end.

(** One result of [searchYoutube]. *)
Record search_result : Type := mkResult {
  id : option string;
  title : option string;
  url : string;
  duration : string;
  views : string;
  uploader : option string;
  thumbnail : string;
  shortUrl : string;
  shortsUrl : string
}.

(** A value inside a template literal: [undefined] is spelled out. *)
Definition interpolate (v : option string) : string := default "undefined" v.

(** The object that the callback of [lines.map] in [searchYoutube] builds
    from [fields], the trimmed parts of one line; a part that is missing is
    [undefined]. *)
Definition result_of_fields (toFixed1 : Z -> Z -> string) (fields : list string)
  : search_result :=
  let title := nth_error fields 0 in
  let id := nth_error fields 1 in
  let duration := nth_error fields 2 in
  let views := nth_error fields 3 in
  let uploader := nth_error fields 4 in
  let thumbnail := nth_error fields 5 in
  {| id := id;
     title := title;
     url := "https://www.youtube.com/watch?v=" ++ interpolate id;
     duration := formatDuration duration;
     views := formatNumber toFixed1 views;
     uploader := uploader;
     thumbnail :=
       or_else thumbnail
         ("https://img.youtube.com/vi/" ++ interpolate id ++ "/hqdefault.jpg");
     shortUrl := "https://youtu.be/" ++ interpolate id;
     shortsUrl := "https://youtube.com/shorts/" ++ interpolate id |}.

(** The body of GET [/health]; the [timestamp] is left out. *)
Record health_body : Type := mkHealth {
  status : string;
  tempDir : bool;
  tempFiles : nat
}.

(** The body of GET [/cleanup]; the constant [success] is left out. *)
Record cleanup_body : Type := mkCleanup {
  filesRemaining : nat;
  files : list string
}.

Section Handlers.

Variable TEMP_DIR : string.
Variable proc : Process.

(** GET [/health] (the same in [server.js]). *)
Definition health : Eff health_body :=
  present <- existsSync TEMP_DIR ;;
  listing <- readdirSync_unguarded TEMP_DIR ;;
  ret {| status := "ok"; tempDir := present; tempFiles := List.length listing |}.

(** GET [/cleanup]; [now] is the value of [Date.now()] in the sweep. *)
Definition cleanup (now : Z) : Eff cleanup_body :=
  cleanupOldFiles TEMP_DIR maxAge now ;;;
  listing <- readdirSync_unguarded TEMP_DIR ;;
  ret {| filesRemaining := List.length listing; files := firstn 10 listing |}.

(** The [args] array of POST [/download]. *)
Definition download_args (b : Req.body) (uuid : string) (now : Z) : list string :=
  let url := default "" (Req.url b) in
  let type := default "video" (Req.type b) in
  let quality := default "medium" (Req.quality b) in
  let filepath := Path.join [TEMP_DIR; download_filename uuid now type] in
  [normalizedUrl url; "--no-playlist"; "--geo-bypass"; "--no-warnings";
   "--quiet"; "--force-ipv4"; "--concurrent-fragments"; "5"; "-o"; filepath]
  ++ format_args type quality (Req.formatId b).

(** POST [/download]; [uuid] is the value of [uuidv4()], [now] of
    [Date.now()], [origin] of [`${req.protocol}://${req.get('host')}`]. *)
Definition download (b : Req.body) (uuid : string) (now : Z) (origin : string)
  : Eff response :=
  let url := default "" (Req.url b) in
  let type := default "video" (Req.type b) in
  let quality := default "medium" (Req.quality b) in
  if negb (truthy_field (Req.url b)) then ret (BadRequest "URL is required")
  else
    let downloadId := JS.slice0 8 uuid in
    let filename := download_filename uuid now type in
    let filepath := Path.join [TEMP_DIR; filename] in
    try_catch
      (executeYtDlp proc (download_args b uuid now) ;;;
       present <- existsSync filepath ;;
       if negb present then throw "File not created"
       else
         stats <- statSync filepath ;;
         let tooLarge :=
           if type =? "video" then (size stats >? whatsappVideoLimit)%Z
           else (size stats >? whatsappAudioLimit)%Z in
         ret (Success {|
           downloadId := downloadId;
           filename := filename;
           originalUrl := url;
           type := type;
           quality := quality;
           fileSize := size stats;
           isTooLarge := tooLarge;
           maxAllowedMB := if type =? "video" then 64 else 16;
           downloadUrl := origin ++ "/stream/" ++ filename;
           directUrl := origin ++ "/file/" ++ filename |}))
      (fun message =>
         try_catch
           (present <- existsSync filepath ;;
            if present then unlinkSync filepath else ret tt)
           (fun _ => ret tt) ;;;
         ret (ServerError "Download failed" message
                "Try again with different quality or check the URL")).

(** The [args] array of POST [/download] for a body of any JSON values. *)
Definition post_download_args (normalizedUrl : option Json.value) (filepath : string)
           (type quality formatId : option Json.value) : list (option Json.value) :=
  [normalizedUrl; Json.lit "--no-playlist"; Json.lit "--geo-bypass";
   Json.lit "--no-warnings"; Json.lit "--quiet"; Json.lit "--force-ipv4";
   Json.lit "--concurrent-fragments"; Json.lit "5"; Json.lit "-o"; Json.lit filepath]
  ++ (if Json.truthy formatId then [Json.lit "-f"; formatId]
      else if Json.equals type "audio"
      then [Json.lit "-x"; Json.lit "--audio-format"; Json.lit "mp3";
            Json.lit "--audio-quality"; Json.lit "192"]
      else if Json.equals quality "low" then [Json.lit "-f"; Json.lit "best[height<=360]"]
      else if Json.equals quality "medium"
      then [Json.lit "-f"; Json.lit "best[height<=720]"]
      else if Json.equals quality "high"
      then [Json.lit "-f"; Json.lit "best[height<=1080]"]
      else if Json.equals quality "best" then [Json.lit "-f"; Json.lit "best"]
      else [Json.lit "-f"; Json.lit "best[height<=720]"]).

(** [`${downloadId}-${Date.now()}.${ext}`] for a [type] of any JSON value. *)
Definition post_download_filename (uuid : string) (now : Z) (type : option Json.value)
  : string :=
  let downloadId := JS.slice0 8 uuid in
  let ext := if Json.equals type "audio" then "mp3" else "mp4" in
  downloadId ++ "-" ++ JS.of_Z now ++ "." ++ ext.

(** The answer of the [catch] branch. *)
Definition failure (message : string) : Json.reply :=
  Json.mkReply 500
    [("error", Json.Str "Download failed");
     ("message", Json.Str message);
     ("hint", Json.Str "Try again with different quality or check the URL")].

(** The file system once the file at [filepath] is removed, if one is there
    and can be removed. *)
Definition cleaned (filepath : string) (fs : FS) : FS :=
  match Fs.lookup filepath fs with
  | Some f => if removable f then Fs.remove filepath fs else fs
  | None => fs
  end.

(** POST [/download] for a body of any JSON values.  [normalizeUrl(url)]
    stands before the [try]: what it throws is not caught.  Inside the
    [try], the line written to the log renders [normalizedUrl] and [type]
    before the tool is called.  Of the success body, [fileSizeMB],
    [duration] and [message], renderings of the size, are left out. *)
Definition post_download (j : Json.body) (uuid : string) (now : Z) (origin : string)
  : Eff Json.reply :=
  let url := Json.url j in
  let type := Json.default "video" (Json.type j) in
  let quality := Json.default "medium" (Json.quality j) in
  let formatId := Json.formatId j in
  if negb (Json.truthy url)
  then ret (Json.mkReply 400 [("error", Json.Str "URL is required")])
  else
    matched <- Json.normalizeUrl url ;;
    let normalizedUrl := Json.or_else matched url in
    let downloadId := JS.slice0 8 uuid in
    let filename := post_download_filename uuid now type in
    let filepath := Path.join [TEMP_DIR; filename] in
    try_catch
      (let args := post_download_args normalizedUrl filepath type quality formatId in
       Json.interpolate normalizedUrl ;;;
       Json.interpolate type ;;;
       Json.executeYtDlp proc args ;;;
       present <- existsSync filepath ;;
       if negb present then throw "File not created"
       else
         stats <- statSync filepath ;;
         let tooLarge :=
           if Json.equals type "video" then (size stats >? whatsappVideoLimit)%Z
           else (size stats >? whatsappAudioLimit)%Z in
         ret (Json.mkReply 200 (Json.object
           [("success", Some (Json.Bool true));
            ("downloadId", Json.lit downloadId);
            ("filename", Json.lit filename);
            ("originalUrl", url);
            ("type", type);
            ("quality", quality);
            ("fileSize", Some (Json.of_Z (size stats)));
            ("isTooLarge", Some (Json.Bool tooLarge));
            ("maxAllowedMB",
             Some (Json.of_Z (if Json.equals type "video" then 64 else 16)));
            ("downloadUrl", Json.lit (origin ++ "/stream/" ++ filename));
            ("directUrl", Json.lit (origin ++ "/file/" ++ filename));
            ("expiresIn", Json.lit "2 hours")])))
      (fun message =>
         try_catch
           (present <- existsSync filepath ;;
            if present then unlinkSync filepath else ret tt)
           (fun _ => ret tt) ;;;
         ret (failure message)).

(** The answer of [download], as it is sent. *)
Definition reply_of (r : response) : Json.reply :=
  match r with
  | BadRequest error => Json.mkReply 400 [("error", Json.Str error)]
  | Success s =>
      Json.mkReply 200
        [("success", Json.Bool true);
         ("downloadId", Json.Str (downloadId s));
         ("filename", Json.Str (filename s));
         ("originalUrl", Json.Str (originalUrl s));
         ("type", Json.Str (type s));
         ("quality", Json.Str (quality s));
         ("fileSize", Json.of_Z (fileSize s));
         ("isTooLarge", Json.Bool (isTooLarge s));
         ("maxAllowedMB", Json.of_Z (maxAllowedMB s));
         ("downloadUrl", Json.Str (downloadUrl s));
         ("directUrl", Json.Str (directUrl s));
         ("expiresIn", Json.Str "2 hours")]
  | ServerError error message hint =>
      Json.mkReply 500
        [("error", Json.Str error); ("message", Json.Str message);
         ("hint", Json.Str hint)]
  end.

(** GET [/stream/:filename]; [param] is [req.params.filename], the decoded
    route parameter, which may hold [/] and [..]; the [Content-Type] header
    is left out. *)
Definition stream (param : string) : Eff retrieval :=
  let filename := param in
  let filepath := Path.join [TEMP_DIR; filename] in
  present <- existsSync filepath ;;
  if negb present then ret (NotFound "File not found")
  else ret (Stream filepath filename).

(** GET [/file/:filename]. *)
Definition file (param : string) : Eff retrieval :=
  let filename := param in
  let filepath := Path.join [TEMP_DIR; filename] in
  present <- existsSync filepath ;;
  if negb present then ret (NotFound "File not found")
  else ret (Download filepath filename).

End Handlers.

End Full.

(** ** The simplified variant, [server.js] *)

Module Simple.

(** [maxAge] of [cleanupOldFiles]: thirty minutes. *)
Definition maxAge : Z := 30 * 60 * 1000.

(** The fields of the success body; [fileSizeMB] and [message] are
    renderings of the size, carried here as [fileSize]. *)
Record success : Type := mkSuccess {
  filename : string;
  fileSize : Z;
  type : string;
  download_url : string
}.

Inductive response : Type :=
| BadRequest (error : string)
| Success (s : success)
| ServerError (error message : string).

Definition download_filename (uuid type : string) : string :=
  uuid ++ "." ++ (if type =? "audio" then "mp3" else "mp4").

(** The [cmd] of POST [/download]. *)
Definition download_cmd (type filepath normalizedUrl : string) : string :=
  if type =? "audio"
  then "yt-dlp -x --audio-format mp3 --audio-quality 192k -o "
       ++ dquote ++ filepath ++ dquote ++ " " ++ dquote ++ normalizedUrl ++ dquote
  else "yt-dlp -f " ++ dquote ++ "best[height<=720]" ++ dquote ++ " -o "
       ++ dquote ++ filepath ++ dquote ++ " " ++ dquote ++ normalizedUrl ++ dquote.

Section Handlers.

Variable TEMP_DIR : string.
Variable proc : Process.

(** POST [/download]; the 3 minute time out of [execPromise] is one of the
    errors of [proc]. *)
Definition download (b : Req.body) (uuid : string) (origin : string)
  : Eff response :=
  let url := default "" (Req.url b) in
  let type := default "video" (Req.type b) in
  if negb (truthy_field (Req.url b)) then ret (BadRequest "URL is required")
  else
    try_catch
      (let filename := download_filename uuid type in
       let filepath := Path.join [TEMP_DIR; filename] in
       execPromise proc (download_cmd type filepath (normalizedUrl url)) ;;;
       present <- existsSync filepath ;;
       if negb present then throw "File not created"
       else
         stats <- statSync filepath ;;
         ret (Success {|
           filename := filename;
           fileSize := size stats;
           type := type;
           download_url := origin ++ "/downloads/" ++ filename |}))
      (fun message => ret (ServerError "Download failed" message)).

(** The [cmd] of POST [/download] for a [type] of any JSON value. *)
Definition post_download_cmd (type : option Json.value) (filepath normalizedUrl : string)
  : string :=
  if Json.equals type "audio"
  then "yt-dlp -x --audio-format mp3 --audio-quality 192k -o "
       ++ dquote ++ filepath ++ dquote ++ " " ++ dquote ++ normalizedUrl ++ dquote
  else "yt-dlp -f " ++ dquote ++ "best[height<=720]" ++ dquote ++ " -o "
       ++ dquote ++ filepath ++ dquote ++ " " ++ dquote ++ normalizedUrl ++ dquote.

(** The answer of the [catch] branch. *)
Definition failure (message : string) : Json.reply :=
  Json.mkReply 500
    [("error", Json.Str "Download failed"); ("message", Json.Str message)].

(** POST [/download] for a body of any JSON values.  Here
    [normalizeUrl(url)] stands inside the [try].  Of the success body,
    [fileSizeMB] and [message], renderings of the size, are left out. *)
Definition post_download (j : Json.body) (uuid : string) (origin : string)
  : Eff Json.reply :=
  let url := Json.url j in
  let type := Json.default "video" (Json.type j) in
  if negb (Json.truthy url)
  then ret (Json.mkReply 400 [("error", Json.Str "URL is required")])
  else
    try_catch
      (matched <- Json.normalizeUrl url ;;
       let normalizedUrl := Json.or_else matched url in
       let filename := uuid ++ "." ++ (if Json.equals type "audio" then "mp3" else "mp4") in
       let filepath := Path.join [TEMP_DIR; filename] in
       target <- Json.interpolate normalizedUrl ;;
       execPromise proc (post_download_cmd type filepath target) ;;;
       present <- existsSync filepath ;;
       if negb present then throw "File not created"
       else
         stats <- statSync filepath ;;
         ret (Json.mkReply 200 (Json.object
           [("success", Some (Json.Bool true));
            ("filename", Json.lit filename);
            ("type", type);
            ("download_url", Json.lit (origin ++ "/downloads/" ++ filename))])))
      (fun message => ret (failure message)).

(** The answer of [download], as it is sent. *)
Definition reply_of (r : response) : Json.reply :=
  match r with
  | BadRequest error => Json.mkReply 400 [("error", Json.Str error)]
  | Success s =>
      Json.mkReply 200
        [("success", Json.Bool true);
         ("filename", Json.Str (filename s));
         ("type", Json.Str (type s));
         ("download_url", Json.Str (download_url s))]
  | ServerError error message =>
      Json.mkReply 500 [("error", Json.Str error); ("message", Json.Str message)]
  end.

End Handlers.

End Simple.

(** ** The minimal variant *)

Module Minimal.

Inductive response : Type :=
| BadRequest (error : string)
| Ok (downloadUrl type : string)
| ServerError (error details hint : string).

Inductive retrieval : Type :=
| NotFound
| Download (filePath : string).

(** [normalizeUrl(url)] of this variant: only the shorts form is rewritten,
    and the capture group is [[a-zA-Z0-9_-]+]. *)
Definition normalizeUrl (url : option string) : option string :=
  if negb (truthy_field url) then None
  else
    let url := default "" url in
    match Regex.search "youtube.com/shorts/" (Regex.at_least_one Regex.id_char) url with
    | Some id => Some (watch_prefix ++ id)
    | None => Some url
    end.

Definition baseArgs : string :=
  JS.join " " [
    "--force-ipv4";
    "--user-agent " ++ dquote
      ++ "Mozilla/5.0 (Macintosh; Intel Mac OS X 10_15_7) Safari/605.1.15" ++ dquote;
    "--extractor-args " ++ dquote ++ "youtube:player_client=web_safari" ++ dquote;
    "--geo-bypass";
    "--no-playlist";
    "--hls-prefer-native";
    "--concurrent-fragments 8";
    "--no-progress"
  ].

(** [`yt-${Date.now()}`]. *)
Definition job_id (now : Z) : string := "yt-" ++ JS.of_Z now.

(** The [input] of POST [/download]. *)
Definition download_input (b : Req.body) : option string :=
  if truthy_field (Req.search b)
  then Some ("ytsearch1:" ++ default "" (Req.search b))
  else normalizeUrl (Req.url b).

Section Handlers.

Variable TEMP_DIR : string.
Variable proc : Process.

(** The [output] template of a job. *)
Definition job_output (now : Z) : string :=
  Path.join [TEMP_DIR; job_id now ++ ".%(ext)s"].

(** The [cmd] of POST [/download]. *)
Definition download_cmd (type input : string) (now : Z) : string :=
  let format :=
    if type =? "audio"
    then dquote ++ "bv*[protocol=m3u8]/ba*[protocol=m3u8]/best" ++ dquote
    else dquote ++ "bv*[protocol=m3u8]/best" ++ dquote in
  let post := if type =? "audio" then "-x --audio-format mp3" else "" in
  "yt-dlp " ++ baseArgs ++ " -f " ++ format ++ " " ++ post ++ " -o "
  ++ dquote ++ job_output now ++ dquote ++ " " ++ dquote ++ input ++ dquote.

(** The files of the job: the directory listing filtered by
    [f.startsWith(id)].  No [existsSync] guards the listing: it throws when
    the directory is missing. *)
Definition job_files (id : string) : Eff (list string) :=
  listing <- readdirSync_unguarded TEMP_DIR ;;
  ret (filter (fun f => JS.startsWith f id) listing).

(** POST [/download]. *)
Definition download (b : Req.body) (now : Z) : Eff response :=
  let type := default "video" (Req.type b) in
  match download_input b with
  | None => ret (BadRequest "No URL or search provided")
  | Some input =>
      if negb (JS.truthy input) then ret (BadRequest "No URL or search provided")
      else
        let id := job_id now in
        try_catch
          (execPromise proc (download_cmd type input now) ;;;
           files <- job_files id ;;
           match files with
           | [] => throw "No output file"
           | first :: _ => ret (Ok ("/file/" ++ first) type)
           end)
          (fun message =>
             ret (ServerError "Failed to download" message
                    "Local IPs are throttled. Railway/VPS works best."))
  end.

(** The [input] of POST [/download] for a body of any JSON values: the
    search term is rendered by a template literal, and [normalizeUrl(url)]
    calls [url.match] after its test [!url]. *)
Definition post_download_input (j : Json.body) : Eff (option string) :=
  if Json.truthy (Json.search j)
  then
    text <- Json.interpolate (Json.search j) ;;
    ret (Some ("ytsearch1:" ++ text))
  else
    if negb (Json.truthy (Json.url j)) then ret None
    else
      url <- Json.receiver "url" "match" (Json.url j) ;;
      ret (normalizeUrl (Some url)).

(** The [cmd] of POST [/download] for a [type] of any JSON value. *)
Definition post_download_cmd (type : option Json.value) (input : string) (now : Z)
  : string :=
  let format :=
    if Json.equals type "audio"
    then dquote ++ "bv*[protocol=m3u8]/ba*[protocol=m3u8]/best" ++ dquote
    else dquote ++ "bv*[protocol=m3u8]/best" ++ dquote in
  let post := if Json.equals type "audio" then "-x --audio-format mp3" else "" in
  "yt-dlp " ++ baseArgs ++ " -f " ++ format ++ " " ++ post ++ " -o "
  ++ dquote ++ job_output now ++ dquote ++ " " ++ dquote ++ input ++ dquote.

(** The answer of the [catch] branch; [details] is [e.stderr || e.message],
    which for the tool is the message that [proc] reports. *)
Definition failure (details : string) : Json.reply :=
  Json.mkReply 500
    [("error", Json.Str "Failed to download");
     ("details", Json.Str details);
     ("hint", Json.Str "Local IPs are throttled. Railway/VPS works best.")].

(** POST [/download] for a body of any JSON values.  The [input] is
    computed before the [try]: what that throws is not caught. *)
Definition post_download (j : Json.body) (now : Z) : Eff Json.reply :=
  let type := Json.default "video" (Json.type j) in
  input <- post_download_input j ;;
  if negb (truthy_field input)
  then ret (Json.mkReply 400 [("error", Json.Str "No URL or search provided")])
  else
    let id := job_id now in
    let cmd := post_download_cmd type (default "" input) now in
    try_catch
      (execPromise proc cmd ;;;
       files <- job_files id ;;
       match files with
       | [] => throw "No output file"
       | first :: _ =>
           ret (Json.mkReply 200 (Json.object
             [("downloadUrl", Json.lit ("/file/" ++ first)); ("type", type)]))
       end)
      (fun message => ret (failure message)).

(** The answer of [download], as it is sent. *)
Definition reply_of (r : response) : Json.reply :=
  match r with
  | BadRequest error => Json.mkReply 400 [("error", Json.Str error)]
  | Ok downloadUrl type =>
      Json.mkReply 200 [("downloadUrl", Json.Str downloadUrl); ("type", Json.Str type)]
  | ServerError error details hint =>
      Json.mkReply 500
        [("error", Json.Str error); ("details", Json.Str details);
         ("hint", Json.Str hint)]
  end.

(** GET [/file/:name]. *)
Definition file (param : string) : Eff retrieval :=
  let filePath := Path.join [TEMP_DIR; param] in
  present <- existsSync filePath ;;
  if negb present then ret NotFound else ret (Download filePath).

End Handlers.

End Minimal.

(** ** The variant on the [yt-dlp-exec] library

    The call [ytld(args, { stdio: 'ignore' })] goes through a library that
    is not part of the repository: [ytld] is a parameter, the outcome of the
    promise for the argument vector it is given. *)

Module Ytdl.

Inductive response : Type :=
| BadRequest (error : string)
| Ok (download_url message : string) (type : option string)
| ServerError (error details : string).

(** [convertShorts(url)]. *)
Definition convertShorts (url : string) : string :=
  match Regex.search "youtube.com/shorts/" (Regex.at_least_one Regex.id_char) url with
  | Some id => watch_prefix ++ id
  | None => url
  end.

Definition is_audio (type : option string) : bool :=
  match type with
  | Some t => t =? "audio"
  | None => false
  end.

Definition download_filename (id : string) (type : option string) : string :=
  if is_audio type then id ++ ".mp3" else id ++ ".mp4".

Section Handlers.

Variable DOWNLOAD_DIR : string.
Variable ytld : list string -> FS -> option string * FS.

(** The [args] array of POST [/download]. *)
Definition download_args (url : string) (id : string) (type : option string)
  : list string :=
  [convertShorts url; "--force-ipv4"; "--geo-bypass"; "--no-playlist";
   "--hls-prefer-native"; "--concurrent-fragments"; "5"; "--no-progress";
   "-o"; Path.join [DOWNLOAD_DIR; download_filename id type]]
  ++ (if is_audio type then ["-x"; "--audio-format"; "mp3"] else []).

(** POST [/download]; [uuid] is the value of [uuidv4()]. *)
Definition download (b : Req.body) (uuid origin : string) : Eff response :=
  try_catch
    (if negb (truthy_field (Req.url b)) then ret (BadRequest "URL required")
     else
       let url := default "" (Req.url b) in
       let type := Req.type b in
       let filename := download_filename uuid type in
       (fun fs =>
          match ytld (download_args url uuid type) fs with
          | (None, fs') => (Returned tt, fs')
          | (Some message, fs') => (Thrown message, fs')
          end) ;;;
       ret (Ok (origin ++ "/downloads/" ++ filename) "Downloaded successfully!" type))
    (fun message => ret (ServerError "Failed to download" message)).

(** The answer of the [catch] branch. *)
Definition failure (details : string) : Json.reply :=
  Json.mkReply 500
    [("error", Json.Str "Failed to download"); ("details", Json.Str details)].

(** POST [/download] for a body of any JSON values; the whole handler is
    inside the [try], the call [url.match] of [convertShorts(url)]
    included. *)
Definition post_download (j : Json.body) (uuid origin : string) : Eff Json.reply :=
  try_catch
    (let url := Json.url j in
     let type := Json.type j in
     if negb (Json.truthy url)
     then ret (Json.mkReply 400 [("error", Json.Str "URL required")])
     else
       link <- Json.receiver "url" "match" url ;;
       let url := convertShorts link in
       let id := uuid in
       let filename := if Json.equals type "audio" then id ++ ".mp3" else id ++ ".mp4" in
       let filepath := Path.join [DOWNLOAD_DIR; filename] in
       let args :=
         ([url; "--force-ipv4"; "--geo-bypass"; "--no-playlist";
           "--hls-prefer-native"; "--concurrent-fragments"; "5"; "--no-progress";
           "-o"; filepath]
          ++ (if Json.equals type "audio" then ["-x"; "--audio-format"; "mp3"] else []))%list
       in
       (fun fs =>
          match ytld args fs with
          | (None, fs') => (Returned tt, fs')
          | (Some message, fs') => (Thrown message, fs')
          end) ;;;
       ret (Json.mkReply 200 (Json.object
         [("download_url", Json.lit (origin ++ "/downloads/" ++ filename));
          ("message", Json.lit "Downloaded successfully!");
          ("type", type)])))
    (fun message => ret (failure message)).

(** The answer of [download], as it is sent. *)
Definition reply_of (r : response) : Json.reply :=
  match r with
  | BadRequest error => Json.mkReply 400 [("error", Json.Str error)]
  | Ok download_url message type =>
      Json.mkReply 200
        (Json.object
           [("download_url", Json.lit download_url);
            ("message", Json.lit message);
            ("type", option_map Json.Str type)])
  | ServerError error details =>
      Json.mkReply 500 [("error", Json.Str error); ("details", Json.Str details)]
  end.

(** The callback of [files.forEach] in the hourly sweep.  Nothing is
    caught; [clock i] is the value of [Date.now()] read for the [i]-th
    entry. *)
Definition sweep_entry (clock : nat -> Z) (i : nat) (file : string) : Eff unit :=
  let filePath := Path.join [DOWNLOAD_DIR; file] in
  stats <- statSync filePath ;;
  let now := clock i in
  if (now - mtimeMs stats >? 2 * 60 * 60 * 1000)%Z
  then unlinkSync filePath
  else ret tt.

(** The callback of [setInterval]: the hourly sweep. *)
Definition sweep (clock : nat -> Z) : Eff unit :=
  files <- readdirSync_unguarded DOWNLOAD_DIR ;;
  forEach_indexed 0 files (sweep_entry clock).

End Handlers.

End Ytdl.

(** * Properties *)

(** ** Strings and patterns *)

Section StringFacts.

Lemma chars_cons (c : ascii) (s : string) :
  JS.chars (String c s) = c :: JS.chars s.
Proof. reflexivity. Qed.

Lemma chars_app (s t : string) :
  JS.chars (s ++ t) = (JS.chars s ++ JS.chars t)%list.
Proof.
  induction s as [| c s IH]; [reflexivity |].
  cbn [append]. rewrite !chars_cons, IH. reflexivity.
Qed.

Lemma strip_prefix_app (p s r : string) :
  JS.strip_prefix p s = Some r -> s = p ++ r.
Proof.
  revert s. induction p as [| a p IH]; intros s H.
  - cbn in H. now inversion H.
  - destruct s as [| b s]; cbn in H; [discriminate |].
    destruct (Ascii.eqb a b) eqn:E; [| discriminate].
    apply Ascii.eqb_eq in E. subst b. cbn. f_equal. now apply IH.
Qed.

Lemma strip_prefix_self (p r : string) :
  JS.strip_prefix p (p ++ r) = Some r.
Proof.
  induction p as [| a p IH]; [reflexivity |].
  cbn. now rewrite Ascii.eqb_refl.
Qed.

Lemma exactly_sound (cls : ascii -> bool) (n : nat) :
  forall s g, Regex.exactly cls n s = Some g ->
    String.length g = n /\ Forall (fun c => cls c = true) (JS.chars g).
Proof.
  induction n as [| n IH]; intros s g H.
  - cbn in H. inversion H. split; [reflexivity | constructor].
  - destruct s as [| c s]; cbn in H; [discriminate |].
    destruct (cls c) eqn:Ec; [| discriminate].
    destruct (Regex.exactly cls n s) as [g' |] eqn:Eg; [| discriminate].
    inversion H; subst g. destruct (IH _ _ Eg) as [Hlen Hall].
    split; [cbn; now f_equal |].
    rewrite chars_cons. now constructor.
Qed.

Lemma exactly_self (cls : ascii -> bool) (g : string) :
  Forall (fun c => cls c = true) (JS.chars g) ->
  Regex.exactly cls (String.length g) g = Some g.
Proof.
  induction g as [| c g IH]; intros H; [reflexivity |].
  rewrite chars_cons in H. inversion H as [| ? ? Hc Hg]; subst.
  cbn. rewrite Hc, (IH Hg). reflexivity.
Qed.

Lemma search_sound (lit : string) (cls : ascii -> bool) (n : nat) :
  forall s g, Regex.search lit (Regex.exactly cls n) s = Some g ->
    String.length g = n /\ Forall (fun c => cls c = true) (JS.chars g).
Proof.
  induction s as [| c s IH]; intros g H; cbn in H.
  - unfold Regex.match_here in H.
    destruct (JS.strip_prefix lit "") as [rest |]; [| discriminate].
    destruct (Regex.exactly cls n rest) eqn:E; [| discriminate].
    inversion H; subst. eapply exactly_sound; eassumption.
  - unfold Regex.match_here in H.
    destruct (JS.strip_prefix lit (String c s)) as [rest |].
    + destruct (Regex.exactly cls n rest) eqn:E.
      * inversion H; subst. eapply exactly_sound; eassumption.
      * now apply IH.
    + now apply IH.
Qed.

(** A literal holding a character outside the class matches nowhere in a
    string of the class. *)
Lemma search_outside_class (lit : string) (group : string -> option string)
      (cls : ascii -> bool) (c : ascii) :
  In c (JS.chars lit) -> cls c = false ->
  forall s, Forall (fun a => cls a = true) (JS.chars s) ->
    Regex.search lit group s = None.
Proof.
  intros Hin Hc.
  assert (Hno : forall s, Forall (fun a => cls a = true) (JS.chars s) ->
                          Regex.match_here lit group s = None).
  { intros s Hs. unfold Regex.match_here.
    destruct (JS.strip_prefix lit s) as [rest |] eqn:E; [| reflexivity].
    apply strip_prefix_app in E. subst s. rewrite chars_app in Hs.
    apply Forall_app in Hs. destruct Hs as [Hlit _].
    rewrite Forall_forall in Hlit. specialize (Hlit _ Hin). congruence. }
  induction s as [| a s IH]; intros Hs; cbn.
  - now rewrite (Hno "" Hs).
  - rewrite (Hno _ Hs). rewrite chars_cons in Hs. inversion Hs; subst. now apply IH.
Qed.

End StringFacts.

(** ** Source normalizer *)

Section Normalizer.

Lemma id_char_dot : Regex.id_char "." = false.
Proof. reflexivity. Qed.

(** The canonical watch link of an 11 character identifier is recognised by
    the third pattern only, and returned as it is. *)
Lemma normalizeUrl_canonical (id : string) :
  String.length id = 11 ->
  Forall (fun c => Regex.id_char c = true) (JS.chars id) ->
  normalizeUrl (watch_prefix ++ id) = Some (watch_prefix ++ id).
Proof.
  intros Hlen Hid.
  assert (H1 : Regex.search "youtube.com/shorts/"
                 (Regex.exactly Regex.id_char 11) (watch_prefix ++ id) = None).
  { unfold watch_prefix. cbn.
    apply (search_outside_class _ _ Regex.id_char "."); auto.
    cbn. tauto. }
  assert (H2 : Regex.search "youtu.be/"
                 (Regex.exactly Regex.id_char 11) (watch_prefix ++ id) = None).
  { unfold watch_prefix. cbn.
    apply (search_outside_class _ _ Regex.id_char "."); auto.
    cbn. tauto. }
  assert (H3 : Regex.exactly Regex.id_char 11 id = Some id).
  { rewrite <- Hlen. now apply exactly_self. }
  unfold normalizeUrl. rewrite H1, H2. clear H1 H2.
  remember (Regex.exactly Regex.id_char 11) as group eqn:Hgroup.
  unfold watch_prefix. cbn. rewrite H3. reflexivity.
Qed.

Lemma normalizeUrl_truthy (x y : string) :
  normalizeUrl x = Some y -> JS.truthy y = true.
Proof.
  unfold normalizeUrl. intros H.
  destruct (JS.truthy x) eqn:Hx; cbn [negb] in H; [| discriminate].
  destruct (Regex.search "youtube.com/shorts/" _ x);
    [injection H as <-; reflexivity |].
  destruct (Regex.search "youtu.be/" _ x);
    [injection H as <-; reflexivity |].
  destruct (Regex.search "youtube.com/watch?v=" _ x); [| discriminate].
  injection H as <-. exact Hx.
Qed.

Lemma normalizeUrl_fixed (x y : string) :
  normalizeUrl x = Some y -> normalizeUrl y = Some y.
Proof.
  intros H. pose proof H as H0. unfold normalizeUrl in H.
  destruct (JS.truthy x) eqn:Hx; cbn [negb] in H; [| discriminate].
  destruct (Regex.search "youtube.com/shorts/" _ x) as [id |] eqn:E1.
  { inversion H; subst y. apply search_sound in E1. destruct E1.
    now apply normalizeUrl_canonical. }
  destruct (Regex.search "youtu.be/" _ x) as [id |] eqn:E2.
  { inversion H; subst y. apply search_sound in E2. destruct E2.
    now apply normalizeUrl_canonical. }
  destruct (Regex.search "youtube.com/watch?v=" _ x) eqn:E3; [| discriminate].
  inversion H; subst y. exact H0.
Qed.

(** C8: a string that none of the three patterns matches is not rewritten:
    [normalizeUrl] answers [null] and [normalizeUrl(url) || url], the source
    every handler goes on with, is the input itself. *)
Theorem normalizer_passes_unrecognized_through (url : string) :
  Regex.search "youtube.com/shorts/" (Regex.exactly Regex.id_char 11) url = None ->
  Regex.search "youtu.be/" (Regex.exactly Regex.id_char 11) url = None ->
  Regex.search "youtube.com/watch?v=" (Regex.exactly Regex.id_char 11) url = None ->
  normalizeUrl url = None /\ normalizedUrl url = url.
Proof.
  intros H1 H2 H3.
  assert (Hn : normalizeUrl url = None).
  { unfold normalizeUrl. rewrite H1, H2, H3. now destruct (negb (JS.truthy url)). }
  split; [exact Hn |]. unfold normalizedUrl. now rewrite Hn.
Qed.

Lemma normalizer_passes_unrecognized_through_witness :
  normalizeUrl "https://vimeo.com/76979871" = None
  /\ normalizedUrl "https://vimeo.com/76979871" = "https://vimeo.com/76979871".
Proof.
  apply (normalizer_passes_unrecognized_through "https://vimeo.com/76979871");
    reflexivity.
Defined.

(** C9: on a recognised link [x], with [normalizeUrl x = y], normalizing
    [y] again yields [y], also through [normalizeUrl(url) || url]; and the
    canonical watch link of an 11 character identifier is returned as it
    is. *)
Theorem normalizer_idempotent (x y : string) :
  normalizeUrl x = Some y ->
  normalizeUrl y = Some y
  /\ normalizedUrl (normalizedUrl x) = normalizedUrl x
  /\ (forall id, String.length id = 11 ->
        Forall (fun c => Regex.id_char c = true) (JS.chars id) ->
        x = watch_prefix ++ id -> y = x).
Proof.
  intros H. pose proof (normalizeUrl_fixed _ _ H) as Hy.
  pose proof (normalizeUrl_truthy _ _ H) as Ht.
  split; [exact Hy |]. split.
  - unfold normalizedUrl at 2 3. rewrite H. cbn [or_else]. rewrite Ht.
    unfold normalizedUrl. rewrite Hy. cbn [or_else]. now rewrite Ht.
  - intros id Hlen Hid Hx. subst x.
    rewrite (normalizeUrl_canonical id Hlen Hid) in H. now inversion H.
Qed.

Lemma normalizer_idempotent_witness :
  normalizeUrl "https://www.youtube.com/watch?v=dQw4w9WgXcQ"
  = Some "https://www.youtube.com/watch?v=dQw4w9WgXcQ"
  /\ normalizedUrl (normalizedUrl "https://youtu.be/dQw4w9WgXcQ?t=42")
     = normalizedUrl "https://youtu.be/dQw4w9WgXcQ?t=42".
Proof.
  destruct (normalizer_idempotent "https://youtu.be/dQw4w9WgXcQ?t=42"
              "https://www.youtube.com/watch?v=dQw4w9WgXcQ" eq_refl)
    as [Hfix [Hidem _]].
  split; [exact Hfix | exact Hidem].
Defined.

End Normalizer.

Example normalizeUrl_shorts :
  normalizeUrl "https://youtube.com/shorts/dQw4w9WgXcQ?feature=share"
  = Some "https://www.youtube.com/watch?v=dQw4w9WgXcQ".
Proof. reflexivity. Qed.

Example normalizeUrl_short_host :
  normalizeUrl "https://youtu.be/dQw4w9WgXcQ"
  = Some "https://www.youtube.com/watch?v=dQw4w9WgXcQ".
Proof. reflexivity. Qed.

Example normalizeUrl_watch :
  normalizeUrl "https://m.youtube.com/watch?v=dQw4w9WgXcQ&t=3"
  = Some "https://m.youtube.com/watch?v=dQw4w9WgXcQ&t=3".
Proof. reflexivity. Qed.

Example normalizeUrl_short_id :
  normalizeUrl "https://youtu.be/tooShort" = None.
Proof. reflexivity. Qed.

Example minimal_normalizeUrl_shorts :
  Minimal.normalizeUrl (Some "https://youtube.com/shorts/abc-123?x=1")
  = Some "https://www.youtube.com/watch?v=abc-123".
Proof. reflexivity. Qed.

(** ** Sanitizer *)

Section Sanitizer.

Example sanitizeShellInput_sample :
  sanitizeShellInput "a`b$c\d|e;f&g>h<i j" = "abcdefghi j".
Proof. reflexivity. Qed.


Lemma shell_meta_spec (c : ascii) :
  Regex.shell_meta c = true <-> In c Regex.shell_meta_chars.
Proof.
  unfold Regex.shell_meta. rewrite existsb_exists. split.
  - intros [x [Hin Heq]]. apply Ascii.eqb_eq in Heq. now subst.
  - intros Hin. exists c. split; [assumption | apply Ascii.eqb_refl].
Qed.

Lemma sanitize_is_filter (input : string) :
  JS.chars (sanitizeShellInput input)
  = filter (fun c => negb (Regex.shell_meta c)) (JS.chars input).
Proof.
  unfold sanitizeShellInput.
  induction input as [| c s IH]; [reflexivity |].
  cbn [Regex.replace_all]. rewrite chars_cons. cbn [filter].
  destruct (Regex.shell_meta c); cbn [negb].
  - exact IH.
  - rewrite chars_cons. now f_equal.
Qed.

Lemma sanitize_no_meta (input : string) (c : ascii) :
  In c (JS.chars (sanitizeShellInput input)) -> Regex.shell_meta c = false.
Proof.
  rewrite sanitize_is_filter. intros Hin. apply filter_In in Hin.
  destruct Hin as [_ Hkeep]. now destruct (Regex.shell_meta c).
Qed.

(** C2: the sanitized string holds none of the eight blocked characters,
    and its characters are exactly the characters of the input that are not
    blocked, in the order of the input. *)
Theorem sanitizeShellInput_safe_and_order_preserving (input : string) :
  (forall c, In c ["`"; "$"; "\"; "|"; ";"; "&"; ">"; "<"]%char ->
             ~ In c (JS.chars (sanitizeShellInput input)))
  /\ JS.chars (sanitizeShellInput input)
     = filter (fun c => negb (existsb (Ascii.eqb c)
                                ["`"; "$"; "\"; "|"; ";"; "&"; ">"; "<"]%char))
              (JS.chars input).
Proof.
  split.
  - intros c Hblocked Hin. apply sanitize_no_meta in Hin.
    apply shell_meta_spec in Hblocked. congruence.
  - apply sanitize_is_filter.
Qed.

End Sanitizer.

(** ** File system facts *)

Section FsFacts.

Lemma lookup_remove (p q : string) (fs : FS) :
  Fs.lookup q (Fs.remove p fs) = if p =? q then None else Fs.lookup q fs.
Proof.
  unfold Fs.remove. induction fs as [| [k f] fs IH]; cbn.
  - now destruct (p =? q).
  - destruct (k =? p) eqn:Ekp; cbn.
    + apply String.eqb_eq in Ekp. subst k. rewrite IH.
      now destruct (p =? q).
    + rewrite IH. destruct (k =? q) eqn:Ekq; [| reflexivity].
      apply String.eqb_eq in Ekq. subst k.
      rewrite String.eqb_sym in Ekp. now rewrite Ekp.
Qed.

Lemma lookup_remove_same (p : string) (fs : FS) :
  Fs.lookup p (Fs.remove p fs) = None.
Proof. rewrite lookup_remove. now rewrite String.eqb_refl. Qed.

End FsFacts.

(** ** Garbage collector *)

Section Sweep.

Variable TEMP_DIR : string.
Variables maxAge now : Z.

(** One step of the sweep always returns; it leaves every path as it was,
    except the path it examined, which it empties exactly when the file
    there is older than [maxAge] and can be removed. *)
Lemma cleanup_entry_spec (file : string) (fs : FS) :
  exists fs',
    cleanup_entry TEMP_DIR maxAge now file fs = (Returned tt, fs')
    /\ forall q,
         Fs.lookup q fs' =
         match Fs.lookup (Path.join [TEMP_DIR; file]) fs with
         | Some f =>
             if (now - mtimeMs f >? maxAge)%Z && removable f
                && (Path.join [TEMP_DIR; file] =? q)
             then None else Fs.lookup q fs
         | None => Fs.lookup q fs
         end.
Proof.
  unfold cleanup_entry, try_catch, bind, statSync, unlinkSync, ret.
  destruct (Fs.lookup (Path.join [TEMP_DIR; file]) fs) as [f |] eqn:Ef.
  - destruct (now - mtimeMs f >? maxAge)%Z; cbn [andb].
    + rewrite Ef. destruct (removable f); cbn [andb].
      * eexists. split; [reflexivity |]. intros q. apply lookup_remove.
      * eexists. split; [reflexivity |]. reflexivity.
    + eexists. split; [reflexivity |]. reflexivity.
  - eexists. split; [reflexivity |]. reflexivity.
Qed.

Lemma forEach_cleanup_returns (files : list string) (fs : FS) :
  exists fs', forEach files (cleanup_entry TEMP_DIR maxAge now) fs = (Returned tt, fs').
Proof.
  revert fs. induction files as [| file files IH]; intros fs; cbn.
  - eexists. reflexivity.
  - unfold bind. destruct (cleanup_entry_spec file fs) as [fs1 [H1 _]].
    rewrite H1. apply IH.
Qed.

(** A file that is not older than [maxAge] survives the loop. *)
Lemma forEach_cleanup_keeps (files : list string) :
  forall fs fs' p f,
    forEach files (cleanup_entry TEMP_DIR maxAge now) fs = (Returned tt, fs') ->
    Fs.lookup p fs = Some f -> (now - mtimeMs f <= maxAge)%Z ->
    Fs.lookup p fs' = Some f.
Proof.
  induction files as [| file files IH]; intros fs fs' p f Hrun Hp Hage; cbn in Hrun.
  - unfold ret in Hrun. now inversion Hrun; subst.
  - unfold bind in Hrun. destruct (cleanup_entry_spec file fs) as [fs1 [H1 Hl]].
    rewrite H1 in Hrun. apply (IH _ _ _ _ Hrun); [| exact Hage].
    rewrite Hl. destruct (Fs.lookup (Path.join [TEMP_DIR; file]) fs) as [g |] eqn:Eg;
      [| exact Hp].
    destruct (Path.join [TEMP_DIR; file] =? p) eqn:Epq.
    + apply String.eqb_eq in Epq. rewrite Epq in Eg. rewrite Hp in Eg.
      inversion Eg; subst g.
      assert (Hno : (now - mtimeMs f >? maxAge)%Z = false) by lia.
      rewrite Hno. exact Hp.
    + rewrite !andb_false_r. exact Hp.
Qed.

(** The loop creates nothing. *)
Lemma forEach_cleanup_absent (files : list string) :
  forall fs fs' p,
    forEach files (cleanup_entry TEMP_DIR maxAge now) fs = (Returned tt, fs') ->
    Fs.lookup p fs = None -> Fs.lookup p fs' = None.
Proof.
  induction files as [| file files IH]; intros fs fs' p Hrun Hp; cbn in Hrun.
  - unfold ret in Hrun. now inversion Hrun; subst.
  - unfold bind in Hrun. destruct (cleanup_entry_spec file fs) as [fs1 [H1 Hl]].
    rewrite H1 in Hrun. apply (IH _ _ _ Hrun).
    rewrite Hl. destruct (Fs.lookup (Path.join [TEMP_DIR; file]) fs) as [g |];
      [| exact Hp].
    now destruct (_ && _ && _).
Qed.

(** Whatever the loop leaves at a path was there before. *)
Lemma forEach_cleanup_same_or_gone (files : list string) :
  forall fs fs' p,
    forEach files (cleanup_entry TEMP_DIR maxAge now) fs = (Returned tt, fs') ->
    Fs.lookup p fs' = Fs.lookup p fs \/ Fs.lookup p fs' = None.
Proof.
  induction files as [| file files IH]; intros fs fs' p Hrun; cbn in Hrun.
  - unfold ret in Hrun. inversion Hrun; subst. now left.
  - unfold bind in Hrun. destruct (cleanup_entry_spec file fs) as [fs1 [H1 Hl]].
    rewrite H1 in Hrun. destruct (IH _ _ p Hrun) as [Hsame | Hgone]; [| now right].
    rewrite Hsame, Hl.
    destruct (Fs.lookup (Path.join [TEMP_DIR; file]) fs) as [g |]; [| now left].
    destruct (_ && _ && _); [now right | now left].
Qed.

(** A listed file that is older than [maxAge] and can be removed is gone
    after the loop. *)
Lemma forEach_cleanup_removes (files : list string) :
  forall fs fs' name f,
    forEach files (cleanup_entry TEMP_DIR maxAge now) fs = (Returned tt, fs') ->
    In name files ->
    Fs.lookup (Path.join [TEMP_DIR; name]) fs = Some f ->
    (now - mtimeMs f > maxAge)%Z -> removable f = true ->
    Fs.lookup (Path.join [TEMP_DIR; name]) fs' = None.
Proof.
  induction files as [| file files IH];
    intros fs fs' name f Hrun Hin Hp Hage Hrm; cbn in Hrun; [contradiction |].
  unfold bind in Hrun. destruct (cleanup_entry_spec file fs) as [fs1 [H1 Hl]].
  rewrite H1 in Hrun.
  assert (Hcase : Fs.lookup (Path.join [TEMP_DIR; name]) fs1 = Some f
                  \/ Fs.lookup (Path.join [TEMP_DIR; name]) fs1 = None).
  { rewrite Hl. destruct (Fs.lookup (Path.join [TEMP_DIR; file]) fs) as [g |];
      [| now left].
    destruct (_ && _ && _); [now right | now left]. }
  destruct Hin as [Heq | Hin].
  - subst file. apply (forEach_cleanup_absent _ _ _ _ Hrun).
    rewrite Hl, Hp.
    assert (Hold : (now - mtimeMs f >? maxAge)%Z = true) by lia.
    now rewrite Hold, Hrm, String.eqb_refl.
  - destruct Hcase as [Hstill | Hgone].
    + exact (IH _ _ _ _ Hrun Hin Hstill Hage Hrm).
    + exact (forEach_cleanup_absent _ _ _ _ Hrun Hgone).
Qed.

Lemma cleanup_unfold (fs : FS) :
  cleanupOldFiles TEMP_DIR maxAge now fs =
  match Fs.lookup TEMP_DIR fs with
  | Some _ => forEach (Fs.children TEMP_DIR fs) (cleanup_entry TEMP_DIR maxAge now) fs
  | None => (Returned tt, fs)
  end.
Proof.
  unfold cleanupOldFiles, try_catch, bind, existsSync, readdirSync, ret.
  destruct (Fs.lookup TEMP_DIR fs); cbn [negb]; [| reflexivity].
  destruct (forEach_cleanup_returns (Fs.children TEMP_DIR fs) fs) as [fs' H].
  now rewrite H.
Qed.

(** C3, as the code has it: the sweep returns; it keeps every file whose
    age is at most [maxAge], the age [maxAge] itself included; and it removes
    every listed file whose age is greater than [maxAge], provided the
    directory exists and [unlinkSync] does not fail on the file. *)
Theorem sweep_removes_only_files_older_than_ttl (fs : FS) (p : string) (f : file) :
  Fs.lookup p fs = Some f ->
  exists fs',
    cleanupOldFiles TEMP_DIR maxAge now fs = (Returned tt, fs')
    /\ ((now - mtimeMs f <= maxAge)%Z -> Fs.lookup p fs' = Some f)
    /\ ((now - mtimeMs f > maxAge)%Z ->
        removable f = true ->
        Fs.lookup TEMP_DIR fs <> None ->
        (exists name, In name (Fs.children TEMP_DIR fs)
                      /\ p = Path.join [TEMP_DIR; name]) ->
        Fs.lookup p fs' = None).
Proof.
  intros Hp. rewrite cleanup_unfold.
  destruct (Fs.lookup TEMP_DIR fs) as [d |] eqn:Ed.
  - destruct (forEach_cleanup_returns (Fs.children TEMP_DIR fs) fs) as [fs' Hrun].
    exists fs'. split; [exact Hrun |]. split.
    + intros Hage. exact (forEach_cleanup_keeps _ _ _ _ _ Hrun Hp Hage).
    + intros Hage Hrm _ [name [Hin Hname]]. subst p.
      exact (forEach_cleanup_removes _ _ _ _ _ Hrun Hin Hp Hage Hrm).
  - exists fs. split; [reflexivity |]. split.
    + intros _. exact Hp.
    + intros _ _ Hdir. now contradiction Hdir.
Qed.

End Sweep.

Lemma sweep_removes_only_files_older_than_ttl_witness :
  exists fs',
    cleanupOldFiles "/app/temp" Simple.maxAge 5000000
      [("/app/temp", mkFile 4096 0 false);
       ("/app/temp/old.mp4", mkFile 1000 0 true);
       ("/app/temp/new.mp4", mkFile 2000 4000000 true)] = (Returned tt, fs')
    /\ Fs.lookup "/app/temp/old.mp4" fs' = None
    /\ Fs.lookup "/app/temp/new.mp4" fs' = Some (mkFile 2000 4000000 true).
Proof.
  destruct (sweep_removes_only_files_older_than_ttl "/app/temp" Simple.maxAge 5000000
              [("/app/temp", mkFile 4096 0 false);
               ("/app/temp/old.mp4", mkFile 1000 0 true);
               ("/app/temp/new.mp4", mkFile 2000 4000000 true)]
              "/app/temp/old.mp4" (mkFile 1000 0 true) eq_refl)
    as [fs1 [Hrun1 [_ Hold]]].
  destruct (sweep_removes_only_files_older_than_ttl "/app/temp" Simple.maxAge 5000000
              [("/app/temp", mkFile 4096 0 false);
               ("/app/temp/old.mp4", mkFile 1000 0 true);
               ("/app/temp/new.mp4", mkFile 2000 4000000 true)]
              "/app/temp/new.mp4" (mkFile 2000 4000000 true) eq_refl)
    as [fs2 [Hrun2 [Hnew _]]].
  exists fs1. split; [exact Hrun1 |].
  assert (Hsame : fs2 = fs1).
  { rewrite Hrun1 in Hrun2. now inversion Hrun2. }
  split.
  - apply Hold.
    + reflexivity.
    + reflexivity.
    + discriminate.
    + exists "old.mp4". split; [left; reflexivity | reflexivity].
  - rewrite <- Hsame. apply Hnew. discriminate.
Defined.

(** A file whose age equals [maxAge] is kept, in both variants; one
    millisecond later it is removed. *)
Lemma sweep_keeps_file_aged_exactly_ttl :
  (1800000 - mtimeMs (mkFile 1000 0 true) >= Simple.maxAge)%Z
  /\ cleanupOldFiles "/app/temp" Simple.maxAge 1800000
       [("/app/temp", mkFile 4096 0 false);
        ("/app/temp/a.mp4", mkFile 1000 0 true)]
     = (Returned tt,
        [("/app/temp", mkFile 4096 0 false);
         ("/app/temp/a.mp4", mkFile 1000 0 true)])
  /\ (7200000 - mtimeMs (mkFile 1000 0 true) >= Full.maxAge)%Z
  /\ cleanupOldFiles "/app/temp" Full.maxAge 7200000
       [("/app/temp", mkFile 4096 0 false);
        ("/app/temp/a.mp4", mkFile 1000 0 true)]
     = (Returned tt,
        [("/app/temp", mkFile 4096 0 false);
         ("/app/temp/a.mp4", mkFile 1000 0 true)])
  /\ cleanupOldFiles "/app/temp" Full.maxAge 7200001
       [("/app/temp", mkFile 4096 0 false);
        ("/app/temp/a.mp4", mkFile 1000 0 true)]
     = (Returned tt, [("/app/temp", mkFile 4096 0 false)]).
Proof.
  repeat split; try reflexivity; cbn; unfold Simple.maxAge, Full.maxAge; lia.
Qed.

(** ** Retrieval endpoints *)

Section Retrieval.

Example join_inside : Path.join ["/app/temp"; "a.mp4"] = "/app/temp/a.mp4".
Proof. reflexivity. Qed.

Example join_above : Path.join ["/app/temp"; "../../etc/passwd"] = "/etc/passwd".
Proof. reflexivity. Qed.

Example join_relative : Path.join ["app"; "../../x//y/"] = "../x/y/".
Proof. reflexivity. Qed.

Variable TEMP_DIR : string.

(** C10: each retrieval endpoint looks at the path obtained by joining the
    artifact directory with the raw parameter and at nothing else: it answers
    404 exactly when nothing is there and serves what is there otherwise.
    Nothing keeps that path inside the artifact directory: the parameter
    [../secret.env] reaches a file next to the directory. *)
Theorem retrieval_serves_joined_path_unconfined (param : string) (fs : FS) :
  (Full.stream TEMP_DIR param fs
   = (Returned (match Fs.lookup (Path.join [TEMP_DIR; param]) fs with
                | None => Full.NotFound "File not found"
                | Some _ => Full.Stream (Path.join [TEMP_DIR; param]) param
                end), fs)
   /\ (fst (Full.stream TEMP_DIR param fs) = Returned (Full.NotFound "File not found")
       <-> Fs.lookup (Path.join [TEMP_DIR; param]) fs = None))
  /\ (Full.file TEMP_DIR param fs
      = (Returned (match Fs.lookup (Path.join [TEMP_DIR; param]) fs with
                   | None => Full.NotFound "File not found"
                   | Some _ => Full.Download (Path.join [TEMP_DIR; param]) param
                   end), fs)
      /\ (fst (Full.file TEMP_DIR param fs) = Returned (Full.NotFound "File not found")
          <-> Fs.lookup (Path.join [TEMP_DIR; param]) fs = None))
  /\ (Minimal.file TEMP_DIR param fs
      = (Returned (match Fs.lookup (Path.join [TEMP_DIR; param]) fs with
                   | None => Minimal.NotFound
                   | Some _ => Minimal.Download (Path.join [TEMP_DIR; param])
                   end), fs)
      /\ (fst (Minimal.file TEMP_DIR param fs) = Returned Minimal.NotFound
          <-> Fs.lookup (Path.join [TEMP_DIR; param]) fs = None))
  /\ (Path.join ["/app/temp"; "../secret.env"] = "/app/secret.env"
      /\ JS.startsWith "/app/secret.env" "/app/temp" = false
      /\ Full.stream "/app/temp" "../secret.env"
           [("/app/temp", mkFile 4096 0 false); ("/app/secret.env", mkFile 64 0 true)]
         = (Returned (Full.Stream "/app/secret.env" "../secret.env"),
            [("/app/temp", mkFile 4096 0 false); ("/app/secret.env", mkFile 64 0 true)])
      /\ Full.file "/app/temp" "../secret.env"
           [("/app/temp", mkFile 4096 0 false); ("/app/secret.env", mkFile 64 0 true)]
         = (Returned (Full.Download "/app/secret.env" "../secret.env"),
            [("/app/temp", mkFile 4096 0 false); ("/app/secret.env", mkFile 64 0 true)])
      /\ Minimal.file "/app/temp" "../secret.env"
           [("/app/temp", mkFile 4096 0 false); ("/app/secret.env", mkFile 64 0 true)]
         = (Returned (Minimal.Download "/app/secret.env"),
            [("/app/temp", mkFile 4096 0 false); ("/app/secret.env", mkFile 64 0 true)])).
Proof.
  unfold Full.stream, Full.file, Minimal.file, bind, existsSync, ret.
  destruct (Fs.lookup (Path.join [TEMP_DIR; param]) fs) as [f |]; cbn [negb fst].
  - repeat split; try reflexivity; intros H; discriminate.
  - repeat split; reflexivity.
Qed.

End Retrieval.

(** ** Argument builder and process executor *)

Section Executor.

Lemma append_assoc (a b c : string) : (a ++ b) ++ c = a ++ b ++ c.
Proof. induction a as [| x a IH]; cbn; [reflexivity | now rewrite IH]. Qed.

Lemma append_empty_r (a : string) : a ++ "" = a.
Proof. induction a as [| x a IH]; cbn; [reflexivity | now rewrite IH]. Qed.

Lemma join_cons (sep x y : string) (rest : list string) :
  JS.join sep (x :: y :: rest) = x ++ sep ++ JS.join sep (y :: rest).
Proof. reflexivity. Qed.

(** The command line, one element at a time. *)
Lemma ytDlpCommand_rendering (arg : string) (rest : list string) :
  ytDlpCommand (arg :: rest)
  = "yt-dlp"
    ++ fold_right
         (fun a acc => " " ++ dquote ++ sanitizeShellInput a ++ dquote ++ acc)
         "" (arg :: rest).
Proof.
  unfold ytDlpCommand.
  change ("yt-dlp " ++ ?x) with ("yt-dlp" ++ " " ++ x). f_equal.
  revert arg. induction rest as [| b rest IH]; intros arg.
  - reflexivity.
  - cbn [fold_right] in *. rewrite <- IH.
    cbn [map]. rewrite join_cons. now rewrite !append_assoc.
Qed.

Lemma join_quoted_no_meta (args : list string) :
  Forall (fun c => Regex.shell_meta c = false)
    (JS.chars (JS.join " "
       (map (fun arg => dquote ++ sanitizeShellInput arg ++ dquote) args))).
Proof.
  assert (Hq : forall a, Forall (fun c => Regex.shell_meta c = false)
                 (JS.chars (dquote ++ sanitizeShellInput a ++ dquote))).
  { intros a. rewrite !chars_app. apply Forall_app. split.
    - repeat constructor.
    - apply Forall_app. split; [| repeat constructor].
      apply Forall_forall. intros c. apply sanitize_no_meta. }
  induction args as [| a args IH]; [constructor |].
  destruct args as [| b args]; [apply Hq |].
  cbn [map] in *. rewrite join_cons, chars_app.
  apply Forall_app. split; [apply Hq |].
  rewrite chars_app. apply Forall_app. split; [repeat constructor | exact IH].
Qed.

(** C1, as the code has it: the argument builder yields an ordered vector
    that starts with the source, but the executor renders the vector as one
    command line (each element stripped of the blocked characters, wrapped
    in double quotes and preceded by a space, after [yt-dlp]) and hands that
    line to the shell; no blocked character is left in it.  The minimal
    variant, too, starts the tool from one command line given to the
    shell. *)
Theorem executor_runs_one_sanitized_command_line_in_shell
        (TEMP_DIR : string) (proc : Process) (b : Req.body) (uuid : string)
        (now : Z) (type input : string) (fs : FS) :
  hd_error (Full.download_args TEMP_DIR b uuid now)
  = Some (normalizedUrl (default "" (Req.url b)))
  /\ executeYtDlp_invocation (Full.download_args TEMP_DIR b uuid now)
     = Shell ("yt-dlp"
              ++ fold_right
                   (fun a acc =>
                      " " ++ dquote ++ sanitizeShellInput a ++ dquote ++ acc)
                   "" (Full.download_args TEMP_DIR b uuid now))
  /\ executeYtDlp proc (Full.download_args TEMP_DIR b uuid now) fs
     = match proc (executeYtDlp_invocation (Full.download_args TEMP_DIR b uuid now)) fs with
       | (None, fs') => (Returned tt, fs')
       | (Some message, fs') => (Thrown ("yt-dlp failed: " ++ message), fs')
       end
  /\ Forall (fun c => Regex.shell_meta c = false)
       (JS.chars (ytDlpCommand (Full.download_args TEMP_DIR b uuid now)))
  /\ execPromise proc (Minimal.download_cmd TEMP_DIR type input now) fs
     = match proc (Shell (Minimal.download_cmd TEMP_DIR type input now)) fs with
       | (None, fs') => (Returned tt, fs')
       | (Some message, fs') => (Thrown message, fs')
       end.
Proof.
  split; [reflexivity |]. split.
  { unfold executeYtDlp_invocation. f_equal.
    unfold Full.download_args. cbn [app]. apply ytDlpCommand_rendering. }
  split.
  { unfold executeYtDlp, try_catch, execPromise, executeYtDlp_invocation, throw.
    now destruct (proc _ fs) as [[message |] fs']. }
  split.
  { unfold ytDlpCommand. rewrite chars_app. apply Forall_app. split.
    - repeat constructor.
    - apply join_quoted_no_meta. }
  reflexivity.
Qed.

(** Every element goes through the sanitizer, the format selector of the
    builder included: its [<] is stripped on the way to the shell. *)
Lemma executor_rewrites_format_selector :
  ytDlpCommand ["-f"; "best[height<=720]"]
  = "yt-dlp " ++ dquote ++ "-f" ++ dquote ++ " "
    ++ dquote ++ "best[height=720]" ++ dquote.
Proof. reflexivity. Qed.

(** The caller's URL appears inside the one command line that
    [executeYtDlp] gives to the shell. *)
Lemma executor_interpolates_caller_text_into_shell_command :
  exists cmd,
    executeYtDlp_invocation
      (Full.download_args "/app/temp"
         (Req.mkBody (Some "https://example.com/clip?id=7") None None None None)
         "9f1c2d3e-aaaa-4bbb-8ccc-123456789abc" 1700000000000)
    = Shell cmd
    /\ JS.includes cmd "https://example.com/clip?id=7" = true.
Proof.
  eexists. split; [reflexivity |]. vm_compute; reflexivity.
Qed.

(** Where the handlers build the command line themselves, in the minimal
    variant and in [server.js], the caller's text does not go through the
    sanitizer that [executeYtDlp] applies: a command substitution written
    by the caller stands in the line as it was sent. *)
Lemma handlers_skip_the_sanitizer :
  JS.includes
    (Minimal.download_cmd "/app/temp" "video" "ytsearch1:$(reboot)" 1700000000000)
    "$(reboot)" = true
  /\ JS.includes
       (Simple.download_cmd "video" "/app/temp/9f1c2d3e.mp4" (normalizedUrl "$(reboot)"))
       "$(reboot)" = true
  /\ ytDlpCommand ["ytsearch1:$(reboot)"]
     = "yt-dlp " ++ dquote ++ "ytsearch1:(reboot)" ++ dquote.
Proof.
  repeat split; vm_compute; reflexivity.
Qed.

End Executor.

(** ** Output resolver *)

Section Resolver.

Lemma filter_first {A : Type} (keep : A -> bool) (l : list A) (x : A) (rest : list A) :
  filter keep l = x :: rest ->
  exists before after,
    l = (before ++ x :: after)%list
    /\ keep x = true
    /\ Forall (fun y => keep y = false) before.
Proof.
  induction l as [| a l IH]; intros H; cbn in H; [discriminate |].
  destruct (keep a) eqn:Ea.
  - inversion H; subst. exists [], l. repeat split; [assumption | constructor].
  - destruct (IH H) as [before [after [Hl [Hx Hb]]]].
    exists (a :: before), after. subst l. repeat split; [assumption |].
    now constructor.
Qed.

Variable TEMP_DIR : string.
Variable proc : Process.

(** C4, as the code has it: the artifact a successful download refers to is
    the first entry of the directory listing whose name starts with the job
    id; the sizes of the entries are not looked at. *)
Theorem resolver_selects_first_listed_match
        (b : Req.body) (now : Z) (fs fs' : FS) (downloadUrl type : string) :
  Minimal.download TEMP_DIR proc b now fs
  = (Returned (Minimal.Ok downloadUrl type), fs') ->
  exists name before after,
    downloadUrl = "/file/" ++ name
    /\ Fs.children TEMP_DIR fs' = (before ++ name :: after)%list
    /\ JS.startsWith name (Minimal.job_id now) = true
    /\ Forall (fun other => JS.startsWith other (Minimal.job_id now) = false) before.
Proof.
  unfold Minimal.download. intros H.
  destruct (Minimal.download_input b) as [input |]; [| discriminate].
  destruct (JS.truthy input); cbn [negb] in H; [| discriminate].
  cbv beta iota zeta
      delta [try_catch bind execPromise Minimal.job_files readdirSync_unguarded
             ret throw] in H.
  destruct (proc _ fs) as [[message |] fs1]; [discriminate |].
  destruct (Fs.lookup TEMP_DIR fs1) as [d |]; [| discriminate].
  destruct (filter _ (Fs.children TEMP_DIR fs1)) as [| first others] eqn:Ef;
    [discriminate |].
  inversion H; subst. clear H.
  destruct (filter_first _ _ _ _ Ef) as [before [after [Hl [Hx Hb]]]].
  exists first, before, after. repeat split; assumption.
Qed.

End Resolver.

Lemma resolver_selects_first_listed_match_witness :
  exists name before after,
    "/file/yt-1700000000000.f137.mp4.part" = "/file/" ++ name
    /\ Fs.children "/app/temp"
         [("/app/temp/yt-1699999999999.mp4", mkFile 700 1699999999999 true);
          ("/app/temp/yt-1700000000000.f137.mp4.part", mkFile 10 1700000000400 true);
          ("/app/temp/yt-1700000000000.mp4", mkFile 5000 1700000000500 true);
          ("/app/temp", mkFile 4096 0 false)]
       = (before ++ name :: after)%list
    /\ JS.startsWith name (Minimal.job_id 1700000000000) = true
    /\ Forall (fun other => JS.startsWith other (Minimal.job_id 1700000000000) = false)
         before.
Proof.
  apply (resolver_selects_first_listed_match "/app/temp"
           (fun _ fs =>
              (None,
               ("/app/temp/yt-1699999999999.mp4", mkFile 700 1699999999999 true)
               :: ("/app/temp/yt-1700000000000.f137.mp4.part",
                   mkFile 10 1700000000400 true)
               :: ("/app/temp/yt-1700000000000.mp4", mkFile 5000 1700000000500 true)
               :: fs))
           (Req.mkBody (Some "https://youtu.be/dQw4w9WgXcQ") None None None None)
           1700000000000 [("/app/temp", mkFile 4096 0 false)] _ _ "video").
  reflexivity.
Defined.

(** Two entries carry the job id; the download refers to the one listed
    first, of 10 bytes, and not to the larger one, of 100 bytes. *)
Lemma resolver_picks_smaller_first_match :
  exists fs',
    Minimal.download "/app/temp"
      (fun _ fs =>
         (None,
          ("/app/temp/yt-1700000000000.f137.mp4.part", mkFile 10 1700000000400 true)
          :: ("/app/temp/yt-1700000000000.mp4", mkFile 100 1700000000500 true)
          :: fs))
      (Req.mkBody (Some "https://youtu.be/dQw4w9WgXcQ") None None None None)
      1700000000000 [("/app/temp", mkFile 4096 0 false)]
    = (Returned (Minimal.Ok "/file/yt-1700000000000.f137.mp4.part" "video"), fs')
    /\ Fs.lookup "/app/temp/yt-1700000000000.f137.mp4.part" fs'
       = Some (mkFile 10 1700000000400 true)
    /\ Fs.lookup "/app/temp/yt-1700000000000.mp4" fs'
       = Some (mkFile 100 1700000000500 true)
    /\ JS.startsWith "yt-1700000000000.mp4" (Minimal.job_id 1700000000000) = true
    /\ (size (mkFile 10 1700000000400 true) < size (mkFile 100 1700000000500 true))%Z.
Proof.
  eexists. split; [vm_compute; reflexivity |].
  repeat split; reflexivity.
Qed.

(** ** Download operation *)

Section Download.

Variable TEMP_DIR : string.
Variable proc : Process.

Ltac run_download H :=
  cbv beta iota zeta
      delta [try_catch bind executeYtDlp execPromise existsSync statSync
             unlinkSync ret throw negb] in H;
  repeat
    (first
       [ match goal with
         | E : Fs.lookup _ _ = _ |- _ => rewrite E in H
         | E : removable _ = _ |- _ => rewrite E in H
         end
       | match type of H with
         | context [proc ?i ?fs] =>
             let message := fresh "message" in
             let fs1 := fresh "fs1" in
             destruct (proc i fs) as [[message |] fs1]
         | context [match Fs.lookup ?p ?fs with _ => _ end] =>
             let g := fresh "g" in
             let Eg := fresh "Eg" in
             destruct (Fs.lookup p fs) as [g |] eqn:Eg
         | context [if removable ?g then _ else _] =>
             let Er := fresh "Er" in
             destruct (removable g) eqn:Er
         end ];
     cbv beta iota in H);
  try discriminate H.

(** C6, as the code has it: a success response is produced only when
    [existsSync] found the file; the response names that file and reports
    the size [statSync] gave, which nothing compares with zero. *)
Theorem download_success_means_file_exists
        (b : Req.body) (uuid : string) (now : Z) (origin : string) (fs fs' : FS) :
  (forall s,
      Full.download TEMP_DIR proc b uuid now origin fs
      = (Returned (Full.Success s), fs') ->
      exists f,
        Fs.lookup (Path.join [TEMP_DIR; Full.filename s]) fs' = Some f
        /\ Full.fileSize s = size f)
  /\ (forall s,
         Simple.download TEMP_DIR proc b uuid origin fs
         = (Returned (Simple.Success s), fs') ->
         exists f,
           Fs.lookup (Path.join [TEMP_DIR; Simple.filename s]) fs' = Some f
           /\ Simple.fileSize s = size f).
Proof.
  split; intros s H.
  - unfold Full.download in H.
    destruct (truthy_field (Req.url b)); cbn [negb] in H; [| discriminate].
    run_download H. inversion H; subst. cbn. eauto.
  - unfold Simple.download in H.
    destruct (truthy_field (Req.url b)); cbn [negb] in H; [| discriminate].
    run_download H. inversion H; subst. cbn. eauto.
Qed.

(** A failed download of the full variant leaves nothing at the output
    path, unless [unlinkSync] fails there. *)
Lemma full_download_failure_removes_output
      (b : Req.body) (uuid : string) (now : Z) (origin : string) (fs fs' : FS)
      (error message hint : string) :
  Full.download TEMP_DIR proc b uuid now origin fs
  = (Returned (Full.ServerError error message hint), fs') ->
  match Fs.lookup (Path.join [TEMP_DIR;
                     Full.download_filename uuid now (default "video" (Req.type b))]) fs'
  with
  | Some f => removable f = false
  | None => True
  end.
Proof.
  unfold Full.download. intros H.
  destruct (truthy_field (Req.url b)); cbn [negb] in H; [| discriminate].
  run_download H; inversion H; subst;
    rewrite ?lookup_remove_same;
    repeat match goal with
           | E : Fs.lookup _ _ = _ |- _ => rewrite E
           end; auto.
Qed.

(** The simplified variant never touches the file system itself: what the
    tool left is what remains, whatever the outcome. *)
Lemma simple_download_leaves_files (b : Req.body) (uuid origin : string) (fs : FS) :
  truthy_field (Req.url b) = true ->
  snd (Simple.download TEMP_DIR proc b uuid origin fs)
  = snd (proc (Shell (Simple.download_cmd (default "video" (Req.type b))
                        (Path.join [TEMP_DIR;
                           Simple.download_filename uuid (default "video" (Req.type b))])
                        (normalizedUrl (default "" (Req.url b))))) fs).
Proof.
  intros Hurl. unfold Simple.download. rewrite Hurl. cbn [negb].
  cbv beta iota zeta
      delta [try_catch bind execPromise existsSync statSync ret throw negb].
  destruct (proc _ fs) as [[msg |] fs1]; [reflexivity |].
  destruct (Fs.lookup _ fs1) as [g |] eqn:Eg; cbv beta iota; [| reflexivity].
  now rewrite Eg.
Qed.

End Download.

Lemma download_success_means_file_exists_witness :
  exists f,
    Fs.lookup (Path.join ["/app/temp"; "9f1c2d3e-1700000000000.mp4"])
      [("/app/temp/9f1c2d3e-1700000000000.mp4", mkFile 5000 1700000000500 true)]
    = Some f
    /\ 5000%Z = size f.
Proof.
  apply (proj1 (download_success_means_file_exists "/app/temp"
           (fun _ fs =>
              (None, ("/app/temp/9f1c2d3e-1700000000000.mp4",
                      mkFile 5000 1700000000500 true) :: fs))
           (Req.mkBody (Some "https://youtu.be/dQw4w9WgXcQ") None None None None)
           "9f1c2d3e-aaaa-4bbb-8ccc-123456789abc" 1700000000000
           "http://localhost:5000" [] _)
         {| Full.downloadId := "9f1c2d3e";
            Full.filename := "9f1c2d3e-1700000000000.mp4";
            Full.originalUrl := "https://youtu.be/dQw4w9WgXcQ";
            Full.type := "video";
            Full.quality := "medium";
            Full.fileSize := 5000;
            Full.isTooLarge := false;
            Full.maxAllowedMB := 64;
            Full.downloadUrl :=
              "http://localhost:5000/stream/9f1c2d3e-1700000000000.mp4";
            Full.directUrl :=
              "http://localhost:5000/file/9f1c2d3e-1700000000000.mp4" |}).
  vm_compute. reflexivity.
Defined.

(** The tool exits with status zero and leaves an empty file: both variants
    answer with a success that refers to it. *)
Lemma download_succeeds_on_empty_file :
  exists s fs' s0 fs0,
    Full.download "/app/temp"
      (fun _ fs =>
         (None, ("/app/temp/9f1c2d3e-1700000000000.mp4",
                 mkFile 0 1700000000500 true) :: fs))
      (Req.mkBody (Some "https://youtu.be/dQw4w9WgXcQ") None None None None)
      "9f1c2d3e-aaaa-4bbb-8ccc-123456789abc" 1700000000000
      "http://localhost:5000" []
    = (Returned (Full.Success s), fs')
    /\ Fs.lookup (Path.join ["/app/temp"; Full.filename s]) fs'
       = Some (mkFile 0 1700000000500 true)
    /\ Full.fileSize s = 0%Z
    /\ Simple.download "/app/temp"
         (fun _ fs =>
            (None, ("/app/temp/9f1c2d3e-aaaa-4bbb-8ccc-123456789abc.mp4",
                    mkFile 0 1700000000500 true) :: fs))
         (Req.mkBody (Some "https://youtu.be/dQw4w9WgXcQ") None None None None)
         "9f1c2d3e-aaaa-4bbb-8ccc-123456789abc" "http://localhost:5000" []
       = (Returned (Simple.Success s0), fs0)
    /\ Fs.lookup (Path.join ["/app/temp"; Simple.filename s0]) fs0
       = Some (mkFile 0 1700000000500 true)
    /\ Simple.fileSize s0 = 0%Z.
Proof.
  do 4 eexists. split; [vm_compute; reflexivity |].
  split; [vm_compute; reflexivity |]. split; [reflexivity |].
  split; [vm_compute; reflexivity |].
  split; [vm_compute; reflexivity | reflexivity].
Qed.

(** C5 on [server.js]: the tool is stopped by the time out after it wrote
    half a megabyte to the output path; the handler answers 500 and the
    partial file is still there. *)
Theorem simple_download_failure_leaves_partial_file :
  Simple.download "/app/temp"
    (fun _ fs =>
       (Some "Command failed: yt-dlp timed out",
        ("/app/temp/9f1c2d3e-aaaa-4bbb-8ccc-123456789abc.mp4",
         mkFile 524288 1700000000500 true) :: fs))
    (Req.mkBody (Some "https://youtu.be/dQw4w9WgXcQ") None None None None)
    "9f1c2d3e-aaaa-4bbb-8ccc-123456789abc" "http://localhost:5000" []
  = (Returned (Simple.ServerError "Download failed" "Command failed: yt-dlp timed out"),
     [("/app/temp/9f1c2d3e-aaaa-4bbb-8ccc-123456789abc.mp4",
       mkFile 524288 1700000000500 true)])
  /\ Full.download "/app/temp"
       (fun _ fs =>
          (Some "Command failed: yt-dlp timed out",
           ("/app/temp/9f1c2d3e-1700000000000.mp4",
            mkFile 524288 1700000000500 true) :: fs))
       (Req.mkBody (Some "https://youtu.be/dQw4w9WgXcQ") None None None None)
       "9f1c2d3e-aaaa-4bbb-8ccc-123456789abc" 1700000000000
       "http://localhost:5000" []
     = (Returned (Full.ServerError "Download failed"
                    "yt-dlp failed: Command failed: yt-dlp timed out"
                    "Try again with different quality or check the URL"),
        []).
Proof.
  split; vm_compute; reflexivity.
Qed.

(** ** Job identifiers *)

Section JobIds.

Lemma append_same_length_inj (a b x y : string) :
  String.length a = String.length b -> a ++ x = b ++ y -> a = b.
Proof.
  revert b. induction a as [| c a IH]; intros [| d b] Hlen H; cbn in *;
    try discriminate; [reflexivity |].
  inversion H; subst. f_equal. apply IH; [lia | assumption].
Qed.

(** [server.js] names the file by the whole identifier: two identifiers of
    the same length that differ give two file names. *)
Lemma simple_filenames_distinct (uuid1 uuid2 type1 type2 : string) :
  String.length uuid1 = String.length uuid2 -> uuid1 <> uuid2 ->
  Simple.download_filename uuid1 type1 <> Simple.download_filename uuid2 type2.
Proof.
  intros Hlen Hne Heq. apply Hne.
  unfold Simple.download_filename in Heq.
  exact (append_same_length_inj _ _ _ _ Hlen Heq).
Qed.

(** The full variant keeps eight characters of the identifier: two
    identifiers that differ there give two file names. *)
Lemma full_filenames_distinct (uuid1 uuid2 : string) (now1 now2 : Z)
      (type1 type2 : string) :
  String.length (JS.slice0 8 uuid1) = String.length (JS.slice0 8 uuid2) ->
  JS.slice0 8 uuid1 <> JS.slice0 8 uuid2 ->
  Full.download_filename uuid1 now1 type1 <> Full.download_filename uuid2 now2 type2.
Proof.
  intros Hlen Hne Heq. apply Hne.
  unfold Full.download_filename in Heq.
  exact (append_same_length_inj _ _ _ _ Hlen Heq).
Qed.

(** C7 on the minimal variant: two different requests accepted in the same
    millisecond get the same job id and the same output template, and the
    answers to both refer to the same file.  In the full variant two
    identifiers that share their first eight characters give the same file
    name within one millisecond. *)
Theorem minimal_job_ids_collide_at_same_instant :
  Minimal.download_input
    (Req.mkBody (Some "https://youtu.be/aaaaaaaaaaa") None None None None)
  <> Minimal.download_input
       (Req.mkBody (Some "https://youtu.be/bbbbbbbbbbb") None None None None)
  /\ Minimal.job_id 1700000000000 = "yt-1700000000000"
  /\ Minimal.job_output "/app/temp" 1700000000000
     = "/app/temp/yt-1700000000000.%(ext)s"
  /\ fst (Minimal.download "/app/temp"
            (fun _ fs =>
               (None, ("/app/temp/yt-1700000000000.mp4",
                       mkFile 5000 1700000000500 true) :: fs))
            (Req.mkBody (Some "https://youtu.be/aaaaaaaaaaa") None None None None)
            1700000000000 [("/app/temp", mkFile 4096 0 false)])
     = Returned (Minimal.Ok "/file/yt-1700000000000.mp4" "video")
  /\ fst (Minimal.download "/app/temp"
            (fun _ fs =>
               (None, ("/app/temp/yt-1700000000000.mp4",
                       mkFile 5000 1700000000500 true) :: fs))
            (Req.mkBody (Some "https://youtu.be/bbbbbbbbbbb") None None None None)
            1700000000000
            [("/app/temp/yt-1700000000000.mp4", mkFile 5000 1700000000500 true);
             ("/app/temp", mkFile 4096 0 false)])
     = Returned (Minimal.Ok "/file/yt-1700000000000.mp4" "video")
  /\ Full.download_filename "9f1c2d3e-aaaa-4bbb-8ccc-123456789abc" 1700000000000 "video"
     = Full.download_filename "9f1c2d3e-dddd-4eee-8fff-cba987654321" 1700000000000 "video".
Proof.
  split; [vm_compute; discriminate |].
  repeat split; vm_compute; reflexivity.
Qed.

(** In the minimal variant [normalizeUrl] itself returns an unrecognised
    link as it is. *)
Lemma minimal_normalizeUrl_passes_through (url : string) :
  JS.truthy url = true ->
  Regex.search "youtube.com/shorts/" (Regex.at_least_one Regex.id_char) url = None ->
  Minimal.normalizeUrl (Some url) = Some url.
Proof.
  intros Ht Hs. unfold Minimal.normalizeUrl. cbn [truthy_field default].
  now rewrite Ht, Hs.
Qed.

End JobIds.

(** * Further properties *)

(** ** Sanitizer: fixed points *)

Section SanitizerMore.

Lemma chars_inj (s t : string) : JS.chars s = JS.chars t -> s = t.
Proof.
  intros H. rewrite <- (string_of_list_ascii_of_string s).
  rewrite <- (string_of_list_ascii_of_string t).
  unfold JS.chars in H. now rewrite H.
Qed.

Lemma filter_all {A : Type} (keep : A -> bool) (l : list A) :
  filter keep l = l <-> Forall (fun x => keep x = true) l.
Proof.
  induction l as [| a l IH]; cbn.
  - split; [constructor | reflexivity].
  - destruct (keep a) eqn:Ea.
    + split.
      * intros H. injection H as H1. constructor; [exact Ea |].
        now apply IH.
      * intros H. inversion H; subst. f_equal. now apply IH.
    + split.
      * intros H. exfalso.
        assert (Hlen : List.length (filter keep l) <= List.length l)
          by apply filter_length_le.
        rewrite H in Hlen. cbn in Hlen. lia.
      * intros H. inversion H; subst. congruence.
Qed.

(** The sanitizer returns its input exactly when the input holds none of
    the blocked characters, and sanitizing twice is sanitizing once. *)
Theorem sanitizeShellInput_fixed_points (input : string) :
  (sanitizeShellInput input = input
   <-> forall c, In c (JS.chars input) -> ~ In c Regex.shell_meta_chars)
  /\ sanitizeShellInput (sanitizeShellInput input) = sanitizeShellInput input.
Proof.
  assert (Hfix : forall s,
             sanitizeShellInput s = s
             <-> forall c, In c (JS.chars s) -> ~ In c Regex.shell_meta_chars).
  { intros s. split.
    - intros H c Hin Hmeta. rewrite <- H in Hin.
      apply sanitize_no_meta in Hin. apply shell_meta_spec in Hmeta. congruence.
    - intros H. apply chars_inj. rewrite sanitize_is_filter.
      apply filter_all. apply Forall_forall. intros c Hin.
      destruct (Regex.shell_meta c) eqn:E; [| reflexivity].
      apply shell_meta_spec in E. now elim (H c Hin). }
  split; [apply Hfix |].
  apply Hfix. intros c Hin Hmeta.
  apply sanitize_no_meta in Hin. apply shell_meta_spec in Hmeta. congruence.
Qed.

End SanitizerMore.

(** ** Source normalizer: what is recognised *)

Section NormalizerMore.

Lemma exactly_app (cls : ascii -> bool) (g rest : string) :
  Forall (fun c => cls c = true) (JS.chars g) ->
  Regex.exactly cls (String.length g) (g ++ rest) = Some g.
Proof.
  induction g as [| c g IH]; intros H; [reflexivity |].
  rewrite chars_cons in H. inversion H as [| ? ? Hc Hg]; subst.
  cbn. rewrite Hc, (IH Hg). reflexivity.
Qed.

Lemma exactly_prefix (cls : ascii -> bool) (n : nat) :
  forall s g, Regex.exactly cls n s = Some g -> exists rest, s = g ++ rest.
Proof.
  induction n as [| n IH]; intros s g H.
  - cbn in H. inversion H. now exists s.
  - destruct s as [| c s]; cbn in H; [discriminate |].
    destruct (cls c); [| discriminate].
    destruct (Regex.exactly cls n s) as [g' |] eqn:Eg; [| discriminate].
    inversion H; subst. destruct (IH _ _ Eg) as [rest Hr].
    exists rest. cbn. now rewrite <- Hr.
Qed.

(** A match found by the search is an occurrence of the literal followed by
    the group. *)
Lemma search_occurrence (lit : string) (cls : ascii -> bool) (n : nat) :
  forall s g, Regex.search lit (Regex.exactly cls n) s = Some g ->
    exists before after, s = before ++ lit ++ g ++ after.
Proof.
  assert (Hhere : forall s g,
             Regex.match_here lit (Regex.exactly cls n) s = Some g ->
             exists after, s = lit ++ g ++ after).
  { intros s g H. unfold Regex.match_here in H.
    destruct (JS.strip_prefix lit s) as [rest |] eqn:E; [| discriminate].
    apply strip_prefix_app in E. destruct (exactly_prefix _ _ _ _ H) as [after Ha].
    exists after. now rewrite E, Ha. }
  induction s as [| c s IH]; intros g H; cbn in H.
  - destruct (Regex.match_here lit _ "") as [g' |] eqn:E; [| discriminate].
    inversion H; subst. destruct (Hhere _ _ E) as [after Ha].
    exists "", after. exact Ha.
  - destruct (Regex.match_here lit _ (String c s)) as [g' |] eqn:E.
    + inversion H; subst. destruct (Hhere _ _ E) as [after Ha].
      exists "", after. exact Ha.
    + destruct (IH _ H) as [before [after Hs]].
      exists (String c before), after. cbn. now rewrite <- Hs.
Qed.

(** Every occurrence of the literal followed by [n] characters of the class
    is found, wherever it is. *)
Lemma search_finds_occurrence (lit : string) (cls : ascii -> bool)
      (before g after : string) :
  Forall (fun c => cls c = true) (JS.chars g) ->
  Regex.search lit (Regex.exactly cls (String.length g))
    (before ++ lit ++ g ++ after) <> None.
Proof.
  intros Hg.
  assert (Hhere : Regex.match_here lit (Regex.exactly cls (String.length g))
                    (lit ++ g ++ after) = Some g).
  { unfold Regex.match_here. rewrite strip_prefix_self. now apply exactly_app. }
  induction before as [| c before IH].
  - cbn [append]. destruct (lit ++ g ++ after) eqn:E; cbn; now rewrite Hhere.
  - cbn [append Regex.search].
    destruct (Regex.match_here lit _ (String c _)); [discriminate | exact IH].
Qed.

(** [normalizeUrl] answers [null] exactly for the empty string and for the
    strings in which none of the three link patterns occurs, at any
    position; every other answer is a watch link: either the canonical link
    of the 11 characters found, or the input itself, which then holds the
    watch pattern. *)
Theorem normalizeUrl_recognition (url : string) :
  (normalizeUrl url = None
   <-> url = ""
       \/ forall lit before id after,
            In lit ["youtube.com/shorts/"; "youtu.be/"; "youtube.com/watch?v="] ->
            String.length id = 11 ->
            Forall (fun c => Regex.id_char c = true) (JS.chars id) ->
            url <> before ++ lit ++ id ++ after)
  /\ (forall result, normalizeUrl url = Some result ->
        exists id before after,
          String.length id = 11
          /\ Forall (fun c => Regex.id_char c = true) (JS.chars id)
          /\ (result = watch_prefix ++ id
              /\ (url = before ++ "youtube.com/shorts/" ++ id ++ after
                  \/ url = before ++ "youtu.be/" ++ id ++ after)
              \/ result = url
                 /\ url = before ++ "youtube.com/watch?v=" ++ id ++ after)).
Proof.
  split.
  - split.
    + intros H. destruct url as [| c url']; [now left |]. right.
      intros lit before id after Hlit Hlen Hid Hurl.
      unfold normalizeUrl in H. cbn [JS.truthy negb] in H.
      assert (Hfound : Regex.search lit (Regex.exactly Regex.id_char 11)
                         (String c url') <> None).
      { rewrite Hurl, <- Hlen. now apply search_finds_occurrence. }
      destruct (Regex.search "youtube.com/shorts/" _ (String c url')) eqn:E1;
        [discriminate |].
      destruct (Regex.search "youtu.be/" _ (String c url')) eqn:E2;
        [discriminate |].
      destruct (Regex.search "youtube.com/watch?v=" _ (String c url')) eqn:E3;
        [discriminate |].
      cbn in Hlit. destruct Hlit as [<- | [<- | [<- | []]]]; congruence.
    + intros [-> | H]; [reflexivity |].
      destruct (normalizeUrl url) as [result |] eqn:En; [exfalso | reflexivity].
      unfold normalizeUrl in En.
      destruct (JS.truthy url); cbn [negb] in En; [| discriminate].
      destruct (Regex.search "youtube.com/shorts/" _ url) as [id |] eqn:E1.
      { destruct (search_sound _ _ _ _ _ E1) as [Hl Hc].
        destruct (search_occurrence _ _ _ _ _ E1) as [before [after Hu]].
        apply (H "youtube.com/shorts/" before id after);
          [simpl; auto | assumption | assumption | assumption]. }
      destruct (Regex.search "youtu.be/" _ url) as [id |] eqn:E2.
      { destruct (search_sound _ _ _ _ _ E2) as [Hl Hc].
        destruct (search_occurrence _ _ _ _ _ E2) as [before [after Hu]].
        apply (H "youtu.be/" before id after);
          [simpl; auto | assumption | assumption | assumption]. }
      destruct (Regex.search "youtube.com/watch?v=" _ url) as [id |] eqn:E3;
        [| discriminate].
      destruct (search_sound _ _ _ _ _ E3) as [Hl Hc].
      destruct (search_occurrence _ _ _ _ _ E3) as [before [after Hu]].
      apply (H "youtube.com/watch?v=" before id after);
          [simpl; auto | assumption | assumption | assumption].
  - intros result En. unfold normalizeUrl in En.
    destruct (JS.truthy url); cbn [negb] in En; [| discriminate].
    destruct (Regex.search "youtube.com/shorts/" _ url) as [id |] eqn:E1.
    { destruct (search_sound _ _ _ _ _ E1) as [Hl Hc].
      destruct (search_occurrence _ _ _ _ _ E1) as [before [after Hu]].
      injection En as <-. exists id, before, after.
      split; [assumption |]. split; [assumption |].
      left. split; [reflexivity |]. left. assumption. }
    destruct (Regex.search "youtu.be/" _ url) as [id |] eqn:E2.
    { destruct (search_sound _ _ _ _ _ E2) as [Hl Hc].
      destruct (search_occurrence _ _ _ _ _ E2) as [before [after Hu]].
      injection En as <-. exists id, before, after.
      split; [assumption |]. split; [assumption |].
      left. split; [reflexivity |]. right. assumption. }
    destruct (Regex.search "youtube.com/watch?v=" _ url) as [id |] eqn:E3;
      [| discriminate].
    destruct (search_sound _ _ _ _ _ E3) as [Hl Hc].
    destruct (search_occurrence _ _ _ _ _ E3) as [before [after Hu]].
    injection En as <-. exists id, before, after.
    split; [assumption |]. split; [assumption |].
    right. split; [reflexivity | assumption].
Qed.

End NormalizerMore.

(** ** Download operation: outcomes *)

Section DownloadOutcomes.

Variable TEMP_DIR : string.
Variable proc : Process.

(** [url.match] and [input.replace] on a value that is truthy and is not a
    string: the call throws. *)
Lemma receiver_fails {A : Type} (name method : string) (v : option Json.value)
      (k : string -> Eff A) (fs : FS) :
  Json.truthy v = true -> Json.as_string v = None ->
  bind (Json.receiver name method v) k fs
  = (Thrown (name ++ "." ++ method ++ " is not a function"), fs).
Proof.
  destruct v as [[| [|] | [|] text | s | items | members] |];
    cbn [Json.truthy Json.as_string negb]; intros Ht Hs;
    try discriminate; reflexivity.
Qed.

Lemma json_normalizeUrl_fails {A : Type} (url : option Json.value)
      (k : option string -> Eff A) (fs : FS) :
  Json.truthy url = true -> Json.as_string url = None ->
  bind (Json.normalizeUrl url) k fs = (Thrown "url.match is not a function", fs).
Proof.
  intros Ht Hs. unfold Json.normalizeUrl. rewrite Ht. cbn [negb].
  unfold bind at 1. now rewrite (receiver_fails "url" "match" url _ fs Ht Hs).
Qed.

Lemma json_normalizeUrl_string {A : Type} (link : string)
      (k : option string -> Eff A) (fs : FS) :
  JS.truthy link = true ->
  bind (Json.normalizeUrl (Some (Json.Str link))) k fs = k (normalizeUrl link) fs.
Proof.
  intros Ht. unfold Json.normalizeUrl. cbn [Json.truthy]. rewrite Ht. reflexivity.
Qed.

Lemma json_or_else_string (link : string) :
  Json.or_else (normalizeUrl link) (Some (Json.Str link))
  = Json.lit (normalizedUrl link).
Proof.
  unfold Json.or_else, normalizedUrl, or_else.
  destruct (normalizeUrl link) as [s |]; [destruct (JS.truthy s) |]; reflexivity.
Qed.

Lemma executeYtDlp_outcome (args : list string) (fs : FS) :
  executeYtDlp proc args fs
  = match proc (Shell (ytDlpCommand args)) fs with
    | (None, fs') => (Returned tt, fs')
    | (Some message, fs') => (Thrown ("yt-dlp failed: " ++ message), fs')
    end.
Proof.
  unfold executeYtDlp, try_catch, execPromise, throw.
  now destruct (proc _ fs) as [[message |] fs'].
Qed.

(** On elements that are strings, [Json.executeYtDlp] runs the command
    line of [ytDlpCommand]. *)
Lemma safe_args_of_strings (args : list string) (fs : FS) :
  map_eff Json.safe_arg (map Json.lit args) fs
  = (Returned (map (fun arg => dquote ++ sanitizeShellInput arg ++ dquote) args), fs).
Proof.
  induction args as [| arg args IH]; [reflexivity |].
  cbn [map map_eff]. unfold bind at 1.
  change (Json.safe_arg (Json.lit arg) fs)
    with (Returned (dquote ++ sanitizeShellInput arg ++ dquote), fs).
  cbv beta iota. unfold bind at 1. rewrite IH. reflexivity.
Qed.

Lemma json_executeYtDlp_strings (args : list string) (fs : FS) :
  Json.executeYtDlp proc (map Json.lit args) fs = executeYtDlp proc args fs.
Proof.
  unfold Json.executeYtDlp, executeYtDlp, ytDlpCommand. unfold bind at 1.
  now rewrite safe_args_of_strings.
Qed.

(** An element that is truthy and not a string ends the rendering of the
    elements: no command is run. *)
Lemma json_executeYtDlp_fails (front : list string) (bad : option Json.value)
      (rest : list (option Json.value)) (fs : FS) :
  Json.truthy bad = true -> Json.as_string bad = None ->
  Json.executeYtDlp proc (map Json.lit front ++ bad :: rest) fs
  = (Thrown "input.replace is not a function", fs).
Proof.
  intros Ht Hs. unfold Json.executeYtDlp. unfold bind at 1.
  assert (H : map_eff Json.safe_arg (map Json.lit front ++ bad :: rest) fs
              = (Thrown "input.replace is not a function", fs)).
  { induction front as [| arg front IH].
    - cbn [map app map_eff]. unfold Json.safe_arg at 1. unfold bind at 1.
      now rewrite (receiver_fails "input" "replace" bad _ fs Ht Hs).
    - cbn [map app map_eff]. unfold bind at 1.
      change (Json.safe_arg (Json.lit arg) fs)
        with (Returned (dquote ++ sanitizeShellInput arg ++ dquote), fs).
      cbv beta iota. unfold bind at 1. now rewrite IH. }
  now rewrite H.
Qed.

(** The argument vector holds strings only, unless the format id is truthy
    and not a string. *)
Lemma full_args_are_strings (source filepath : string)
      (type quality formatId : option Json.value) :
  Json.truthy formatId = false \/ Json.as_string formatId <> None ->
  exists args,
    Full.post_download_args (Json.lit source) filepath type quality formatId
    = map Json.lit args
    /\ hd_error args = Some source.
Proof.
  intros H. unfold Full.post_download_args.
  destruct (Json.truthy formatId) eqn:Ht.
  - destruct H as [H | H]; [discriminate |].
    destruct formatId as [[| b | zero text | f | items | members] |];
      cbn [Json.as_string] in H; try (now contradiction H).
    exists [source; "--no-playlist"; "--geo-bypass"; "--no-warnings"; "--quiet";
            "--force-ipv4"; "--concurrent-fragments"; "5"; "-o"; filepath; "-f"; f].
    split; reflexivity.
  - pose (front := [source; "--no-playlist"; "--geo-bypass"; "--no-warnings";
                     "--quiet"; "--force-ipv4"; "--concurrent-fragments"; "5";
                     "-o"; filepath]).
    destruct (Json.equals type "audio").
    { exists (front ++ ["-x"; "--audio-format"; "mp3"; "--audio-quality"; "192"])%list.
      split; reflexivity. }
    destruct (Json.equals quality "low").
    { exists (front ++ ["-f"; "best[height<=360]"])%list. split; reflexivity. }
    destruct (Json.equals quality "medium").
    { exists (front ++ ["-f"; "best[height<=720]"])%list. split; reflexivity. }
    destruct (Json.equals quality "high").
    { exists (front ++ ["-f"; "best[height<=1080]"])%list. split; reflexivity. }
    destruct (Json.equals quality "best").
    { exists (front ++ ["-f"; "best"])%list. split; reflexivity. }
    exists (front ++ ["-f"; "best[height<=720]"])%list. split; reflexivity.
Qed.

(** What the [catch] branch of the full variant leaves of the file system:
    the file at the output path is removed, if one is there and can be. *)
Lemma full_catch_cleans (filepath message : string) (fs : FS) :
  (try_catch
     (present <- existsSync filepath ;;
      if present then unlinkSync filepath else ret tt)
     (fun _ => ret tt) ;;;
   ret (Full.failure message)) fs
  = (Returned (Full.failure message), Full.cleaned filepath fs).
Proof.
  unfold Full.cleaned.
  cbv beta iota zeta delta [try_catch bind existsSync unlinkSync ret].
  destruct (Fs.lookup filepath fs) as [f |] eqn:Ef;
    repeat (progress (cbv beta iota; rewrite ?Ef)); [| reflexivity].
  destruct (removable f); reflexivity.
Qed.

(** POST [/download] of the full variant, for every body.
    - No [url], or a falsy one: 400, and nothing is run.
    - A [url] that is truthy and not a string: [normalizeUrl] throws before
      the [try]; the error escapes the handler and no answer is sent.
    - A [type] that cannot be rendered (an object with a member
      [toString]): the line for the log throws inside the [try]; the tool
      is not run, the handler removes what is at the output path and
      answers 500.
    - A format id that is truthy and not a string: the executor throws
      while it renders the arguments, with the same end.
    - Otherwise the tool is run on a command line of strings.  200 exactly
      when it ends with status zero and a file is at the output path
      afterwards, and then the handler leaves the file system as the tool
      left it; 500 otherwise, with the tool's message after
      [yt-dlp failed: ] or with [File not created], after the file at the
      output path has been removed. *)
Theorem full_download_outcomes
        (j : Json.body) (uuid : string) (now : Z) (origin : string) (fs : FS) :
  let url := Json.url j in
  let type := Json.default "video" (Json.type j) in
  let quality := Json.default "medium" (Json.quality j) in
  let formatId := Json.formatId j in
  let filepath := Path.join [TEMP_DIR; Full.post_download_filename uuid now type] in
  let run := Full.post_download TEMP_DIR proc j uuid now origin fs in
  (Json.truthy url = false ->
   run = (Returned (Json.mkReply 400 [("error", Json.Str "URL is required")]), fs))
  /\ (Json.truthy url = true -> Json.as_string url = None ->
      run = (Thrown "url.match is not a function", fs))
  /\ (forall link,
        url = Some (Json.Str link) -> JS.truthy link = true ->
        (forall e,
            Json.rendering type = Thrown e ->
            run = (Returned (Full.failure e), Full.cleaned filepath fs))
        /\ (forall text,
              Json.rendering type = Returned text ->
              (Json.truthy formatId = true -> Json.as_string formatId = None ->
               run = (Returned (Full.failure "input.replace is not a function"),
                      Full.cleaned filepath fs))
              /\ (Json.truthy formatId = false \/ Json.as_string formatId <> None ->
                  exists args,
                    Full.post_download_args (Json.lit (normalizedUrl link)) filepath
                      type quality formatId
                    = map Json.lit args
                    /\ hd_error args = Some (normalizedUrl link)
                    /\ let out := proc (Shell (ytDlpCommand args)) fs in
                       exists r fs',
                         run = (Returned r, fs')
                         /\ (Json.status r = 200%Z
                             <-> fst out = None
                                 /\ Fs.lookup filepath (snd out) <> None)
                         /\ (Json.status r = 200%Z -> fs' = snd out)
                         /\ (forall message,
                               fst out = Some message ->
                               r = Full.failure ("yt-dlp failed: " ++ message)
                               /\ fs' = Full.cleaned filepath (snd out))
                         /\ (fst out = None ->
                             Fs.lookup filepath (snd out) = None ->
                             r = Full.failure "File not created"
                             /\ fs' = snd out)))).
Proof.
  cbv zeta. split; [| split].
  - intros Ht. unfold Full.post_download. now rewrite Ht.
  - intros Ht Hs. unfold Full.post_download. rewrite Ht. cbn [negb].
    apply json_normalizeUrl_fails; assumption.
  - intros link Hurl Ht. unfold Full.post_download. rewrite Hurl.
    cbn [Json.truthy]. rewrite Ht. cbn [negb].
    rewrite json_normalizeUrl_string by exact Ht.
    cbv beta zeta. rewrite json_or_else_string.
    set (type := Json.default "video" (Json.type j)).
    set (quality := Json.default "medium" (Json.quality j)).
    set (filepath := Path.join [TEMP_DIR; Full.post_download_filename uuid now type]).
    match goal with
    | |- context [try_catch _ ?h] => set (handler := h)
    end.
    assert (Hcatch : forall message fs0,
               handler message fs0
               = (Returned (Full.failure message), Full.cleaned filepath fs0))
      by (intros; apply full_catch_cleans).
    clearbody handler.
    assert (Hlog : forall k : Eff Json.reply,
               try_catch
                 (Json.interpolate (Json.lit (normalizedUrl link)) ;;;
                  Json.interpolate type ;;; k) handler fs
               = match Json.rendering type with
                 | Returned _ => try_catch k handler fs
                 | Thrown e => handler e fs
                 end).
    { intros k. unfold try_catch, bind, Json.interpolate.
      cbn [Json.rendering Json.lit Json.toString].
      now destruct (Json.rendering type). }
    rewrite Hlog. clear Hlog.
    split.
    + intros e He. rewrite He. apply Hcatch.
    + intros text Htext. rewrite Htext. split.
      * intros Hf Hs. unfold try_catch. unfold bind at 1.
        assert (Hargs : Full.post_download_args (Json.lit (normalizedUrl link))
                          filepath type quality (Json.formatId j)
                        = (map Json.lit
                             [normalizedUrl link; "--no-playlist"; "--geo-bypass";
                              "--no-warnings"; "--quiet"; "--force-ipv4";
                              "--concurrent-fragments"; "5"; "-o"; filepath; "-f"]
                           ++ [Json.formatId j])%list).
        { unfold Full.post_download_args. now rewrite Hf. }
        rewrite Hargs, (json_executeYtDlp_fails _ _ _ fs Hf Hs).
        apply Hcatch.
      * intros Hf.
        destruct (full_args_are_strings (normalizedUrl link) filepath type quality
                    (Json.formatId j) Hf) as [args [Hargs Hhd]].
        exists args. split; [exact Hargs |]. split; [exact Hhd |]. cbv zeta.
        rewrite Hargs.
        cbv beta iota zeta delta [try_catch bind].
        rewrite json_executeYtDlp_strings, executeYtDlp_outcome.
        destruct (proc (Shell (ytDlpCommand args)) fs) as [[message |] fs1];
          cbv beta iota zeta delta [fst snd].
        -- rewrite Hcatch. eexists; eexists. split; [reflexivity |].
           split; [split; [discriminate | intros [H _]; discriminate] |].
           split; [discriminate |].
           split; [intros m Hm; injection Hm as <-; split; reflexivity
                  | discriminate].
        -- cbv beta iota zeta delta [existsSync statSync ret throw negb].
           destruct (Fs.lookup filepath fs1) as [g |] eqn:Eg;
             repeat (progress (cbv beta iota; rewrite ?Eg)).
           ++ eexists; eexists. split; [reflexivity |].
              split; [split; [intros _; split; [reflexivity | discriminate]
                             | reflexivity] |].
              split; [reflexivity |]. split; [discriminate | discriminate].
           ++ rewrite Hcatch.
              assert (Hc : Full.cleaned filepath fs1 = fs1)
                by (unfold Full.cleaned; now rewrite Eg).
              rewrite Hc.
              eexists; eexists. split; [reflexivity |].
              split; [split; [discriminate | intros [_ H]; now contradiction H] |].
              split; [discriminate |]. split; [discriminate |].
              intros _ _. split; reflexivity.
Qed.

(** POST [/download] of [server.js], for every body.
    - No [url], or a falsy one: 400, and nothing is run.
    - A [url] that is truthy and not a string: [normalizeUrl] throws inside
      the [try]; the handler answers 500 with the message of the
      [TypeError], and nothing is run.
    - Otherwise the command line is run.  200 exactly when it ends with
      status zero and a file is at the output path afterwards; 500
      otherwise, with the message of the error as it is or with
      [File not created].  The handler never changes the file system
      itself. *)
Theorem simple_download_outcomes
        (j : Json.body) (uuid origin : string) (fs : FS) :
  let url := Json.url j in
  let type := Json.default "video" (Json.type j) in
  let filepath :=
    Path.join [TEMP_DIR;
               uuid ++ "." ++ (if Json.equals type "audio" then "mp3" else "mp4")] in
  let run := Simple.post_download TEMP_DIR proc j uuid origin fs in
  (Json.truthy url = false ->
   run = (Returned (Json.mkReply 400 [("error", Json.Str "URL is required")]), fs))
  /\ (Json.truthy url = true -> Json.as_string url = None ->
      run = (Returned (Simple.failure "url.match is not a function"), fs))
  /\ (forall link,
        url = Some (Json.Str link) -> JS.truthy link = true ->
        let out :=
          proc (Shell (Simple.post_download_cmd type filepath (normalizedUrl link)))
            fs in
        exists r,
          run = (Returned r, snd out)
          /\ (Json.status r = 200%Z
              <-> fst out = None /\ Fs.lookup filepath (snd out) <> None)
          /\ (forall message, fst out = Some message -> r = Simple.failure message)
          /\ (fst out = None -> Fs.lookup filepath (snd out) = None ->
              r = Simple.failure "File not created")).
Proof.
  cbv zeta. split; [| split].
  - intros Ht. unfold Simple.post_download. now rewrite Ht.
  - intros Ht Hs. unfold Simple.post_download. rewrite Ht. cbn [negb].
    unfold try_catch. now rewrite json_normalizeUrl_fails.
  - intros link Hurl Ht. unfold Simple.post_download. rewrite Hurl.
    cbn [Json.truthy]. rewrite Ht. cbn [negb].
    unfold try_catch. rewrite json_normalizeUrl_string by exact Ht.
    cbv beta zeta. rewrite json_or_else_string.
    cbv beta iota zeta
        delta [bind Json.interpolate Json.rendering Json.lit Json.toString execPromise
               existsSync statSync ret throw negb].
    destruct (proc _ fs) as [[message |] fs1]; cbv beta iota zeta delta [fst snd].
    + eexists. split; [reflexivity |].
      split; [split; [discriminate | intros [H _]; discriminate] |].
      split; [intros m Hm; now injection Hm as <- | discriminate].
    + destruct (Fs.lookup _ fs1) as [g |] eqn:Eg;
        repeat (progress (cbv beta iota; rewrite ?Eg));
        (eexists; split; [reflexivity |]).
      * split; [split; [intros _; split; [reflexivity | discriminate]
                       | reflexivity] |].
        split; discriminate.
      * split; [split; [discriminate | intros [_ H]; now contradiction H] |].
        split; [discriminate | reflexivity].
Qed.

(** Once the [input] of the minimal variant is known, the command line is
    run and the artifact directory is listed. *)
Lemma minimal_settles (j : Json.body) (now : Z) (fs : FS) (input : string) :
  Minimal.post_download_input j fs = (Returned (Some input), fs) ->
  JS.truthy input = true ->
  let type := Json.default "video" (Json.type j) in
  let out := proc (Shell (Minimal.post_download_cmd TEMP_DIR type input now)) fs in
  exists r,
    Minimal.post_download TEMP_DIR proc j now fs = (Returned r, snd out)
    /\ (forall message, fst out = Some message -> r = Minimal.failure message)
    /\ (fst out = None -> Fs.lookup TEMP_DIR (snd out) = None ->
        r = Minimal.failure
              ("ENOENT: no such file or directory, scandir '" ++ TEMP_DIR ++ "'"))
    /\ (fst out = None -> Fs.lookup TEMP_DIR (snd out) <> None ->
        match filter (fun f => JS.startsWith f (Minimal.job_id now))
                (Fs.children TEMP_DIR (snd out)) with
        | [] => r = Minimal.failure "No output file"
        | first :: _ =>
            r = Json.mkReply 200
                  (Json.object [("downloadUrl", Json.lit ("/file/" ++ first));
                                ("type", type)])
        end).
Proof.
  intros Hin Ht. cbv zeta. unfold Minimal.post_download. unfold bind at 1.
  rewrite Hin. cbn [truthy_field default]. rewrite Ht. cbn [negb].
  cbv beta iota zeta
      delta [try_catch bind execPromise Minimal.job_files readdirSync_unguarded
             ret throw].
  destruct (proc _ fs) as [[message |] fs1]; cbv beta iota zeta delta [fst snd].
  - eexists. split; [reflexivity |].
    split; [intros m Hm; now injection Hm as <- |].
    split; discriminate.
  - destruct (Fs.lookup TEMP_DIR fs1) as [d |] eqn:Ed; cbv beta iota.
    + destruct (filter _ (Fs.children TEMP_DIR fs1)) as [| first others] eqn:Ef;
        (eexists; split; [reflexivity |]);
        (split; [discriminate |]);
        (split; [intros _ H; discriminate |]); intros _ _; reflexivity.
    + eexists. split; [reflexivity |]. split; [discriminate |].
      split; [reflexivity |]. intros _ H. now contradiction H.
Qed.

(** POST [/download] of the minimal variant, for every body.
    - A truthy [search] wins over [url]: it is rendered into the input
      [ytsearch1:...]; when it is an object that cannot be rendered, the
      error escapes the handler, for the input is computed before the
      [try].
    - Neither [search] nor [url]: 400.
    - A [url] that is truthy and not a string: [normalizeUrl] throws before
      the [try]; the error escapes and no answer is sent.
    - Otherwise the command line is run: 500 with the tool's message when
      it fails; 500 with the error of the listing when the artifact
      directory is missing; 500 with [No output file] when no entry starts
      with the job id; 200 with the first such entry otherwise.  The
      handler never changes the file system itself. *)
Theorem minimal_download_outcomes (j : Json.body) (now : Z) (fs : FS) :
  let url := Json.url j in
  let search := Json.search j in
  let type := Json.default "video" (Json.type j) in
  let run := Minimal.post_download TEMP_DIR proc j now fs in
  let settled (input : string) :=
    let out := proc (Shell (Minimal.post_download_cmd TEMP_DIR type input now)) fs in
    exists r,
      run = (Returned r, snd out)
      /\ (forall message, fst out = Some message -> r = Minimal.failure message)
      /\ (fst out = None -> Fs.lookup TEMP_DIR (snd out) = None ->
          r = Minimal.failure
                ("ENOENT: no such file or directory, scandir '" ++ TEMP_DIR ++ "'"))
      /\ (fst out = None -> Fs.lookup TEMP_DIR (snd out) <> None ->
          match filter (fun f => JS.startsWith f (Minimal.job_id now))
                  (Fs.children TEMP_DIR (snd out)) with
          | [] => r = Minimal.failure "No output file"
          | first :: _ =>
              r = Json.mkReply 200
                    (Json.object [("downloadUrl", Json.lit ("/file/" ++ first));
                                  ("type", type)])
          end) in
  (forall term,
      search = Some term -> Json.truthy search = true ->
      match Json.toString term with
      | Thrown e => run = (Thrown e, fs)
      | Returned text => settled ("ytsearch1:" ++ text)
      end)
  /\ (Json.truthy search = false -> Json.truthy url = false ->
      run = (Returned (Json.mkReply 400 [("error", Json.Str "No URL or search provided")]),
             fs))
  /\ (Json.truthy search = false -> Json.truthy url = true ->
      Json.as_string url = None ->
      run = (Thrown "url.match is not a function", fs))
  /\ (forall link input,
        Json.truthy search = false ->
        url = Some (Json.Str link) -> JS.truthy link = true ->
        Minimal.normalizeUrl (Some link) = Some input ->
        settled input).
Proof.
  cbv zeta. split; [| split; [| split]].
  - intros term Hsearch Ht.
    assert (Hin : Minimal.post_download_input j fs
                  = match Json.toString term with
                    | Returned text => (Returned (Some ("ytsearch1:" ++ text)), fs)
                    | Thrown e => (Thrown e, fs)
                    end).
    { unfold Minimal.post_download_input. rewrite Ht, Hsearch.
      unfold bind, Json.interpolate, Json.rendering, ret.
      now destruct (Json.toString term). }
    destruct (Json.toString term) as [text | e].
    + now apply (minimal_settles j now fs _ Hin).
    + unfold Minimal.post_download. unfold bind at 1. now rewrite Hin.
  - intros Hs Hu. unfold Minimal.post_download, Minimal.post_download_input.
    rewrite Hs, Hu. reflexivity.
  - intros Hs Hu Hn. unfold Minimal.post_download, Minimal.post_download_input.
    rewrite Hs, Hu. cbn [negb]. unfold bind at 1.
    now rewrite (receiver_fails "url" "match" _ _ fs Hu Hn).
  - intros link input Hs Hurl Ht Hin.
    apply (minimal_settles j now fs input).
    + unfold Minimal.post_download_input. rewrite Hs, Hurl.
      cbn [Json.truthy]. rewrite Ht. cbn [negb].
      unfold bind, Json.receiver, ret. now rewrite Hin.
    + unfold Minimal.normalizeUrl in Hin. cbn [truthy_field default] in Hin.
      rewrite Ht in Hin. cbn [negb] in Hin.
      destruct (Regex.search _ _ link); injection Hin as <-; [reflexivity | exact Ht].
Qed.

(** *** Bodies of strings

    On a body whose fields are strings, [post_download] sends what
    [download] answers: a property of [download] is a property of the
    handler on every such body. *)

Lemma truthy_of_string (o : option string) :
  Json.truthy (option_map Json.Str o) = truthy_field o.
Proof. now destruct o. Qed.

Lemma default_of_string (d : string) (o : option string) :
  Json.default d (option_map Json.Str o) = Json.lit (default d o).
Proof. now destruct o. Qed.

Lemma full_args_of_strings (b : Req.body) (uuid : string) (now : Z) :
  Full.post_download_args
    (Json.lit (normalizedUrl (default "" (Req.url b))))
    (Path.join [TEMP_DIR; Full.download_filename uuid now (default "video" (Req.type b))])
    (Json.lit (default "video" (Req.type b)))
    (Json.lit (default "medium" (Req.quality b)))
    (option_map Json.Str (Req.formatId b))
  = map Json.lit (Full.download_args TEMP_DIR b uuid now).
Proof.
  unfold Full.post_download_args, Full.download_args, Full.format_args.
  rewrite truthy_of_string. cbn [Json.equals Json.lit].
  destruct (truthy_field (Req.formatId b)) eqn:Hf.
  - destruct (Req.formatId b); [reflexivity | discriminate].
  - repeat match goal with
           | |- context [if ?c then _ else _] => destruct c
           end; reflexivity.
Qed.

Lemma full_post_download_on_strings
      (b : Req.body) (uuid : string) (now : Z) (origin : string) (fs : FS) :
  Full.post_download TEMP_DIR proc (Json.of_strings b) uuid now origin fs
  = Json.sent Full.reply_of (Full.download TEMP_DIR proc b uuid now origin fs).
Proof.
  unfold Full.post_download, Full.download, Json.of_strings.
  cbn [Json.url Json.type Json.quality Json.formatId].
  rewrite truthy_of_string.
  destruct (truthy_field (Req.url b)) eqn:Hurl; cbn [negb]; [| reflexivity].
  pose proof (full_args_of_strings b uuid now) as Hargs.
  destruct (Req.url b) as [link |] eqn:Eurl; [| discriminate].
  cbn [truthy_field option_map default] in *.
  rewrite json_normalizeUrl_string by exact Hurl. cbv beta zeta.
  rewrite json_or_else_string, !default_of_string.
  change (Full.post_download_filename uuid now (Json.lit ?t))
    with (Full.download_filename uuid now t).
  rewrite Hargs.
  change (Json.interpolate (Json.lit ?x)) with (fun fs0 : FS => (Returned x, fs0)).
  cbv beta iota zeta delta [try_catch bind Json.sent].
  rewrite json_executeYtDlp_strings, !executeYtDlp_outcome.
  destruct (proc _ fs) as [[message |] fs1];
    cbv beta iota zeta delta [existsSync statSync unlinkSync ret throw negb].
  - destruct (Fs.lookup _ fs1) as [g |] eqn:Eg;
      repeat (progress (cbv beta iota; rewrite ?Eg));
      [destruct (removable g) |]; reflexivity.
  - destruct (Fs.lookup _ fs1) as [g |] eqn:Eg;
      repeat (progress (cbv beta iota; rewrite ?Eg)); reflexivity.
Qed.

Lemma simple_post_download_on_strings
      (b : Req.body) (uuid origin : string) (fs : FS) :
  Simple.post_download TEMP_DIR proc (Json.of_strings b) uuid origin fs
  = Json.sent Simple.reply_of (Simple.download TEMP_DIR proc b uuid origin fs).
Proof.
  unfold Simple.post_download, Simple.download, Json.of_strings.
  cbn [Json.url Json.type].
  rewrite truthy_of_string.
  destruct (truthy_field (Req.url b)) eqn:Hurl; cbn [negb]; [| reflexivity].
  destruct (Req.url b) as [link |] eqn:Eurl; [| discriminate].
  cbn [truthy_field option_map default] in *.
  unfold try_catch. rewrite json_normalizeUrl_string by exact Hurl. cbv beta zeta.
  rewrite json_or_else_string, !default_of_string.
  change (Simple.post_download_cmd (Json.lit ?t) ?p ?u)
    with (Simple.download_cmd t p u).
  change (uuid ++ "." ++ (if Json.equals (Json.lit ?t) "audio" then "mp3" else "mp4"))
    with (Simple.download_filename uuid t).
  cbv beta iota zeta
      delta [bind Json.sent Json.interpolate Json.rendering Json.lit Json.toString
             execPromise existsSync statSync ret throw negb].
  destruct (proc _ fs) as [[message |] fs1]; [reflexivity |].
  destruct (Fs.lookup _ fs1) as [g |] eqn:Eg;
    repeat (progress (cbv beta iota; rewrite ?Eg)); reflexivity.
Qed.

Lemma minimal_input_of_strings (b : Req.body) (fs : FS) :
  Minimal.post_download_input (Json.of_strings b) fs
  = (Returned (Minimal.download_input b), fs).
Proof.
  unfold Minimal.post_download_input, Minimal.download_input, Json.of_strings.
  cbn [Json.url Json.search]. rewrite !truthy_of_string.
  destruct (truthy_field (Req.search b)) eqn:Hs.
  - destruct (Req.search b) as [term |]; [reflexivity | discriminate].
  - destruct (truthy_field (Req.url b)) eqn:Hu; cbn [negb].
    + destruct (Req.url b) as [link |]; [reflexivity | discriminate].
    + unfold Minimal.normalizeUrl. now rewrite Hu.
Qed.

Lemma minimal_post_download_on_strings (b : Req.body) (now : Z) (fs : FS) :
  Minimal.post_download TEMP_DIR proc (Json.of_strings b) now fs
  = Json.sent Minimal.reply_of (Minimal.download TEMP_DIR proc b now fs).
Proof.
  unfold Minimal.post_download, Minimal.download. unfold bind at 1.
  rewrite minimal_input_of_strings.
  destruct (Minimal.download_input b) as [input |]; [| reflexivity].
  cbn [truthy_field default].
  destruct (JS.truthy input); cbn [negb]; [| reflexivity].
  unfold Json.of_strings. cbn [Json.type]. rewrite default_of_string.
  change (Minimal.post_download_cmd TEMP_DIR (Json.lit ?t) ?i ?n)
    with (Minimal.download_cmd TEMP_DIR t i n).
  cbv beta iota zeta
      delta [try_catch bind Json.sent execPromise Minimal.job_files
             readdirSync_unguarded ret throw].
  destruct (proc _ fs) as [[message |] fs1]; [reflexivity |].
  destruct (Fs.lookup TEMP_DIR fs1) as [d |]; [| reflexivity].
  destruct (filter _ (Fs.children TEMP_DIR fs1)); reflexivity.
Qed.

(** The flags of a success response agree with each other: [isTooLarge]
    holds exactly when the size exceeds [maxAllowedMB] mebibytes; the limit
    is 64 for the type [video] and 16 for every other type, also for one
    that is not [audio] and is therefore fetched as an [mp4] video; and both
    links of the response name the file that was checked. *)
Theorem full_success_fields_agree
        (b : Req.body) (uuid : string) (now : Z) (origin : string) (fs fs' : FS)
        (s : Full.success) :
  Full.download TEMP_DIR proc b uuid now origin fs = (Returned (Full.Success s), fs') ->
  (Full.isTooLarge s = true
   <-> (Full.fileSize s > Full.maxAllowedMB s * 1024 * 1024)%Z)
  /\ Full.maxAllowedMB s = (if Full.type s =? "video" then 64%Z else 16%Z)
  /\ Full.type s = default "video" (Req.type b)
  /\ Full.filename s
     = JS.slice0 8 uuid ++ "-" ++ JS.of_Z now ++ "."
       ++ (if Full.type s =? "audio" then "mp3" else "mp4")
  /\ Full.downloadUrl s = origin ++ "/stream/" ++ Full.filename s
  /\ Full.directUrl s = origin ++ "/file/" ++ Full.filename s.
Proof.
  unfold Full.download. intros H.
  destruct (truthy_field (Req.url b)); cbn [negb] in H; [| discriminate].
  cbv beta iota zeta
      delta [try_catch bind executeYtDlp execPromise existsSync statSync
             unlinkSync ret throw negb] in H.
  destruct (proc _ fs) as [[message |] fs1].
  - destruct (Fs.lookup _ fs1) as [g |] eqn:Eg;
      repeat (progress (cbv beta iota in H; rewrite ?Eg in H));
      [destruct (removable g) |]; discriminate.
  - destruct (Fs.lookup _ fs1) as [g |] eqn:Eg;
      repeat (progress (cbv beta iota in H; rewrite ?Eg in H)); [| discriminate].
    inversion H; subst; clear H. cbn.
    split; [| repeat split].
    destruct (default "video" (Req.type b) =? "video");
      unfold Full.whatsappVideoLimit, Full.whatsappAudioLimit; lia.
Qed.

End DownloadOutcomes.

(** The body [{"url": 12345}].  In the full and in the minimal variant the
    [TypeError] leaves the handler; [server.js] answers 500. *)
Example url_that_is_a_number :
  let j := Json.mkBody (Some (Json.Number false "12345")) None None None None in
  let tool : Process := fun _ fs => (None, fs) in
  Full.post_download "/app/temp" tool j "9f1c2d3e-aaaa-4bbb-8ccc-123456789abc"
    1700000000000 "http://localhost:5000" [("/app/temp", mkFile 4096 0 false)]
  = (Thrown "url.match is not a function", [("/app/temp", mkFile 4096 0 false)])
  /\ Minimal.post_download "/app/temp" tool j 1700000000000
       [("/app/temp", mkFile 4096 0 false)]
     = (Thrown "url.match is not a function", [("/app/temp", mkFile 4096 0 false)])
  /\ Simple.post_download "/app/temp" tool j "9f1c2d3e-aaaa-4bbb-8ccc-123456789abc"
       "http://localhost:5000" [("/app/temp", mkFile 4096 0 false)]
     = (Returned
          (Json.mkReply 500
             [("error", Json.Str "Download failed");
              ("message", Json.Str "url.match is not a function")]),
        [("/app/temp", mkFile 4096 0 false)]).
Proof. repeat split. Qed.

(** A format id that is a number, and a [type] that cannot be rendered: the
    full variant answers 500 without running the tool. *)
Example full_format_id_that_is_a_number :
  let tool : Process := fun _ fs => (None, fs) in
  Full.post_download "/app/temp" tool
    (Json.mkBody (Some (Json.Str "https://youtu.be/dQw4w9WgXcQ")) None None None
       (Some (Json.Number false "22")))
    "9f1c2d3e-aaaa-4bbb-8ccc-123456789abc" 1700000000000 "http://localhost:5000" []
  = (Returned (Full.failure "input.replace is not a function"), [])
  /\ Full.post_download "/app/temp" tool
       (Json.mkBody (Some (Json.Str "https://youtu.be/dQw4w9WgXcQ")) None
          (Some (Json.Object [("toString", Json.Null)])) None None)
       "9f1c2d3e-aaaa-4bbb-8ccc-123456789abc" 1700000000000 "http://localhost:5000" []
     = (Returned (Full.failure "Cannot convert object to primitive value"), []).
Proof. split; vm_compute; reflexivity. Qed.

(** Search terms that are not strings, as the minimal variant renders
    them. *)
Example search_terms_rendered :
  Json.toString (Json.Array [Json.Str "a"; Json.Null; Json.Number false "3";
                             Json.Array [Json.Bool true; Json.Object []]])
  = Returned "a,,3,true,[object Object]"
  /\ Json.toString (Json.Array []) = Returned ""
  /\ Json.toString (Json.Object [("toString", Json.Number false "1")])
     = Thrown "Cannot convert object to primitive value"
  /\ Minimal.post_download_input
       (Json.mkBody None (Some (Json.Array [Json.Str "lofi"; Json.Str "mix"]))
          None None None) []
     = (Returned (Some "ytsearch1:lofi,mix"), []).
Proof. repeat split. Qed.

(** The minimal variant when the artifact directory is gone: the listing
    throws inside the [try]. *)
Example minimal_directory_missing :
  Minimal.post_download "/app/temp" (fun _ fs => (None, fs))
    (Json.mkBody (Some (Json.Str "https://youtu.be/dQw4w9WgXcQ")) None None None None)
    1700000000000 []
  = (Returned
       (Minimal.failure "ENOENT: no such file or directory, scandir '/app/temp'"),
     []).
Proof. vm_compute. reflexivity. Qed.

Lemma full_success_fields_agree_witness :
  (false = true <-> (5000 > 64 * 1024 * 1024)%Z)
  /\ 64%Z = (if "video" =? "video" then 64%Z else 16%Z)
  /\ "video" = default "video" None
  /\ "9f1c2d3e-1700000000000.mp4"
     = JS.slice0 8 "9f1c2d3e-aaaa-4bbb-8ccc-123456789abc" ++ "-"
       ++ JS.of_Z 1700000000000 ++ "."
       ++ (if "video" =? "audio" then "mp3" else "mp4")
  /\ "http://localhost:5000/stream/9f1c2d3e-1700000000000.mp4"
     = "http://localhost:5000" ++ "/stream/" ++ "9f1c2d3e-1700000000000.mp4"
  /\ "http://localhost:5000/file/9f1c2d3e-1700000000000.mp4"
     = "http://localhost:5000" ++ "/file/" ++ "9f1c2d3e-1700000000000.mp4".
Proof.
  apply (full_success_fields_agree "/app/temp"
           (fun _ fs =>
              (None, ("/app/temp/9f1c2d3e-1700000000000.mp4",
                      mkFile 5000 1700000000500 true) :: fs))
           (Req.mkBody (Some "https://youtu.be/dQw4w9WgXcQ") None None None None)
           "9f1c2d3e-aaaa-4bbb-8ccc-123456789abc" 1700000000000
           "http://localhost:5000" []
           [("/app/temp/9f1c2d3e-1700000000000.mp4", mkFile 5000 1700000000500 true)]
           {| Full.downloadId := "9f1c2d3e";
              Full.filename := "9f1c2d3e-1700000000000.mp4";
              Full.originalUrl := "https://youtu.be/dQw4w9WgXcQ";
              Full.type := "video";
              Full.quality := "medium";
              Full.fileSize := 5000;
              Full.isTooLarge := false;
              Full.maxAllowedMB := 64;
              Full.downloadUrl :=
                "http://localhost:5000/stream/9f1c2d3e-1700000000000.mp4";
              Full.directUrl :=
                "http://localhost:5000/file/9f1c2d3e-1700000000000.mp4" |}).
  vm_compute. reflexivity.
Defined.

(** ** Argument builder: format selection *)

Section FormatSelection.

Variable TEMP_DIR : string.

Lemma rendered_app (l1 l2 : list string) :
  fold_right (fun a acc => " " ++ dquote ++ sanitizeShellInput a ++ dquote ++ acc)
    "" (l1 ++ l2)
  = fold_right (fun a acc => " " ++ dquote ++ sanitizeShellInput a ++ dquote ++ acc)
      "" l1
    ++ fold_right (fun a acc => " " ++ dquote ++ sanitizeShellInput a ++ dquote ++ acc)
         "" l2.
Proof.
  induction l1 as [| a l1 IH]; [reflexivity |].
  cbn [app fold_right]. rewrite IH. now rewrite !append_assoc.
Qed.

Lemma ytDlpCommand_app (arg : string) (front rest : list string) :
  ytDlpCommand ((arg :: front) ++ rest)
  = ytDlpCommand (arg :: front)
    ++ fold_right
         (fun a acc => " " ++ dquote ++ sanitizeShellInput a ++ dquote ++ acc)
         "" rest.
Proof.
  change ((arg :: front) ++ rest)%list with (arg :: (front ++ rest))%list.
  rewrite !ytDlpCommand_rendering.
  change (arg :: (front ++ rest))%list with ((arg :: front) ++ rest)%list.
  rewrite rendered_app. now rewrite append_assoc.
Qed.

(** How the format is chosen, and what reaches the shell.  An explicit
    format id ends the vector as it is, whatever the type and the quality.
    Without one, the type [audio] adds the extraction flags and no format.
    Otherwise the quality picks a selector, an unknown quality being treated
    as [medium]; since every element goes through the sanitizer, the [<] of
    the selector is lost and the tool is asked for a height equal to the
    bound, not at most the bound. *)
Theorem full_format_selection (b : Req.body) (uuid : string) (now : Z) :
  exists front,
    List.length front = 10
    /\ hd_error front = Some (normalizedUrl (default "" (Req.url b)))
    /\ (truthy_field (Req.formatId b) = true ->
        Full.download_args TEMP_DIR b uuid now
        = (front ++ ["-f"; default "" (Req.formatId b)])%list)
    /\ (truthy_field (Req.formatId b) = false ->
        default "video" (Req.type b) = "audio" ->
        Full.download_args TEMP_DIR b uuid now
        = (front ++ ["-x"; "--audio-format"; "mp3"; "--audio-quality"; "192"])%list)
    /\ (truthy_field (Req.formatId b) = false ->
        default "video" (Req.type b) <> "audio" ->
        let quality := default "medium" (Req.quality b) in
        Full.download_args TEMP_DIR b uuid now
        = (front ++ ["-f";
                     if quality =? "low" then "best[height<=360]"
                     else if quality =? "high" then "best[height<=1080]"
                     else if quality =? "best" then "best"
                     else "best[height<=720]"])%list
        /\ ytDlpCommand (Full.download_args TEMP_DIR b uuid now)
           = ytDlpCommand front ++ " " ++ dquote ++ "-f" ++ dquote ++ " " ++ dquote
             ++ (if quality =? "low" then "best[height=360]"
                 else if quality =? "high" then "best[height=1080]"
                 else if quality =? "best" then "best"
                 else "best[height=720]")
             ++ dquote).
Proof.
  unfold Full.download_args, Full.format_args.
  eexists. split; [| split; [| split; [| split]]].
  3: { intros H. rewrite H. reflexivity. }
  - reflexivity.
  - reflexivity.
  - intros H Ha. rewrite H, Ha. reflexivity.
  - intros H Ha. rewrite H.
    apply String.eqb_neq in Ha. rewrite Ha. cbv zeta.
    destruct (default "medium" (Req.quality b) =? "low") eqn:E1.
    { split; [reflexivity |]. now rewrite ytDlpCommand_app. }
    destruct (default "medium" (Req.quality b) =? "medium") eqn:E2.
    { apply String.eqb_eq in E2. rewrite E2. cbn [String.eqb Ascii.eqb Bool.eqb].
      split; [reflexivity |]. now rewrite ytDlpCommand_app. }
    destruct (default "medium" (Req.quality b) =? "high") eqn:E3.
    { split; [reflexivity |]. now rewrite ytDlpCommand_app. }
    destruct (default "medium" (Req.quality b) =? "best") eqn:E4.
    { split; [reflexivity |]. now rewrite ytDlpCommand_app. }
    split; [reflexivity |]. now rewrite ytDlpCommand_app.
Qed.

End FormatSelection.

(** ** Paths inside the artifact directory *)

Section PathFacts.

Lemma includes_sep_cons (c : ascii) (s : string) :
  JS.includes (String c s) "/" = false ->
  Path.is_sep c = false /\ JS.includes s "/" = false.
Proof.
  cbn [JS.includes]. unfold JS.startsWith. cbn [JS.strip_prefix].
  unfold Path.is_sep. rewrite (Ascii.eqb_sym "/" c).
  destruct (Ascii.eqb c "/"); cbn; [discriminate |]. intros H. now split.
Qed.

Lemma plain_facts (seg : string) :
  Path.plain seg = true ->
  JS.truthy seg = true /\ JS.includes seg "/" = false
  /\ (seg =? ".") = false /\ (seg =? "..") = false.
Proof.
  unfold Path.plain. intros H.
  apply andb_prop in H. destruct H as [H H4].
  apply andb_prop in H. destruct H as [H H3].
  apply andb_prop in H. destruct H as [H1 H2].
  repeat split; [assumption | | |];
    match goal with
    | Hn : negb ?x = true |- ?x = false => now destruct x
    end.
Qed.

Lemma split_no_sep (s : string) :
  JS.includes s "/" = false -> Path.split s = [s].
Proof.
  induction s as [| c s IH]; intros H; [reflexivity |].
  apply includes_sep_cons in H. destruct H as [Hc Hs].
  cbn [Path.split]. rewrite Hc, (IH Hs). reflexivity.
Qed.

Lemma split_app_sep (a b : string) :
  JS.includes a "/" = false ->
  Path.split (a ++ "/" ++ b) = a :: Path.split b.
Proof.
  induction a as [| c a IH]; intros H; [reflexivity |].
  apply includes_sep_cons in H. destruct H as [Hc Ha].
  cbn [append Path.split]. rewrite Hc.
  change (a ++ String "/" b) with (a ++ "/" ++ b). now rewrite (IH Ha).
Qed.

Lemma split_join (seg : string) (segs : list string) :
  Forall (fun x => JS.includes x "/" = false) (seg :: segs) ->
  Path.split (JS.join "/" (seg :: segs)) = seg :: segs.
Proof.
  revert seg. induction segs as [| y segs IH]; intros seg H.
  - inversion H; subst. now apply split_no_sep.
  - inversion H as [| ? ? Hseg Hrest]; subst.
    rewrite join_cons, split_app_sep by assumption. now rewrite IH.
Qed.

Lemma resolve_plain (allow : bool) (segs : list string) :
  Forall (fun x => Path.plain x = true) segs ->
  forall stack, Path.resolve_segments allow stack segs = (rev stack ++ segs)%list.
Proof.
  induction segs as [| seg segs IH]; intros H stack.
  - cbn. now rewrite app_nil_r.
  - inversion H as [| ? ? Hseg Hrest]; subst.
    destruct (plain_facts _ Hseg) as [Ht [_ [Hdot Hdots]]].
    cbn [Path.resolve_segments]. rewrite Hdot, Hdots.
    assert (He : (seg =? "") = false).
    { destruct seg; [discriminate | reflexivity]. }
    rewrite He. cbn [orb]. rewrite (IH Hrest). cbn [rev].
    now rewrite <- app_assoc.
Qed.

Lemma ends_with_sep_no_sep (s : string) :
  JS.includes s "/" = false -> Path.ends_with_sep s = false.
Proof.
  induction s as [| c s IH]; intros H; [reflexivity |].
  apply includes_sep_cons in H. destruct H as [Hc Hs].
  cbn [Path.ends_with_sep]. destruct s; [exact Hc | now apply IH].
Qed.

Lemma ends_with_sep_app (a b : string) :
  JS.truthy b = true -> Path.ends_with_sep (a ++ b) = Path.ends_with_sep b.
Proof.
  intros Hb. induction a as [| c a IH]; [reflexivity |].
  cbn [append Path.ends_with_sep].
  destruct (a ++ b) eqn:E; [| exact IH].
  destruct a; cbn in E; [subst b; discriminate | discriminate].
Qed.

Lemma join_truthy (seg : string) (segs : list string) :
  JS.truthy seg = true -> JS.truthy (JS.join "/" (seg :: segs)) = true.
Proof.
  intros H. destruct segs; [exact H |].
  rewrite join_cons. destruct seg; [discriminate | reflexivity].
Qed.

Lemma ends_with_sep_join (seg : string) (segs : list string) :
  Forall (fun x => Path.plain x = true) (seg :: segs) ->
  Path.ends_with_sep (JS.join "/" (seg :: segs)) = false.
Proof.
  revert seg. induction segs as [| y segs IH]; intros seg H.
  - inversion H; subst. apply ends_with_sep_no_sep.
    now apply plain_facts.
  - inversion H as [| ? ? Hseg Hrest]; subst.
    rewrite join_cons.
    assert (Hy : JS.truthy (JS.join "/" (y :: segs)) = true).
    { apply join_truthy. inversion Hrest; subst. now apply plain_facts. }
    rewrite ends_with_sep_app.
    + rewrite ends_with_sep_app by exact Hy. now apply IH.
    + reflexivity.
Qed.

(** An absolute path made of plain segments is its own normal form. *)
Lemma normalize_plain (seg : string) (segs : list string) :
  Forall (fun x => Path.plain x = true) (seg :: segs) ->
  Path.normalize ("/" ++ JS.join "/" (seg :: segs)) = "/" ++ JS.join "/" (seg :: segs).
Proof.
  intros H.
  assert (Hsep : Forall (fun x => JS.includes x "/" = false) (seg :: segs)).
  { eapply Forall_impl; [| exact H]. intros x Hx. now apply plain_facts. }
  assert (Ht : JS.truthy (JS.join "/" (seg :: segs)) = true).
  { apply join_truthy. inversion H; subst. now apply plain_facts. }
  unfold Path.normalize.
  change (JS.truthy ("/" ++ _)) with true.
  change (JS.startsWith ("/" ++ ?x) "/") with true.
  cbn [negb].
  change ("/" ++ JS.join "/" (seg :: segs)) with ("" ++ "/" ++ JS.join "/" (seg :: segs)).
  rewrite split_app_sep by reflexivity.
  rewrite split_join by exact Hsep.
  change (Path.resolve_segments false [] ("" :: seg :: segs))
    with (Path.resolve_segments false [] (seg :: segs)).
  rewrite (resolve_plain false _ H []). cbn [rev app].
  rewrite Ht. cbn [negb].
  rewrite ends_with_sep_app by reflexivity.
  rewrite ends_with_sep_app by exact Ht.
  now rewrite (ends_with_sep_join _ _ H).
Qed.

Lemma join_snoc (seg : string) (segs : list string) (name : string) :
  JS.join "/" ((seg :: segs) ++ [name]) = JS.join "/" (seg :: segs) ++ "/" ++ name.
Proof.
  revert seg. induction segs as [| y segs IH]; intros seg; [reflexivity |].
  change ((seg :: y :: segs) ++ [name])%list with (seg :: ((y :: segs) ++ [name]))%list.
  change ((y :: segs) ++ [name])%list with (y :: (segs ++ [name]))%list.
  rewrite join_cons, join_cons.
  change (y :: (segs ++ [name]))%list with ((y :: segs) ++ [name])%list.
  rewrite IH. now rewrite !append_assoc.
Qed.

(** Joining a directory made of plain segments with a plain name appends the
    name: the path stays in the directory. *)
Lemma path_join_plain (seg : string) (segs : list string) (name : string) :
  Forall (fun x => Path.plain x = true) (seg :: segs) ->
  Path.plain name = true ->
  Path.join ["/" ++ JS.join "/" (seg :: segs); name]
  = ("/" ++ JS.join "/" (seg :: segs)) ++ "/" ++ name.
Proof.
  intros Hsegs Hname.
  destruct (plain_facts _ Hname) as [Ht _].
  unfold Path.join. cbn [filter]. change (JS.truthy ("/" ++ _)) with true.
  rewrite Ht. cbv beta iota. rewrite join_cons.
  change (JS.join "/" [name]) with name.
  rewrite append_assoc, <- join_snoc.
  change ((seg :: segs) ++ [name])%list with (seg :: (segs ++ [name]))%list.
  apply normalize_plain.
  change (seg :: (segs ++ [name]))%list with ((seg :: segs) ++ [name])%list.
  apply Forall_app. split; [exact Hsegs | now constructor].
Qed.

End PathFacts.

(** ** Garbage collector: what a sweep leaves *)

Section SweepMore.

Variable TEMP_DIR : string.
Variables maxAge now : Z.

Lemma children_spec (dir name : string) (fs : FS) :
  In name (Fs.children dir fs)
  <-> exists p f, In (p, f) fs /\ Fs.child_name dir p = Some name.
Proof.
  induction fs as [| [q g] fs IH]; cbn [Fs.children].
  - split; [contradiction | intros [p [f [H _]]]; contradiction].
  - destruct (Fs.child_name dir q) as [n |] eqn:En.
    + split.
      * intros [<- | H].
        -- exists q, g. split; [now left | exact En].
        -- apply IH in H. destruct H as [p [f [Hin Hc]]].
           exists p, f. split; [now right | exact Hc].
      * intros [p [f [[Heq | Hin] Hc]]].
        -- inversion Heq; subst. rewrite En in Hc. inversion Hc. now left.
        -- right. apply IH. now exists p, f.
    + split.
      * intros H. apply IH in H. destruct H as [p [f [Hin Hc]]].
        exists p, f. split; [now right | exact Hc].
      * intros [p [f [[Heq | Hin] Hc]]].
        -- inversion Heq; subst. congruence.
        -- apply IH. now exists p, f.
Qed.

Lemma lookup_in (p : string) (f : file) (fs : FS) :
  Fs.lookup p fs = Some f -> In (p, f) fs.
Proof.
  induction fs as [| [q g] fs IH]; cbn; [discriminate |].
  destruct (q =? p) eqn:E.
  - intros H. inversion H; subst. apply String.eqb_eq in E. subst. now left.
  - intros H. right. now apply IH.
Qed.

Lemma in_lookup (p : string) (f : file) (fs : FS) :
  In (p, f) fs -> exists g, Fs.lookup p fs = Some g.
Proof.
  induction fs as [| [q g] fs IH]; cbn; [contradiction |].
  intros [H | H].
  - inversion H; subst. rewrite String.eqb_refl. now exists f.
  - destruct (q =? p); [now exists g | now apply IH].
Qed.

(** One step either leaves the file system as it is or removes the path it
    examined. *)
Lemma cleanup_entry_structure (file : string) (fs : FS) :
  cleanup_entry TEMP_DIR maxAge now file fs = (Returned tt, fs)
  \/ cleanup_entry TEMP_DIR maxAge now file fs
     = (Returned tt, Fs.remove (Path.join [TEMP_DIR; file]) fs).
Proof.
  unfold cleanup_entry, try_catch, bind, statSync, unlinkSync, ret.
  destruct (Fs.lookup (Path.join [TEMP_DIR; file]) fs) as [f |] eqn:Ef;
    [| now left].
  destruct (now - mtimeMs f >? maxAge)%Z; [| now left].
  rewrite Ef. destruct (removable f); [now right | now left].
Qed.

Lemma forEach_cleanup_incl (files : list string) :
  forall fs fs',
    forEach files (cleanup_entry TEMP_DIR maxAge now) fs = (Returned tt, fs') ->
    forall e, In e fs' -> In e fs.
Proof.
  induction files as [| file files IH]; intros fs fs' Hrun e He; cbn in Hrun.
  - unfold ret in Hrun. now inversion Hrun; subst.
  - unfold bind in Hrun.
    destruct (cleanup_entry_structure file fs) as [H1 | H1]; rewrite H1 in Hrun.
    + exact (IH _ _ Hrun e He).
    + pose proof (IH _ _ Hrun e He) as Hin. unfold Fs.remove in Hin.
      apply filter_In in Hin. tauto.
Qed.

(** When the loop is over, no listed name leads to a file that is both
    older than [maxAge] and removable. *)
Lemma forEach_cleanup_settled (files : list string) :
  forall fs fs',
    forEach files (cleanup_entry TEMP_DIR maxAge now) fs = (Returned tt, fs') ->
    forall name f, In name files ->
      Fs.lookup (Path.join [TEMP_DIR; name]) fs' = Some f ->
      (now - mtimeMs f >? maxAge)%Z && removable f = false.
Proof.
  induction files as [| file files IH]; intros fs fs' Hrun name f Hin Hf;
    cbn in Hrun; [contradiction |].
  unfold bind in Hrun. destruct (cleanup_entry_spec TEMP_DIR maxAge now file fs)
    as [fs1 [H1 Hl]].
  rewrite H1 in Hrun. destruct Hin as [<- | Hin]; [| exact (IH _ _ Hrun _ _ Hin Hf)].
  destruct (forEach_cleanup_same_or_gone TEMP_DIR maxAge now files _ _
              (Path.join [TEMP_DIR; file]) Hrun) as [Hsame | Hgone];
    [| congruence].
  rewrite Hf in Hsame. symmetry in Hsame. rewrite Hl in Hsame.
  destruct (Fs.lookup (Path.join [TEMP_DIR; file]) fs) as [g |] eqn:Eg;
    [| discriminate].
  rewrite String.eqb_refl, andb_true_r in Hsame.
  destruct ((now - mtimeMs g >? maxAge)%Z && removable g) eqn:Ec; [discriminate |].
  now inversion Hsame; subst.
Qed.

(** A loop over names that are all settled changes nothing. *)
Lemma forEach_cleanup_noop (files : list string) (fs : FS) :
  (forall name f, In name files ->
     Fs.lookup (Path.join [TEMP_DIR; name]) fs = Some f ->
     (now - mtimeMs f >? maxAge)%Z && removable f = false) ->
  forEach files (cleanup_entry TEMP_DIR maxAge now) fs = (Returned tt, fs).
Proof.
  induction files as [| file files IH]; intros H; [reflexivity |].
  cbn [forEach]. unfold bind.
  assert (Hstep : cleanup_entry TEMP_DIR maxAge now file fs = (Returned tt, fs)).
  { unfold cleanup_entry, try_catch, bind, statSync, unlinkSync, ret.
    destruct (Fs.lookup (Path.join [TEMP_DIR; file]) fs) as [f |] eqn:Ef;
      [| reflexivity].
    specialize (H file f (or_introl eq_refl) Ef).
    destruct (now - mtimeMs f >? maxAge)%Z; [| reflexivity].
    rewrite Ef. cbn [andb] in H. now rewrite H. }
  rewrite Hstep. apply IH. intros name g Hin. apply H. now right.
Qed.

(** A sweep only removes entries, and a second sweep at the same instant
    finds nothing left to remove. *)
Theorem sweep_idempotent (fs : FS) :
  exists fs',
    cleanupOldFiles TEMP_DIR maxAge now fs = (Returned tt, fs')
    /\ (forall e, In e fs' -> In e fs)
    /\ cleanupOldFiles TEMP_DIR maxAge now fs' = (Returned tt, fs').
Proof.
  rewrite cleanup_unfold.
  destruct (Fs.lookup TEMP_DIR fs) as [d |] eqn:Ed.
  - destruct (forEach_cleanup_returns TEMP_DIR maxAge now (Fs.children TEMP_DIR fs) fs)
      as [fs' Hrun].
    exists fs'. split; [exact Hrun |].
    pose proof (forEach_cleanup_incl _ _ _ Hrun) as Hincl.
    split; [exact Hincl |].
    rewrite cleanup_unfold. destruct (Fs.lookup TEMP_DIR fs') as [d' |]; [| reflexivity].
    apply forEach_cleanup_noop. intros name f Hin Hf.
    apply (forEach_cleanup_settled _ _ _ Hrun name f); [| exact Hf].
    apply children_spec in Hin. destruct Hin as [p [g [Hin Hc]]].
    apply children_spec. exists p, g. split; [now apply Hincl | exact Hc].
  - exists fs. split; [reflexivity |]. split; [auto |].
    rewrite cleanup_unfold. now rewrite Ed.
Qed.

End SweepMore.

Section SweepDirectory.

Variable TEMP_DIR : string.
Variables maxAge now : Z.

Lemma child_name_plain (d name : string) :
  Path.plain name = true -> Fs.child_name d (d ++ "/" ++ name) = Some name.
Proof.
  intros H. destruct (plain_facts _ H) as [Ht [Hs _]].
  unfold Fs.child_name. rewrite <- append_assoc, strip_prefix_self.
  now rewrite Ht, Hs.
Qed.

Lemma child_name_path (d p name : string) :
  Fs.child_name d p = Some name -> p = d ++ "/" ++ name.
Proof.
  unfold Fs.child_name. intros H.
  destruct (JS.strip_prefix (d ++ "/") p) as [rest |] eqn:E; [| discriminate].
  destruct (JS.truthy rest && negb (JS.includes rest "/")); [| discriminate].
  inversion H; subst. apply strip_prefix_app in E. now rewrite E, append_assoc.
Qed.

(** With the artifact directory at an absolute path of plain segments, a
    sweep removes every entry of the directory that is older than [maxAge]
    and can be unlinked, and every entry it leaves is not older than
    [maxAge] or cannot be unlinked. *)
Theorem sweep_clears_artifact_directory
        (seg : string) (segs : list string) (fs : FS) :
  TEMP_DIR = "/" ++ JS.join "/" (seg :: segs) ->
  Forall (fun x => Path.plain x = true) (seg :: segs) ->
  Fs.lookup TEMP_DIR fs <> None ->
  exists fs',
    cleanupOldFiles TEMP_DIR maxAge now fs = (Returned tt, fs')
    /\ (forall name f,
          Path.plain name = true ->
          Fs.lookup (TEMP_DIR ++ "/" ++ name) fs = Some f ->
          (now - mtimeMs f > maxAge)%Z -> removable f = true ->
          Fs.lookup (TEMP_DIR ++ "/" ++ name) fs' = None
          /\ ~ In name (Fs.children TEMP_DIR fs'))
    /\ (forall name,
          In name (Fs.children TEMP_DIR fs') -> Path.plain name = true ->
          exists f,
            Fs.lookup (TEMP_DIR ++ "/" ++ name) fs' = Some f
            /\ ((now - mtimeMs f <= maxAge)%Z \/ removable f = false)).
Proof.
  intros Hform Hsegs Hdir.
  assert (Hjoin : forall name, Path.plain name = true ->
                    Path.join [TEMP_DIR; name] = TEMP_DIR ++ "/" ++ name).
  { intros name Hname. rewrite Hform. now apply path_join_plain. }
  clear Hform Hsegs. rewrite cleanup_unfold.
  destruct (Fs.lookup TEMP_DIR fs) as [d |] eqn:Ed; [| now contradiction Hdir].
  destruct (forEach_cleanup_returns TEMP_DIR maxAge now (Fs.children TEMP_DIR fs) fs)
    as [fs' Hrun].
  exists fs'. split; [exact Hrun |]. split.
  - intros name f Hname Hf Hage Hrm.
    assert (Hgone : Fs.lookup (TEMP_DIR ++ "/" ++ name) fs' = None).
    { rewrite <- (Hjoin name Hname).
      apply (forEach_cleanup_removes TEMP_DIR maxAge now _ _ _ _ f Hrun).
      - apply children_spec. exists (TEMP_DIR ++ "/" ++ name), f.
        split; [now apply lookup_in | now apply child_name_plain].
      - now rewrite (Hjoin name Hname).
      - exact Hage.
      - exact Hrm. }
    split; [exact Hgone |].
    intros Hin. apply children_spec in Hin. destruct Hin as [p [g [Hin Hc]]].
    apply child_name_path in Hc. subst p.
    destruct (in_lookup _ _ _ Hin) as [g' Hg']. congruence.
  - intros name Hin Hname.
    pose proof Hin as Hin'.
    apply children_spec in Hin. destruct Hin as [p [g [Hin Hc]]].
    apply child_name_path in Hc. subst p.
    destruct (in_lookup _ _ _ Hin) as [f Hf]. exists f. split; [exact Hf |].
    assert (Hlisted : In name (Fs.children TEMP_DIR fs)).
    { apply children_spec in Hin'. destruct Hin' as [p [h [Hp Hc]]].
      apply children_spec. exists p, h.
      split; [exact (forEach_cleanup_incl TEMP_DIR maxAge now _ _ _ Hrun _ Hp)
             | exact Hc]. }
    pose proof (forEach_cleanup_settled TEMP_DIR maxAge now _ _ _ Hrun name f Hlisted)
      as Hs.
    rewrite (Hjoin name Hname) in Hs.
    specialize (Hs Hf). apply andb_false_iff in Hs.
    destruct Hs as [Hs | Hs]; [left; lia | now right].
Qed.

End SweepDirectory.

Lemma sweep_clears_artifact_directory_witness :
  exists fs',
    cleanupOldFiles "/app/temp" Full.maxAge 9000000
      [("/app/temp", mkFile 4096 0 false);
       ("/app/temp/old.mp4", mkFile 1000 0 true);
       ("/app/temp/new.mp4", mkFile 2000 8000000 true)] = (Returned tt, fs')
    /\ Fs.lookup "/app/temp/old.mp4" fs' = None
    /\ ~ In "old.mp4" (Fs.children "/app/temp" fs').
Proof.
  destruct (sweep_clears_artifact_directory "/app/temp" Full.maxAge 9000000
              "app" ["temp"]
              [("/app/temp", mkFile 4096 0 false);
               ("/app/temp/old.mp4", mkFile 1000 0 true);
               ("/app/temp/new.mp4", mkFile 2000 8000000 true)])
    as [fs' [Hrun [Hold _]]].
  - reflexivity.
  - repeat constructor.
  - discriminate.
  - exists fs'. split; [exact Hrun |].
    apply (Hold "old.mp4" (mkFile 1000 0 true)); reflexivity.
Defined.

(** ** Maintenance endpoints *)

Section Maintenance.

Variable TEMP_DIR : string.

Lemma forEach_cleanup_keeps_unremovable (maxAge now : Z) (files : list string) :
  forall fs fs' p f,
    forEach files (cleanup_entry TEMP_DIR maxAge now) fs = (Returned tt, fs') ->
    Fs.lookup p fs = Some f -> removable f = false ->
    Fs.lookup p fs' = Some f.
Proof.
  induction files as [| file files IH]; intros fs fs' p f Hrun Hp Hrm; cbn in Hrun.
  - unfold ret in Hrun. now inversion Hrun; subst.
  - unfold bind in Hrun.
    destruct (cleanup_entry_spec TEMP_DIR maxAge now file fs) as [fs1 [H1 Hl]].
    rewrite H1 in Hrun. apply (IH _ _ _ _ Hrun); [| exact Hrm].
    rewrite Hl. destruct (Fs.lookup (Path.join [TEMP_DIR; file]) fs) as [g |] eqn:Eg;
      [| exact Hp].
    destruct (Path.join [TEMP_DIR; file] =? p) eqn:Epq.
    + apply String.eqb_eq in Epq. rewrite Epq in Eg. rewrite Hp in Eg.
      inversion Eg; subst g. now rewrite Hrm, andb_false_r.
    + now rewrite andb_false_r.
Qed.

Lemma in_firstn {A : Type} (n : nat) (l : list A) (x : A) :
  In x (firstn n l) -> In x l.
Proof.
  revert l. induction n as [| n IH]; intros [| a l] H; cbn in H;
    try contradiction.
  destruct H as [-> | H]; [now left | right; now apply IH].
Qed.

(** GET [/health] fails when the artifact directory is missing, since the
    listing is not guarded: in every answer it gives, [tempDir] is [true],
    and [tempFiles] counts the entries of the directory. *)
Theorem health_never_reports_missing_directory (fs : FS) :
  (Fs.lookup TEMP_DIR fs = None ->
   exists message, Full.health TEMP_DIR fs = (Thrown message, fs))
  /\ (forall body fs',
        Full.health TEMP_DIR fs = (Returned body, fs') ->
        Full.tempDir body = true
        /\ Full.tempFiles body = List.length (Fs.children TEMP_DIR fs)
        /\ fs' = fs).
Proof.
  unfold Full.health, bind, existsSync, readdirSync_unguarded, ret.
  destruct (Fs.lookup TEMP_DIR fs) as [d |].
  - split; [discriminate |]. intros body fs' H. inversion H; subst. auto.
  - split; [intros _; eexists; reflexivity | discriminate].
Qed.

(** GET [/cleanup] sweeps and then reports what the directory holds: the
    count of the entries left and the first ten of them, none of which is
    both older than two hours and removable.  It fails when the directory is
    missing. *)
Theorem cleanup_endpoint_reports_what_is_left (now : Z) (fs : FS) :
  (Fs.lookup TEMP_DIR fs = None ->
   exists message, Full.cleanup TEMP_DIR now fs = (Thrown message, fs))
  /\ (forall d,
        Fs.lookup TEMP_DIR fs = Some d -> removable d = false ->
        exists body fs',
          Full.cleanup TEMP_DIR now fs = (Returned body, fs')
          /\ cleanupOldFiles TEMP_DIR Full.maxAge now fs = (Returned tt, fs')
          /\ Full.filesRemaining body = List.length (Fs.children TEMP_DIR fs')
          /\ Full.files body = firstn 10 (Fs.children TEMP_DIR fs')
          /\ List.length (Full.files body) <= 10
          /\ (forall name f,
                In name (Full.files body) ->
                Fs.lookup (Path.join [TEMP_DIR; name]) fs' = Some f ->
                (now - mtimeMs f <= Full.maxAge)%Z \/ removable f = false)).
Proof.
  split.
  - intros Hd. unfold Full.cleanup, bind. rewrite cleanup_unfold, Hd.
    unfold readdirSync_unguarded. rewrite Hd. eexists. reflexivity.
  - intros d Hd Hrm.
    pose proof (cleanup_unfold TEMP_DIR Full.maxAge now fs) as Hu. rewrite Hd in Hu.
    destruct (forEach_cleanup_returns TEMP_DIR Full.maxAge now
                (Fs.children TEMP_DIR fs) fs) as [fs' Hrun].
    rewrite Hrun in Hu.
    pose proof (forEach_cleanup_keeps_unremovable _ _ _ _ _ _ _ Hrun Hd Hrm) as Hd'.
    eexists. exists fs'. split.
    { unfold Full.cleanup, bind. rewrite Hu.
      unfold readdirSync_unguarded. rewrite Hd'. reflexivity. }
    split; [exact Hu |]. split; [reflexivity |]. split; [reflexivity |].
    split; [cbn [Full.files]; apply firstn_le_length |].
    intros name f Hin Hf. cbn [Full.files] in Hin.
    apply in_firstn in Hin.
    assert (Hlisted : In name (Fs.children TEMP_DIR fs)).
    { apply children_spec in Hin. destruct Hin as [p [h [Hp Hc]]].
      apply children_spec. exists p, h.
      split; [exact (forEach_cleanup_incl _ _ _ _ _ _ Hrun _ Hp) | exact Hc]. }
    pose proof (forEach_cleanup_settled _ _ _ _ _ _ Hrun name f Hlisted Hf) as Hs.
    apply andb_false_iff in Hs. destruct Hs as [Hs | Hs]; [left; lia | now right].
Qed.

End Maintenance.

(** ** The variant on the library *)

Section YtdlVariant.

Variable DOWNLOAD_DIR : string.

Lemma ytdl_entry_keeps_unremovable (clock : nat -> Z) (i : nat) (name : string)
      (fs fs1 : FS) (p : string) (f : file) :
  Ytdl.sweep_entry DOWNLOAD_DIR clock i name fs = (Returned tt, fs1) ->
  Fs.lookup p fs = Some f -> removable f = false ->
  Fs.lookup p fs1 = Some f.
Proof.
  unfold Ytdl.sweep_entry, bind, statSync, unlinkSync, ret. intros H Hp Hrm.
  cbv zeta in H.
  destruct (Fs.lookup (Path.join [DOWNLOAD_DIR; name]) fs) as [g |] eqn:Eg;
    [| discriminate].
  destruct (clock i - mtimeMs g >? 2 * 60 * 60 * 1000)%Z.
  - rewrite Eg in H. destruct (removable g) eqn:Er; [| discriminate].
    inversion H; subst. rewrite lookup_remove.
    destruct (Path.join [DOWNLOAD_DIR; name] =? p) eqn:E; [| exact Hp].
    apply String.eqb_eq in E. subst p. congruence.
  - now inversion H; subst.
Qed.

Lemma ytdl_loop_fails (clock : nat -> Z) (files : list string) :
  forall (start : nat) (fs : FS) (j : nat) (name : string) (f : file),
    nth_error files j = Some name ->
    Fs.lookup (Path.join [DOWNLOAD_DIR; name]) fs = Some f ->
    removable f = false ->
    (clock (start + j)%nat - mtimeMs f > 2 * 60 * 60 * 1000)%Z ->
    exists message fs',
      forEach_indexed start files (Ytdl.sweep_entry DOWNLOAD_DIR clock) fs = (Thrown message, fs').
Proof.
  induction files as [| entry files IH]; intros start fs j name f Hnth Hf Hrm Hold.
  - destruct j; discriminate.
  - cbn [forEach_indexed]. unfold bind at 1.
    destruct (Ytdl.sweep_entry DOWNLOAD_DIR clock start entry fs)
      as [[[] | message] fs1] eqn:Estep;
      [| now exists message, fs1].
    destruct j as [| j].
    + exfalso. cbn in Hnth. inversion Hnth; subst entry.
      rewrite Nat.add_0_r in Hold.
      unfold Ytdl.sweep_entry, bind, statSync, unlinkSync, ret in Estep.
      cbv zeta in Estep. rewrite Hf in Estep.
      assert (Hc : (clock start - mtimeMs f >? 2 * 60 * 60 * 1000)%Z = true) by lia.
      rewrite Hc, Hf, Hrm in Estep. discriminate.
    + cbn in Hnth. apply (IH (S start) fs1 j name f Hnth).
      * exact (ytdl_entry_keeps_unremovable _ _ _ _ _ _ _ Estep Hf Hrm).
      * exact Hrm.
      * now rewrite <- Nat.add_succ_comm in Hold.
Qed.

(** The hourly sweep of this variant catches nothing: it fails when the
    directory is missing, and it fails whenever the directory lists an entry
    that is older than two hours when its turn comes and cannot be unlinked
    (a subdirectory, for one). *)
Theorem ytdl_sweep_fails_on_unremovable_entry (clock : nat -> Z) (fs : FS) :
  (Fs.lookup DOWNLOAD_DIR fs = None ->
   exists message, Ytdl.sweep DOWNLOAD_DIR clock fs = (Thrown message, fs))
  /\ (forall j name f,
        Fs.lookup DOWNLOAD_DIR fs <> None ->
        nth_error (Fs.children DOWNLOAD_DIR fs) j = Some name ->
        Fs.lookup (Path.join [DOWNLOAD_DIR; name]) fs = Some f ->
        removable f = false ->
        (clock j - mtimeMs f > 2 * 60 * 60 * 1000)%Z ->
        exists message fs',
          Ytdl.sweep DOWNLOAD_DIR clock fs = (Thrown message, fs')).
Proof.
  unfold Ytdl.sweep, readdirSync_unguarded. split.
  - intros H. unfold bind. rewrite H. eexists. reflexivity.
  - intros j name f Hdir Hnth Hf Hrm Hold. unfold bind at 1.
    destruct (Fs.lookup DOWNLOAD_DIR fs); [| now contradiction Hdir].
    exact (ytdl_loop_fails clock _ 0 fs j name f Hnth Hf Hrm Hold).
Qed.

(** POST [/download] of this variant, for every body.
    - No [url], or a falsy one: 400.
    - A [url] that is truthy and not a string: [convertShorts] throws inside
      the [try]; the handler answers 500 with the message of the
      [TypeError] and the library is not called.
    - Otherwise: 200 whenever the promise of the library call resolves,
      without a look at the file system, so that the link of the answer may
      name a file that does not exist; 500 with the message of the
      rejection otherwise. *)
Theorem ytdl_download_outcomes
        (ytld : list string -> FS -> option string * FS)
        (j : Json.body) (uuid origin : string) (fs : FS) :
  let url := Json.url j in
  let type := Json.type j in
  let filename := if Json.equals type "audio" then uuid ++ ".mp3" else uuid ++ ".mp4" in
  let run := Ytdl.post_download DOWNLOAD_DIR ytld j uuid origin fs in
  (Json.truthy url = false ->
   run = (Returned (Json.mkReply 400 [("error", Json.Str "URL required")]), fs))
  /\ (Json.truthy url = true -> Json.as_string url = None ->
      run = (Returned (Ytdl.failure "url.match is not a function"), fs))
  /\ (forall link,
        url = Some (Json.Str link) -> JS.truthy link = true ->
        let args :=
          ([Ytdl.convertShorts link; "--force-ipv4"; "--geo-bypass"; "--no-playlist";
            "--hls-prefer-native"; "--concurrent-fragments"; "5"; "--no-progress";
            "-o"; Path.join [DOWNLOAD_DIR; filename]]
           ++ (if Json.equals type "audio" then ["-x"; "--audio-format"; "mp3"]
               else []))%list in
        let out := ytld args fs in
        (fst out = None ->
         run = (Returned
                  (Json.mkReply 200
                     (Json.object
                        [("download_url",
                          Json.lit (origin ++ "/downloads/" ++ filename));
                         ("message", Json.lit "Downloaded successfully!");
                         ("type", type)])),
                snd out))
        /\ (forall message,
              fst out = Some message ->
              run = (Returned (Ytdl.failure message), snd out))).
Proof.
  cbv zeta. split; [| split].
  - intros Ht. unfold Ytdl.post_download, try_catch. now rewrite Ht.
  - intros Ht Hs. unfold Ytdl.post_download, try_catch. rewrite Ht. cbn [negb].
    now rewrite (receiver_fails "url" "match" _ _ fs Ht Hs).
  - intros link Hurl Ht. unfold Ytdl.post_download, try_catch. rewrite Hurl.
    cbn [Json.truthy]. rewrite Ht. cbn [negb].
    cbv beta iota zeta delta [bind Json.receiver ret].
    destruct (ytld _ fs) as [[message |] fs1];
      cbv beta iota zeta delta [fst snd]; split.
    + discriminate.
    + intros m Hm. now injection Hm as <-.
    + reflexivity.
    + discriminate.
Qed.

(** On a body whose fields are strings, [post_download] sends what
    [download] answers. *)
Lemma ytdl_post_download_on_strings
      (ytld : list string -> FS -> option string * FS)
      (b : Req.body) (uuid origin : string) (fs : FS) :
  Ytdl.post_download DOWNLOAD_DIR ytld (Json.of_strings b) uuid origin fs
  = Json.sent Ytdl.reply_of (Ytdl.download DOWNLOAD_DIR ytld b uuid origin fs).
Proof.
  unfold Ytdl.post_download, Ytdl.download, Json.of_strings, try_catch.
  cbn [Json.url Json.type].
  assert (Ht : Json.truthy (option_map Json.Str (Req.url b)) = truthy_field (Req.url b))
    by now destruct (Req.url b).
  rewrite Ht.
  destruct (truthy_field (Req.url b)) eqn:Hurl; cbn [negb]; [| reflexivity].
  destruct (Req.url b) as [link |] eqn:Eurl; [| discriminate].
  cbn [option_map default].
  assert (Ha : Json.equals (option_map Json.Str (Req.type b)) "audio"
               = Ytdl.is_audio (Req.type b))
    by now destruct (Req.type b).
  rewrite Ha.
  cbv beta iota zeta
      delta [bind Json.sent Json.receiver ret Ytdl.download_args
             Ytdl.download_filename].
  destruct (ytld _ fs) as [[message |] fs1]; reflexivity.
Qed.

End YtdlVariant.

(** The body [{"url": 12345}] in this variant: 500, and the library is not
    called. *)
Example ytdl_url_that_is_a_number :
  Ytdl.post_download "/app/downloads" (fun _ fs => (Some "not reached", fs))
    (Json.mkBody (Some (Json.Number false "12345")) None None None None)
    "9f1c2d3e-aaaa-4bbb-8ccc-123456789abc" "http://localhost:5000" []
  = (Returned
       (Json.mkReply 500
          [("error", Json.Str "Failed to download");
           ("details", Json.Str "url.match is not a function")]),
     []).
Proof. reflexivity. Qed.

(** ** Numbers: reading and rendering *)

Section Numbers.

Lemma digit_value_36 (c : ascii) :
  JS.digit_value 36 c = None ->
  JS.digit_value 10 c = None /\ Ascii.eqb "x" c = false /\ Ascii.eqb "X" c = false.
Proof.
  intros H. split; [| split].
  - unfold JS.digit_value in *.
    destruct ((48 <=? Z.of_nat (nat_of_ascii c)) && (Z.of_nat (nat_of_ascii c) <=? 57))%Z
      eqn:E1.
    { destruct (Z.of_nat (nat_of_ascii c) - 48 <? 36)%Z eqn:E; [discriminate | lia]. }
    destruct ((97 <=? Z.of_nat (nat_of_ascii c)) && (Z.of_nat (nat_of_ascii c) <=? 122))%Z
      eqn:E2.
    { destruct (Z.of_nat (nat_of_ascii c) - 87 <? 36)%Z eqn:E; [discriminate | lia]. }
    destruct ((65 <=? Z.of_nat (nat_of_ascii c)) && (Z.of_nat (nat_of_ascii c) <=? 90))%Z
      eqn:E3.
    { destruct (Z.of_nat (nat_of_ascii c) - 55 <? 36)%Z eqn:E; [discriminate | lia]. }
    reflexivity.
  - destruct (Ascii.eqb "x" c) eqn:E; [| reflexivity].
    apply Ascii.eqb_eq in E. subst c. discriminate.
  - destruct (Ascii.eqb "X" c) eqn:E; [| reflexivity].
    apply Ascii.eqb_eq in E. subst c. discriminate.
Qed.

Lemma digits_stop (a : option Z) (rest : string) :
  JS.numeral_ends rest -> JS.digits 10 a rest = a.
Proof.
  destruct rest as [| c r]; [reflexivity |]. cbn [JS.numeral_ends JS.digits].
  intros H. apply digit_value_36 in H. destruct H as [H _]. now rewrite H.
Qed.

Lemma digits_acc (d : Decimal.uint) (rest : string) :
  JS.numeral_ends rest ->
  forall acc,
    JS.digits 10 (Some (Z.pos acc)) (NilEmpty.string_of_uint d ++ rest)
    = Some (Z.pos (Pos.of_uint_acc d acc)).
Proof.
  intros Hrest. induction d as [| d IH | d IH | d IH | d IH | d IH | d IH
                                | d IH | d IH | d IH | d IH]; intros acc;
    cbn [NilEmpty.string_of_uint append Pos.of_uint_acc];
    [now apply digits_stop | ..];
    cbn [JS.digits];
    (match goal with
     | |- context [JS.digit_value 10 ?c] =>
         let v := eval vm_compute in (JS.digit_value 10 c) in
         change (JS.digit_value 10 c) with v
     end);
    cbv beta iota; rewrite <- IH; do 2 f_equal; lia.
Qed.

Lemma digits_zero (d : Decimal.uint) (rest : string) :
  JS.numeral_ends rest ->
  JS.digits 10 (Some 0%Z) (NilEmpty.string_of_uint d ++ rest)
  = Some (Z.of_N (Pos.of_uint d)).
Proof.
  intros Hrest. induction d as [| d IH | d IH | d IH | d IH | d IH | d IH
                                | d IH | d IH | d IH | d IH];
    cbn [NilEmpty.string_of_uint append Pos.of_uint];
    [now apply digits_stop | exact IH | ..];
    cbn [JS.digits];
    (match goal with
     | |- context [JS.digit_value 10 ?c] =>
         let v := eval vm_compute in (JS.digit_value 10 c) in
         change (JS.digit_value 10 c) with v
     end);
    cbv beta iota; apply (digits_acc d rest Hrest).
Qed.

Lemma digits_none (d : Decimal.uint) (rest : string) :
  JS.numeral_ends rest -> d <> Decimal.Nil ->
  JS.digits 10 None (NilEmpty.string_of_uint d ++ rest)
  = Some (Z.of_N (Pos.of_uint d)).
Proof.
  intros Hrest Hd.
  destruct d as [| d | d | d | d | d | d | d | d | d | d];
    [now contradiction Hd | ..];
    cbn [NilEmpty.string_of_uint append Pos.of_uint JS.digits];
    (match goal with
     | |- context [JS.digit_value 10 ?c] =>
         let v := eval vm_compute in (JS.digit_value 10 c) in
         change (JS.digit_value 10 c) with v
     end);
    cbv beta iota;
    [apply (digits_zero d rest Hrest) | apply (digits_acc d rest Hrest) ..].
Qed.


Lemma trimStart_none (s : string) :
  JS.strip_white_space s = None -> JS.trimStart s = s.
Proof.
  intros H. unfold JS.trimStart.
  destruct (String.length s); cbn [JS.trimStart_fuel]; [reflexivity |].
  now rewrite H.
Qed.

(** The first character of a numeral is a digit: no white space, no sign. *)
Lemma numeral_head (d : Decimal.uint) (rest : string) :
  d <> Decimal.Nil ->
  JS.strip_white_space (NilEmpty.string_of_uint d ++ rest) = None
  /\ JS.strip_prefix "-" (NilEmpty.string_of_uint d ++ rest) = None
  /\ JS.strip_prefix "+" (NilEmpty.string_of_uint d ++ rest) = None.
Proof.
  intros Hd. destruct d; [now contradiction Hd | ..]; repeat split; reflexivity.
Qed.

(** A numeral does not go on with [x]. *)
Lemma numeral_no_hex (d : Decimal.uint) (rest : string) :
  JS.numeral_ends rest ->
  JS.strip_prefix "0x" (NilEmpty.string_of_uint d ++ rest) = None
  /\ JS.strip_prefix "0X" (NilEmpty.string_of_uint d ++ rest) = None.
Proof.
  intros Hrest.
  assert (Hx : forall d', JS.strip_prefix "x" (NilEmpty.string_of_uint d' ++ rest) = None
                          /\ JS.strip_prefix "X" (NilEmpty.string_of_uint d' ++ rest) = None).
  { intros d'. destruct d'; try (split; reflexivity).
    cbn [NilEmpty.string_of_uint append]. destruct rest as [| c r]; [now split |].
    cbn [JS.numeral_ends] in Hrest. apply digit_value_36 in Hrest.
    destruct Hrest as [_ [H1 H2]]. cbn [JS.strip_prefix]. now rewrite H1, H2. }
  destruct d; try (split; reflexivity).
  - cbn [NilEmpty.string_of_uint append]. destruct rest as [| c r]; [now split |].
    cbn [JS.numeral_ends] in Hrest. apply digit_value_36 in Hrest.
    destruct Hrest as [Hd _]. split; cbn [JS.strip_prefix];
      destruct (Ascii.eqb "0" c) eqn:E; try reflexivity;
      apply Ascii.eqb_eq in E; subst c; discriminate.
  - cbn [NilEmpty.string_of_uint append JS.strip_prefix].
    change (Ascii.eqb "0" "0") with true. cbv beta iota. apply Hx.
Qed.

Lemma parseInt_unsigned (d : Decimal.uint) (rest : string) :
  d <> Decimal.Nil -> JS.numeral_ends rest ->
  JS.parseInt (NilEmpty.string_of_uint d ++ rest) = Some (Z.of_N (Pos.of_uint d)).
Proof.
  intros Hd Hrest. unfold JS.parseInt.
  destruct (numeral_head d rest Hd) as [Hw [Hm Hp]].
  destruct (numeral_no_hex d rest Hrest) as [Hx HX].
  rewrite (trimStart_none _ Hw), Hm, Hp, Hx, HX.
  rewrite (digits_none d rest Hrest Hd). f_equal. lia.
Qed.

Lemma to_uint_not_nil (p : positive) : Pos.to_uint p <> Decimal.Nil.
Proof.
  intros H. pose proof (DecimalPos.Unsigned.of_to p) as Hp.
  rewrite H in Hp. discriminate.
Qed.

Lemma of_Z_pos (p : positive) :
  JS.of_Z (Z.pos p) = NilEmpty.string_of_uint (Pos.to_uint p).
Proof.
  unfold JS.of_Z. cbn [Z.to_int NilZero.string_of_int].
  pose proof (to_uint_not_nil p) as H.
  destruct (Pos.to_uint p); [now contradiction H | reflexivity ..].
Qed.

Lemma of_Z_neg (p : positive) :
  JS.of_Z (Z.neg p) = String "-" (NilEmpty.string_of_uint (Pos.to_uint p)).
Proof.
  unfold JS.of_Z. cbn [Z.to_int NilZero.string_of_int].
  pose proof (to_uint_not_nil p) as H.
  destruct (Pos.to_uint p); [now contradiction H | reflexivity ..].
Qed.

(** [parseInt] reads back the decimal rendering of an integer, whatever
    follows the numeral. *)
Lemma parseInt_of_Z (n : Z) (rest : string) :
  JS.numeral_ends rest -> JS.parseInt (JS.of_Z n ++ rest) = Some n.
Proof.
  intros Hrest. destruct n as [| p | p].
  - change (JS.of_Z 0) with (NilEmpty.string_of_uint (Decimal.D0 Decimal.Nil)).
    rewrite parseInt_unsigned; [reflexivity | discriminate | exact Hrest].
  - rewrite of_Z_pos, parseInt_unsigned;
      [| apply to_uint_not_nil | exact Hrest].
    now rewrite DecimalPos.Unsigned.of_to.
  - rewrite of_Z_neg. cbn [append]. unfold JS.parseInt.
    rewrite trimStart_none by reflexivity.
    change (JS.strip_prefix "-"
              (String "-" (NilEmpty.string_of_uint (Pos.to_uint p) ++ rest)))
      with (Some (NilEmpty.string_of_uint (Pos.to_uint p) ++ rest)).
    cbv beta iota.
    destruct (numeral_no_hex (Pos.to_uint p) rest Hrest) as [Hx HX].
    rewrite Hx, HX.
    rewrite (digits_none _ rest Hrest (to_uint_not_nil p)).
    now rewrite DecimalPos.Unsigned.of_to.
Qed.

Lemma of_Z_truthy (n : Z) (rest : string) : JS.truthy (JS.of_Z n ++ rest) = true.
Proof.
  destruct n as [| p | p]; [reflexivity | |].
  - rewrite of_Z_pos. pose proof (to_uint_not_nil p) as H.
    destruct (Pos.to_uint p); [now contradiction H | reflexivity ..].
  - now rewrite of_Z_neg.
Qed.

End Numbers.

(** ** Renderings of durations and counts *)

Section Formatting.

Lemma pad_two_digits (k : Z) :
  (0 <= k < 60)%Z ->
  JS.padStart 2 "0" (JS.of_Z k)
  = String (ascii_of_nat (48 + Z.to_nat (k / 10)))
      (String (ascii_of_nat (48 + Z.to_nat (k mod 10))) "").
Proof.
  intros Hk. rewrite <- (Z2Nat.id k) by lia.
  assert (Hm : (Z.to_nat k < 60)%nat) by lia.
  revert Hm. generalize (Z.to_nat k). intros m Hm.
  do 60 (destruct m as [| m]; [reflexivity |]). lia.
Qed.

(** A duration given as a count of seconds (what follows the numeral, a
    fraction for one, is dropped) is rendered as minutes and seconds, with
    the hours in front from one hour on; minutes after hours, and seconds,
    take two digits. *)
Theorem formatDuration_of_seconds (n : Z) (rest : string) :
  (0 <= n < 2 ^ 53)%Z ->
  JS.numeral_ends rest ->
  Full.formatDuration (Some (JS.of_Z n ++ rest))
  = if (3600 <=? n)%Z
    then JS.of_Z (n / 3600) ++ ":"
         ++ String (ascii_of_nat (48 + Z.to_nat (n mod 3600 / 60 / 10)))
              (String (ascii_of_nat (48 + Z.to_nat ((n mod 3600 / 60) mod 10))) "")
         ++ ":"
         ++ String (ascii_of_nat (48 + Z.to_nat (n mod 60 / 10)))
              (String (ascii_of_nat (48 + Z.to_nat ((n mod 60) mod 10))) "")
    else JS.of_Z (n / 60) ++ ":"
         ++ String (ascii_of_nat (48 + Z.to_nat (n mod 60 / 10)))
              (String (ascii_of_nat (48 + Z.to_nat ((n mod 60) mod 10))) "").
Proof.
  intros Hn Hrest. unfold Full.formatDuration.
  cbn [truthy_field default]. rewrite of_Z_truthy. cbn [negb].
  rewrite (parseInt_of_Z n rest Hrest). cbn [option_map JS.number_toString].
  rewrite !Z.rem_mod_nonneg by lia.
  assert (Hm : (0 <= n mod 3600 / 60 < 60)%Z).
  { pose proof (Z.mod_pos_bound n 3600 ltac:(lia)).
    split; [apply Z.div_pos; lia | apply Z.div_lt_upper_bound; lia]. }
  assert (Hs : (0 <= n mod 60 < 60)%Z) by (apply Z.mod_pos_bound; lia).
  rewrite (pad_two_digits _ Hm), (pad_two_digits _ Hs).
  destruct (3600 <=? n)%Z eqn:E.
  - assert (Hh : (n / 3600 >? 0)%Z = true).
    { apply Z.leb_le in E.
      assert (1 <= n / 3600)%Z by (apply Z.div_le_lower_bound; lia). lia. }
    now rewrite Hh.
  - assert (Hh : (n / 3600 >? 0)%Z = false).
    { apply Z.leb_gt in E. rewrite Z.div_small by lia. reflexivity. }
    rewrite Hh. rewrite (Z.mod_small n 3600) by lia. reflexivity.
Qed.

Lemma formatDuration_of_seconds_witness :
  Full.formatDuration (Some (JS.of_Z 3725 ++ ".4")) = "1:02:05".
Proof.
  rewrite (formatDuration_of_seconds 3725 ".4"); [reflexivity | lia | reflexivity].
Defined.

(** A text that starts with a letter (the tool prints [NA] for a value it
    does not know) is no number: the duration is rendered [NaN:NaN] and the
    count [NaN]. *)
Theorem formats_of_text_are_NaN
        (toFixed1 : Z -> Z -> string) (c : ascii) (rest : string) :
  Regex.in_range "a" "z" c || Regex.in_range "A" "Z" c = true ->
  Full.formatDuration (Some (String c rest)) = "NaN:NaN"
  /\ Full.formatNumber toFixed1 (Some (String c rest)) = "NaN".
Proof.
  intros Hc.
  assert (Hp : JS.parseInt (String c rest) = None).
  { unfold JS.parseInt.
    assert (Hw : JS.strip_white_space (String c rest) = None
                 /\ JS.strip_prefix "-" (String c rest) = None
                 /\ JS.strip_prefix "+" (String c rest) = None
                 /\ JS.strip_prefix "0x" (String c rest) = None
                 /\ JS.strip_prefix "0X" (String c rest) = None
                 /\ JS.digit_value 10 c = None).
    { destruct c as [[] [] [] [] [] [] [] []];
        try discriminate Hc; repeat split; reflexivity. }
    destruct Hw as [Hw [Hm [Hpl [Hx [HX Hd]]]]].
    rewrite (trimStart_none _ Hw), Hm, Hpl, Hx, HX.
    cbn [JS.digits]. now rewrite Hd. }
  unfold Full.formatDuration, Full.formatNumber.
  cbn [truthy_field default JS.truthy negb]. rewrite Hp. split; reflexivity.
Qed.

Lemma formats_of_text_are_NaN_witness :
  Full.formatDuration (Some "NA") = "NaN:NaN"
  /\ Full.formatNumber (fun _ _ => "") (Some "NA") = "NaN".
Proof.
  apply (formats_of_text_are_NaN (fun _ _ => "") "N" "A"). reflexivity.
Defined.

(** A count below one thousand is rendered as it is, without a suffix; a
    missing or empty count is rendered [0]. *)
Theorem formatNumber_small_count
        (toFixed1 : Z -> Z -> string) (n : Z) (rest : string) :
  (- 2 ^ 53 < n < 1000)%Z ->
  JS.numeral_ends rest ->
  Full.formatNumber toFixed1 (Some (JS.of_Z n ++ rest)) = JS.of_Z n
  /\ Full.formatNumber toFixed1 None = "0"
  /\ Full.formatNumber toFixed1 (Some "") = "0".
Proof.
  intros Hn Hrest. split; [| split; reflexivity].
  unfold Full.formatNumber. cbn [truthy_field default].
  rewrite of_Z_truthy. cbn [negb]. rewrite (parseInt_of_Z n rest Hrest).
  assert (H1 : (n >=? 1000000)%Z = false) by lia.
  assert (H2 : (n >=? 1000)%Z = false) by lia.
  now rewrite H1, H2.
Qed.

Lemma formatNumber_small_count_witness :
  Full.formatNumber (fun _ _ => "") (Some (JS.of_Z 999 ++ "")) = JS.of_Z 999
  /\ Full.formatNumber (fun _ _ => "") None = "0"
  /\ Full.formatNumber (fun _ _ => "") (Some "") = "0".
Proof.
  apply (formatNumber_small_count (fun _ _ => "") 999 ""); [lia | exact I].
Defined.

End Formatting.

(** ** Search results and the normalizer *)

Section SearchResults.

Lemma normalizeUrl_short_link (id : string) :
  String.length id = 11 ->
  Forall (fun c => Regex.id_char c = true) (JS.chars id) ->
  normalizeUrl ("https://youtu.be/" ++ id) = Some (watch_prefix ++ id).
Proof.
  intros Hlen Hid.
  assert (H1 : Regex.search "youtube.com/shorts/"
                 (Regex.exactly Regex.id_char 11) ("https://youtu.be/" ++ id) = None).
  { cbn. apply (search_outside_class _ _ Regex.id_char "."); auto. cbn. tauto. }
  assert (H3 : Regex.exactly Regex.id_char 11 id = Some id).
  { rewrite <- Hlen. now apply exactly_self. }
  unfold normalizeUrl. rewrite H1. clear H1.
  remember (Regex.exactly Regex.id_char 11) as group eqn:Hgroup.
  cbn. rewrite H3. reflexivity.
Qed.

Lemma normalizeUrl_shorts_link (id : string) :
  String.length id = 11 ->
  Forall (fun c => Regex.id_char c = true) (JS.chars id) ->
  normalizeUrl ("https://youtube.com/shorts/" ++ id) = Some (watch_prefix ++ id).
Proof.
  intros Hlen Hid.
  assert (H3 : Regex.exactly Regex.id_char 11 id = Some id).
  { rewrite <- Hlen. now apply exactly_self. }
  unfold normalizeUrl.
  remember (Regex.exactly Regex.id_char 11) as group eqn:Hgroup.
  cbn. rewrite H3. reflexivity.
Qed.

(** The links of a search result lead back to one watch link: when the
    second field of the line is an 11 character identifier, the result's
    [url] is the canonical watch link of it, and the normalizer maps [url],
    [shortUrl] and [shortsUrl] all to that link; the thumbnail is never
    empty. *)
Theorem search_result_links_normalize
        (toFixed1 : Z -> Z -> string) (fields : list string) (video : string) :
  nth_error fields 1 = Some video ->
  String.length video = 11 ->
  Forall (fun c => Regex.id_char c = true) (JS.chars video) ->
  Full.url (Full.result_of_fields toFixed1 fields) = watch_prefix ++ video
  /\ normalizeUrl (Full.url (Full.result_of_fields toFixed1 fields))
     = Some (watch_prefix ++ video)
  /\ normalizeUrl (Full.shortUrl (Full.result_of_fields toFixed1 fields))
     = Some (watch_prefix ++ video)
  /\ normalizeUrl (Full.shortsUrl (Full.result_of_fields toFixed1 fields))
     = Some (watch_prefix ++ video)
  /\ JS.truthy (Full.thumbnail (Full.result_of_fields toFixed1 fields)) = true.
Proof.
  intros Hid Hlen Hc. unfold Full.result_of_fields.
  cbn [Full.url Full.shortUrl Full.shortsUrl Full.thumbnail]. rewrite Hid.
  cbn [Full.interpolate default].
  split; [reflexivity |].
  split; [exact (normalizeUrl_canonical video Hlen Hc) |].
  split; [exact (normalizeUrl_short_link video Hlen Hc) |].
  split; [exact (normalizeUrl_shorts_link video Hlen Hc) |].
  unfold or_else. destruct (nth_error fields 5) as [t |]; [| reflexivity].
  destruct (JS.truthy t) eqn:Et; [exact Et | reflexivity].
Qed.

Lemma search_result_links_normalize_witness :
  Full.url (Full.result_of_fields (fun _ _ => "")
              ["Never Gonna Give You Up"; "dQw4w9WgXcQ"; "213"; "999"; "Rick Astley"; ""])
  = watch_prefix ++ "dQw4w9WgXcQ"
  /\ normalizeUrl
       (Full.shortUrl (Full.result_of_fields (fun _ _ => "")
          ["Never Gonna Give You Up"; "dQw4w9WgXcQ"; "213"; "999"; "Rick Astley"; ""]))
     = Some (watch_prefix ++ "dQw4w9WgXcQ").
Proof.
  destruct (search_result_links_normalize (fun _ _ => "")
              ["Never Gonna Give You Up"; "dQw4w9WgXcQ"; "213"; "999"; "Rick Astley"; ""]
              "dQw4w9WgXcQ" eq_refl eq_refl)
    as [Hurl [_ [Hshort _]]].
  - repeat constructor.
  - split; [exact Hurl | exact Hshort].
Defined.

End SearchResults.

(** ** The shorts rewriting of the minimal variants *)

Section ShortsRewriting.

Lemma run_in_class (cls : ascii -> bool) (s : string) :
  Forall (fun c => cls c = true) (JS.chars (Regex.run cls s)).
Proof.
  induction s as [| c s IH]; cbn [Regex.run]; [constructor |].
  destruct (cls c) eqn:E; [| constructor].
  rewrite chars_cons. now constructor.
Qed.

Lemma search_run_sound (lit : string) (cls : ascii -> bool) :
  forall s g, Regex.search lit (Regex.at_least_one cls) s = Some g ->
    Forall (fun c => cls c = true) (JS.chars g).
Proof.
  assert (Hhere : forall s g,
             Regex.match_here lit (Regex.at_least_one cls) s = Some g ->
             Forall (fun c => cls c = true) (JS.chars g)).
  { intros s g H. unfold Regex.match_here, Regex.at_least_one in H.
    destruct (JS.strip_prefix lit s) as [rest |]; [| discriminate].
    pose proof (run_in_class cls rest) as Hr.
    destruct (Regex.run cls rest); [discriminate |]. now inversion H; subst. }
  induction s as [| c s IH]; intros g H; cbn in H.
  - destruct (Regex.match_here lit _ "") eqn:E; [| discriminate].
    inversion H; subst. exact (Hhere _ _ E).
  - destruct (Regex.match_here lit _ (String c s)) eqn:E.
    + inversion H; subst. exact (Hhere _ _ E).
    + now apply IH.
Qed.

Lemma no_shorts_in_watch_link (group : string -> option string) (g : string) :
  Forall (fun c => Regex.id_char c = true) (JS.chars g) ->
  Regex.search "youtube.com/shorts/" group (watch_prefix ++ g) = None.
Proof.
  intros Hg. unfold watch_prefix. cbn.
  apply (search_outside_class _ _ Regex.id_char "."); auto. cbn. tauto.
Qed.

(** The rewriting of [normalizeUrl] in the minimal variant and of
    [convertShorts] is idempotent: the watch link it builds holds no shorts
    pattern, and a link without the pattern is returned as it is. *)
Theorem shorts_rewriting_idempotent (link : string) :
  Ytdl.convertShorts (Ytdl.convertShorts link) = Ytdl.convertShorts link
  /\ (forall result,
        Minimal.normalizeUrl (Some link) = Some result ->
        Minimal.normalizeUrl (Some result) = Some result)
  /\ (JS.truthy link = true ->
      Minimal.normalizeUrl (Some link) = Some (Ytdl.convertShorts link)).
Proof.
  assert (Hfix : Ytdl.convertShorts (Ytdl.convertShorts link) = Ytdl.convertShorts link).
  { unfold Ytdl.convertShorts at 2 3.
    destruct (Regex.search "youtube.com/shorts/" _ link) as [g |] eqn:E.
    - apply search_run_sound in E. unfold Ytdl.convertShorts.
      now rewrite (no_shorts_in_watch_link _ g E).
    - unfold Ytdl.convertShorts. now rewrite E. }
  assert (Hsame : JS.truthy link = true ->
                  Minimal.normalizeUrl (Some link) = Some (Ytdl.convertShorts link)).
  { intros Ht. unfold Minimal.normalizeUrl, Ytdl.convertShorts.
    cbn [truthy_field default]. rewrite Ht. cbn [negb].
    now destruct (Regex.search "youtube.com/shorts/" _ link). }
  split; [exact Hfix |]. split; [| exact Hsame].
  intros result H.
  destruct (JS.truthy link) eqn:Ht.
  - rewrite (Hsame eq_refl) in H. inversion H; subst result.
    unfold Minimal.normalizeUrl. cbn [truthy_field default].
    assert (Htr : JS.truthy (Ytdl.convertShorts link) = true).
    { unfold Ytdl.convertShorts.
      destruct (Regex.search "youtube.com/shorts/" _ link); [reflexivity | exact Ht]. }
    rewrite Htr. cbn [negb].
    remember (Ytdl.convertShorts link) as y eqn:Hy.
    unfold Ytdl.convertShorts in Hfix.
    destruct (Regex.search "youtube.com/shorts/" _ y); now rewrite ?Hfix.
  - unfold Minimal.normalizeUrl in H. cbn [truthy_field] in H.
    rewrite Ht in H. discriminate.
Qed.

End ShortsRewriting.

(** ** From download to retrieval *)

Section DownloadThenRetrieve.

Variable TEMP_DIR : string.
Variable proc : Process.

(** The file a success response of the full variant names can be fetched:
    right after the download, GET [/stream/<filename>] and GET
    [/file/<filename>] find it and serve the very path whose existence the
    download checked; the two links of the response are these two routes. *)
Theorem full_artifact_is_retrievable
        (b : Req.body) (uuid : string) (now : Z) (origin : string) (fs fs' : FS)
        (s : Full.success) :
  Full.download TEMP_DIR proc b uuid now origin fs = (Returned (Full.Success s), fs') ->
  Full.stream TEMP_DIR (Full.filename s) fs'
  = (Returned (Full.Stream (Path.join [TEMP_DIR; Full.filename s]) (Full.filename s)),
     fs')
  /\ Full.file TEMP_DIR (Full.filename s) fs'
     = (Returned (Full.Download (Path.join [TEMP_DIR; Full.filename s])
                    (Full.filename s)), fs')
  /\ Full.downloadUrl s = origin ++ "/stream/" ++ Full.filename s
  /\ Full.directUrl s = origin ++ "/file/" ++ Full.filename s.
Proof.
  unfold Full.download. intros H.
  destruct (truthy_field (Req.url b)); cbn [negb] in H; [| discriminate].
  cbv beta iota zeta
      delta [try_catch bind executeYtDlp execPromise existsSync statSync
             unlinkSync ret throw negb] in H.
  destruct (proc _ fs) as [[message |] fs1].
  - destruct (Fs.lookup _ fs1) as [g |] eqn:Eg;
      repeat (progress (cbv beta iota in H; rewrite ?Eg in H));
      [destruct (removable g) |]; discriminate.
  - destruct (Fs.lookup _ fs1) as [g |] eqn:Eg;
      repeat (progress (cbv beta iota in H; rewrite ?Eg in H)); [| discriminate].
    inversion H; subst; clear H. cbn [Full.filename Full.downloadUrl Full.directUrl].
    unfold Full.stream, Full.file, bind, existsSync, ret.
    rewrite Eg. cbn [negb]. repeat split.
Qed.

Lemma child_is_plain_unless_dot (dir name : string) (fs : FS) :
  In name (Fs.children dir fs) ->
  JS.truthy name = true /\ JS.includes name "/" = false
  /\ exists f, Fs.lookup (dir ++ "/" ++ name) fs = Some f.
Proof.
  intros Hin. apply children_spec in Hin. destruct Hin as [p [g [Hin Hc]]].
  pose proof (child_name_path _ _ _ Hc) as Hp. subst p.
  unfold Fs.child_name in Hc.
  destruct (JS.strip_prefix (dir ++ "/") (dir ++ "/" ++ name)) as [rest |];
    [| discriminate].
  destruct (JS.truthy rest) eqn:Ht; cbn [andb] in Hc; [| discriminate].
  destruct (JS.includes rest "/") eqn:Hi; cbn [negb] in Hc; [discriminate |].
  inversion Hc; subst rest. split; [exact Ht |]. split; [exact Hi |].
  exact (in_lookup _ _ _ Hin).
Qed.

(** The link a success response of the minimal variant gives can be
    followed: with the artifact directory at an absolute path of plain
    segments, GET [/file/<name>] for the name in the link finds the file in
    the directory. *)
Theorem minimal_artifact_is_retrievable
        (seg : string) (segs : list string)
        (b : Req.body) (now : Z) (fs fs' : FS) (downloadUrl type : string) :
  TEMP_DIR = "/" ++ JS.join "/" (seg :: segs) ->
  Forall (fun x => Path.plain x = true) (seg :: segs) ->
  Minimal.download TEMP_DIR proc b now fs
  = (Returned (Minimal.Ok downloadUrl type), fs') ->
  exists name,
    downloadUrl = "/file/" ++ name
    /\ JS.startsWith name (Minimal.job_id now) = true
    /\ Fs.lookup (TEMP_DIR ++ "/" ++ name) fs' <> None
    /\ Minimal.file TEMP_DIR name fs'
       = (Returned (Minimal.Download (TEMP_DIR ++ "/" ++ name)), fs').
Proof.
  intros Hform Hsegs H. unfold Minimal.download in H.
  destruct (Minimal.download_input b) as [input |]; [| discriminate].
  destruct (JS.truthy input); cbn [negb] in H; [| discriminate].
  cbv beta iota zeta
      delta [try_catch bind execPromise Minimal.job_files readdirSync_unguarded
             ret throw] in H.
  destruct (proc _ fs) as [[message |] fs1]; [discriminate |].
  destruct (Fs.lookup TEMP_DIR fs1) as [d |]; [| discriminate].
  destruct (filter _ (Fs.children TEMP_DIR fs1)) as [| first others] eqn:Ef;
    [discriminate |].
  inversion H; subst downloadUrl type fs1. clear H.
  assert (Hin : In first (filter (fun f => JS.startsWith f (Minimal.job_id now))
                            (Fs.children TEMP_DIR fs')))
    by (rewrite Ef; now left).
  apply filter_In in Hin. destruct Hin as [Hlisted Hstart].
  destruct (child_is_plain_unless_dot _ _ _ Hlisted) as [Ht [Hs [f Hf]]].
  assert (Hplain : Path.plain first = true).
  { unfold Path.plain. rewrite Ht, Hs. cbn [andb negb].
    unfold JS.startsWith, Minimal.job_id in Hstart.
    destruct (JS.strip_prefix ("yt-" ++ JS.of_Z now) first) as [rest |] eqn:E;
      [| discriminate].
    apply strip_prefix_app in E. rewrite E. reflexivity. }
  exists first. split; [reflexivity |]. split; [exact Hstart |].
  split; [congruence |].
  assert (Hjoin : Path.join [TEMP_DIR; first] = TEMP_DIR ++ "/" ++ first).
  { rewrite Hform. now apply path_join_plain. }
  unfold Minimal.file, bind, existsSync, ret.
  rewrite Hjoin, Hf. reflexivity.
Qed.

End DownloadThenRetrieve.

Lemma full_artifact_is_retrievable_witness :
  Full.stream "/app/temp" "9f1c2d3e-1700000000000.mp4"
    [("/app/temp/9f1c2d3e-1700000000000.mp4", mkFile 5000 1700000000500 true)]
  = (Returned (Full.Stream (Path.join ["/app/temp"; "9f1c2d3e-1700000000000.mp4"])
                 "9f1c2d3e-1700000000000.mp4"),
     [("/app/temp/9f1c2d3e-1700000000000.mp4", mkFile 5000 1700000000500 true)]).
Proof.
  apply (full_artifact_is_retrievable "/app/temp"
           (fun _ fs =>
              (None, ("/app/temp/9f1c2d3e-1700000000000.mp4",
                      mkFile 5000 1700000000500 true) :: fs))
           (Req.mkBody (Some "https://youtu.be/dQw4w9WgXcQ") None None None None)
           "9f1c2d3e-aaaa-4bbb-8ccc-123456789abc" 1700000000000
           "http://localhost:5000" []
           [("/app/temp/9f1c2d3e-1700000000000.mp4", mkFile 5000 1700000000500 true)]
           {| Full.downloadId := "9f1c2d3e";
              Full.filename := "9f1c2d3e-1700000000000.mp4";
              Full.originalUrl := "https://youtu.be/dQw4w9WgXcQ";
              Full.type := "video";
              Full.quality := "medium";
              Full.fileSize := 5000;
              Full.isTooLarge := false;
              Full.maxAllowedMB := 64;
              Full.downloadUrl :=
                "http://localhost:5000/stream/9f1c2d3e-1700000000000.mp4";
              Full.directUrl :=
                "http://localhost:5000/file/9f1c2d3e-1700000000000.mp4" |}).
  vm_compute. reflexivity.
Defined.

Lemma minimal_artifact_is_retrievable_witness :
  exists name,
    "/file/yt-1700000000000.mp4" = "/file/" ++ name
    /\ JS.startsWith name (Minimal.job_id 1700000000000) = true
    /\ Fs.lookup ("/app/temp" ++ "/" ++ name)
         [("/app/temp/yt-1700000000000.mp4", mkFile 5000 1700000000500 true);
          ("/app/temp", mkFile 4096 0 false)] <> None
    /\ Minimal.file "/app/temp" name
         [("/app/temp/yt-1700000000000.mp4", mkFile 5000 1700000000500 true);
          ("/app/temp", mkFile 4096 0 false)]
       = (Returned (Minimal.Download ("/app/temp" ++ "/" ++ name)),
          [("/app/temp/yt-1700000000000.mp4", mkFile 5000 1700000000500 true);
           ("/app/temp", mkFile 4096 0 false)]).
Proof.
  apply (minimal_artifact_is_retrievable "/app/temp"
           (fun _ fs =>
              (None, ("/app/temp/yt-1700000000000.mp4",
                      mkFile 5000 1700000000500 true) :: fs))
           "app" ["temp"]
           (Req.mkBody (Some "https://youtu.be/dQw4w9WgXcQ") None None None None)
           1700000000000 [("/app/temp", mkFile 4096 0 false)] _ _ "video").
  - reflexivity.
  - repeat constructor.
  - reflexivity.
Defined.
